(** * Portfolio builder: the generation, merge and rendering pipeline

    A shallow embedding of the back end's AI service, sequelize models,
    portfolio generator and template engine, and the properties of the
    specification that were checked against it.

    Layout: the embedding first (JavaScript values and [JSON.parse], the
    error and state monad, the services and models), then the notions the
    statements use and the example data, then the rest of the models, the
    template registry, the ownership check and the routes behind it, then
    the lemmas, the properties of the specification and further properties
    of the code. *)

From Stdlib Require Import ZArith NArith Ascii String DecimalString DecimalNat Lia.
From stdpp Require Import base option list strings gmap.

Set Warnings "-register-all".

Open Scope N_scope.

(** ** JavaScript text

    A JavaScript string is a sequence of UTF-16 code units; the embedding
    keeps one [N] per code unit.  [txt] writes a literal. *)

Definition text := list N.

Definition txt (s : string) : text := map N_of_ascii (list_ascii_of_string s).

(** A literal of JSON text, written with an apostrophe wherever the text
    has a double quote (code unit 34). *)
Definition jsn (s : string) : text :=
  map (fun c => if c =? 39 then 34 else c) (txt s).

(** Decimal rendering of an array index or a counter, as template literals
    and property keys print a non-negative integer. *)
Definition decimal (n : nat) : text :=
  txt (NilEmpty.string_of_uint (Nat.to_uint n)).

Fixpoint after_prefix (p s : text) : option text :=
  match p, s with
  | [], _ => Some s
  | a :: p', b :: s' => if a =? b then after_prefix p' s' else None
  | _ :: _, [] => None
  end.

(** [find_sub p s]: the text before and after the leftmost occurrence of
    [p] in [s]. *)
Fixpoint find_sub (p s : text) : option (text * text) :=
  match after_prefix p s with
  | Some rest => Some ([], rest)
  | None =>
      match s with
      | [] => None
      | c :: s' =>
          match find_sub p s' with
          | Some (before, rest) => Some (c :: before, rest)
          | None => None
          end
      end
  end.

(** ** JavaScript values

    [value] is what [JSON.parse] can produce.  An object is its list of own
    properties in insertion order, without duplicate keys (the order in
    which an engine enumerates integer-like keys is not modelled; every
    statement below is about lookups).  A number is kept as the token the
    parser read: its floating-point value is not interpreted. *)

Inductive value : Type :=
  | VNull
  | VBool (b : bool)
  | VNum (lexeme : text)
  | VStr (s : text)
  | VArr (items : list value)
  | VObj (props : list (text * value)).

(** A value held in memory may also be [undefined], or something that only
    a built-in prototype supplies (a method, the prototype object itself).
    Such a value is truthy; [serial] is what [JSON.stringify] writes for it
    as a property value, [None] when the property is left out. *)
Inductive jsval : Type :=
  | JUndefined
  | JBuiltin (serial : option value)
  | JVal (v : value).

Section Props.
Context {A : Type}.

(** [o[k]] on own properties.  When a list repeats a key the later entry
    counts, as a later write would. *)
Fixpoint prop_lookup (k : text) (ps : list (text * A)) : option A :=
  match ps with
  | [] => None
  | (k', v) :: ps' =>
      match prop_lookup k ps' with
      | Some x => Some x
      | None => if bool_decide (k' = k) then Some v else None
      end
  end.

(** [o[k] = v] on an ordinary object: an existing key keeps its place. *)
Fixpoint prop_set (k : text) (v : A) (ps : list (text * A)) : list (text * A) :=
  match ps with
  | [] => [(k, v)]
  | (k', v') :: ps' =>
      if bool_decide (k' = k) then (k, v) :: ps' else (k', v') :: prop_set k v ps'
  end.

(** Copying properties one by one onto a target, as object spread does. *)
Definition assign (target src : list (text * A)) : list (text * A) :=
  foldl (fun acc kv => prop_set kv.1 kv.2 acc) target src.
End Props.

Fixpoint indexed {A : Type} (i : nat) (l : list A) : list (text * A) :=
  match l with
  | [] => []
  | x :: l' => (decimal i, x) :: indexed (S i) l'
  end.

(** Own enumerable string-keyed properties, which is what [{...v}] copies:
    the entries of an object, the indices of an array, the code units of a
    string, nothing for [null], booleans and numbers. *)
Definition own_props (v : value) : list (text * value) :=
  match v with
  | VObj ps => ps
  | VArr items => indexed 0 items
  | VStr s => indexed 0 (map (fun c => VStr [c]) s)
  | _ => []
  end.

(** The mantissa of a number token: everything before an exponent mark. *)
Fixpoint mantissa (s : text) : text :=
  match s with
  | [] => []
  | c :: s' => if (c =? 101) || (c =? 69) then [] else c :: mantissa s'
  end.

(** A number token is falsy when its mantissa has no non-zero digit (a token
    that only underflows to zero is outside the embedding). *)
Definition num_is_zero (lexeme : text) : bool :=
  forallb (fun c => negb ((49 <=? c) && (c <=? 57))) (mantissa lexeme).

Definition truthy (v : value) : bool :=
  match v with
  | VNull => false
  | VBool b => b
  | VNum n => negb (num_is_zero n)
  | VStr s => negb (bool_decide (s = []))
  | VArr _ | VObj _ => true
  end.

Definition jtruthy (j : jsval) : bool :=
  match j with
  | JUndefined => false
  | JBuiltin _ => true
  | JVal v => truthy v
  end.

(** ** [JSON.parse]

    The grammar of ECMA-404 as [JSON.parse] accepts it: white space is tab,
    line feed, carriage return and space; a string has no raw code unit
    below 0x20 and the escapes quote, backslash, slash, b, f, n, r, t and
    uXXXX; a number is an optional minus, an integer part without a
    leading zero (or a single zero), an optional fraction and an optional
    exponent; a repeated key keeps the last value. *)

Definition is_ws (c : N) : bool :=
  (c =? 9) || (c =? 10) || (c =? 13) || (c =? 32).

Fixpoint skip_ws (s : text) : text :=
  match s with
  | c :: s' => if is_ws c then skip_ws s' else s
  | [] => []
  end.

Definition is_digit (c : N) : bool := (48 <=? c) && (c <=? 57).

Definition hex_val (c : N) : option N :=
  if is_digit c then Some (c - 48)
  else if (97 <=? c) && (c <=? 102) then Some (c - 87)
  else if (65 <=? c) && (c <=? 70) then Some (c - 55)
  else None.

Definition hex4 (a b c d : N) : option N :=
  match hex_val a, hex_val b, hex_val c, hex_val d with
  | Some x, Some y, Some z, Some w => Some (((x * 16 + y) * 16 + z) * 16 + w)
  | _, _, _, _ => None
  end.

(** The code unit a single-character escape stands for: quote, backslash,
    slash, b, f, n, r, t. *)
Definition unescape (e : N) : option N :=
  if e =? 34 then Some 34
  else if e =? 92 then Some 92
  else if e =? 47 then Some 47
  else if e =? 98 then Some 8
  else if e =? 102 then Some 12
  else if e =? 110 then Some 10
  else if e =? 114 then Some 13
  else if e =? 116 then Some 9
  else None.

Definition cons_body (c : N) (r : option (text * text)) : option (text * text) :=
  match r with
  | Some (body, rest) => Some (c :: body, rest)
  | None => None
  end.

(** The body of a string after its opening quote, and the text after the
    closing quote. *)
Fixpoint lex_string (s : text) : option (text * text) :=
  match s with
  | [] => None
  | c :: r =>
      if c =? 34 then Some ([], r)
      else if c =? 92 then
        match r with
        | [] => None
        | e :: r1 =>
            match unescape e with
            | Some u => cons_body u (lex_string r1)
            | None =>
                if e =? 117 then
                  match r1 with
                  | h1 :: h2 :: h3 :: h4 :: r2 =>
                      match hex4 h1 h2 h3 h4 with
                      | Some u => cons_body u (lex_string r2)
                      | None => None
                      end
                  | _ => None
                  end
                else None
            end
        end
      else if c <? 32 then None
      else cons_body c (lex_string r)
  end.

Fixpoint span_digits (s : text) : text * text :=
  match s with
  | c :: s' =>
      if is_digit c then let '(ds, rest) := span_digits s' in (c :: ds, rest)
      else ([], s)
  | [] => ([], [])
  end.

Definition lex_int (s : text) : option (text * text) :=
  match s with
  | c :: rest =>
      if c =? 48 then Some ([48], rest)
      else if is_digit c then Some (span_digits s)
      else None
  | [] => None
  end.

Definition nonempty_digits (s : text) : option (text * text) :=
  match span_digits s with
  | ([], _) => None
  | (ds, rest) => Some (ds, rest)
  end.

Definition lex_frac (s : text) : option (text * text) :=
  match s with
  | c :: r =>
      if c =? 46 then '(ds, rest) ← nonempty_digits r; Some (46 :: ds, rest)
      else Some ([], s)
  | [] => Some ([], s)
  end.

Definition lex_sign (s : text) : text * text :=
  match s with
  | c :: r => if (c =? 43) || (c =? 45) then ([c], r) else ([], s)
  | [] => ([], s)
  end.

Definition lex_exp (s : text) : option (text * text) :=
  match s with
  | e :: r =>
      if (e =? 101) || (e =? 69) then
        let '(sign, r1) := lex_sign r in
        '(ds, rest) ← nonempty_digits r1; Some (e :: sign ++ ds, rest)
      else Some ([], s)
  | [] => Some ([], s)
  end.

Definition lex_minus (s : text) : text * text :=
  match s with
  | c :: r => if c =? 45 then ([45], r) else ([], s)
  | [] => ([], s)
  end.

Definition lex_number (s : text) : option (text * text) :=
  let '(sign, s1) := lex_minus s in
  '(int, s2) ← lex_int s1;
  '(frac, s3) ← lex_frac s2;
  '(exp, s4) ← lex_exp s3;
  Some (sign ++ int ++ frac ++ exp, s4).

(** A value that is not an object or an array. *)
Definition parse_scalar (s : text) : option (value * text) :=
  match s with
  | [] => None
  | c :: r =>
      if c =? 34 then '(body, rest) ← lex_string r; Some (VStr body, rest)
      else
        match after_prefix (txt "true") s with
        | Some rest => Some (VBool true, rest)
        | None =>
        match after_prefix (txt "false") s with
        | Some rest => Some (VBool false, rest)
        | None =>
        match after_prefix (txt "null") s with
        | Some rest => Some (VNull, rest)
        | None => '(lexeme, rest) ← lex_number s; Some (VNum lexeme, rest)
        end end end
  end.

(** What follows a member or an element: a comma, the closing bracket, or
    an error. *)
Inductive separator := Comma (rest : text) | Close (rest : text) | Neither.

Definition separator_after (close : N) (s : text) : separator :=
  match skip_ws s with
  | c :: rest =>
      if c =? 44 then Comma rest
      else if c =? close then Close rest
      else Neither
  | [] => Neither
  end.

(** The key of a member and the text after its colon. *)
Definition parse_key (s : text) : option (text * text) :=
  match s with
  | c :: r =>
      if c =? 34 then
        '(key, r1) ← lex_string r;
        match skip_ws r1 with
        | d :: r2 => if d =? 58 then Some (key, r2) else None
        | [] => None
        end
      else None
  | [] => None
  end.

Fixpoint parse_value (fuel : nat) (s : text) : option (value * text) :=
  match fuel with
  | O => None
  | S fuel' =>
      match skip_ws s with
      | [] => None
      | c :: r =>
          if c =? 123 then                            (* { *)
            match skip_ws r with
            | d :: rest =>
                if d =? 125 then Some (VObj [], rest)
                else parse_members fuel' (d :: rest) []
            | [] => None
            end
          else if c =? 91 then                        (* [ *)
            match skip_ws r with
            | d :: rest =>
                if d =? 93 then Some (VArr [], rest)
                else parse_elements fuel' (d :: rest) []
            | [] => None
            end
          else parse_scalar (c :: r)
      end
  end
with parse_members (fuel : nat) (s : text) (acc : list (text * value))
  : option (value * text) :=
  match fuel with
  | O => None
  | S fuel' =>
      '(key, r2) ← parse_key s;
      '(v, r3) ← parse_value fuel' r2;
      match separator_after 125 r3 with
      | Comma r4 => parse_members fuel' (skip_ws r4) (prop_set key v acc)
      | Close rest => Some (VObj (prop_set key v acc), rest)
      | Neither => None
      end
  end
with parse_elements (fuel : nat) (s : text) (acc : list value)
  : option (value * text) :=
  match fuel with
  | O => None
  | S fuel' =>
      '(v, r1) ← parse_value fuel' s;
      match separator_after 93 r1 with
      | Comma r2 => parse_elements fuel' r2 (acc ++ [v])
      | Close rest => Some (VArr (acc ++ [v]), rest)
      | Neither => None
      end
  end.

(** [JSON.parse text]: [None] stands for the [SyntaxError] it throws.  Two
    units of fuel per code unit cover every nesting the text can hold. *)
Definition JSON_parse (s : text) : option value :=
  match parse_value (2 * length s + 2) s with
  | Some (v, rest) =>
      match skip_ws rest with
      | [] => Some v
      | _ => None
      end
  | None => None
  end.

(** ** Reading properties *)

(** A thrown JavaScript error: [code] is the property the OpenAI client sets
    on its errors, absent on a [TypeError] or a plain [Error]. *)
Record error := { code : option text; message : text }.

Definition Error (msg : text) : error := {| code := None; message := msg |}.

Definition TypeError (msg : text) : error := {| code := None; message := msg |}.

Inductive result (A : Type) : Type :=
  | Ok (a : A)
  | Throw (e : error).
Arguments Ok {A} a.
Arguments Throw {A} e.

Definition js_or (a b : jsval) : jsval := if jtruthy a then a else b.

Definition js_and (a b : jsval) : jsval := if jtruthy a then b else a.

Definition opt_jsval (o : option value) : jsval :=
  match o with
  | Some v => JVal v
  | None => JUndefined
  end.

(** [v.name] for a name written in the source, none of which a built-in
    prototype supplies: reading a property of [null] throws. *)
Definition member (v : value) (name : text) : result jsval :=
  match v with
  | VNull =>
      Throw (TypeError (txt "Cannot read properties of null (reading '" ++ name ++ txt "')"))
  | _ => Ok (opt_jsval (prop_lookup name (own_props v)))
  end.

(** [j?.name] *)
Definition opt_member (j : jsval) (name : text) : jsval :=
  match j with
  | JVal VNull | JUndefined | JBuiltin _ => JUndefined
  | JVal v => opt_jsval (prop_lookup name (own_props v))
  end.

(** [JSON.stringify] of an in-memory object, read back: what a property
    looks like once the object went through the [content] column. *)
Fixpoint persist_props (ps : list (text * jsval)) : list (text * value) :=
  match ps with
  | [] => []
  | (k, JVal v) :: ps' => (k, v) :: persist_props ps'
  | (k, JBuiltin (Some v)) :: ps' => (k, v) :: persist_props ps'
  | (_, JBuiltin None) :: ps' | (_, JUndefined) :: ps' => persist_props ps'
  end.

(** [{...v}] as an in-memory object. *)
Definition spread (v : value) : list (text * jsval) :=
  assign [] (map (fun kv => (kv.1, JVal kv.2)) (own_props v)).

Definition spread_onto (target : list (text * jsval)) (v : value)
  : list (text * jsval) :=
  assign target (map (fun kv => (kv.1, JVal kv.2)) (own_props v)).

(** ** Rows, the outside world and the state of a run *)

Inductive iteration_status := pending | completed | failed.

#[global] Instance iteration_status_eq_dec : EqDecision iteration_status.
Proof. solve_decision. Defined.

Inductive iteration_type := type_generate | type_enhance | type_fix | type_custom.

Inductive portfolio_status := draft | published | archived.

(** A row of [portfolios].  Rows are numbered where the code draws a UUID.
    The [content] column holds JSON text and its accessors parse and print
    it; the row keeps the value that text denotes.  The columns
    [created_at] and [updated_at], which Sequelize keeps for a table with
    [timestamps: true] and rewrites at every save, are not part of the row
    here: no code embedded below reads them. *)
Record Portfolio := {
  user_id : text;
  title : text;
  slug : text;
  status : portfolio_status;
  template_id : text;
  content : value;
  generated_html : option text;
  generated_css : option text;
  generated_js : option text;
  view_count : nat;
  is_public : bool;
  published_at : option Z
}.

(** A row of [portfolio_iterations]. *)
Record PortfolioIteration := {
  portfolio_id : option nat;
  prompt : text;
  changes_made : value;
  previous_content : option value;
  iteration_kind : iteration_type;
  iteration_state : iteration_status;
  ai_model_used : text;
  tokens_used : nat;
  processing_time_ms : Z;
  error_message : option text
}.

(** A source descriptor [{type, data}]. *)
Record source := { source_type : text; source_data : value }.

(** What a prompt is built from; the prompt text itself only travels to the
    model. *)
Inductive request :=
  | PortfolioGeneration (sources : list source) (preferences : list (text * value))
  | SectionEnhancement (current : jsval) (section userPrompt : text)
      (context : list (text * value))
  | ResumeParsing (resumeText : value).

(** Calls that leave the process, in the order they are made. *)
Inductive external_call :=
  | ChatCompletion (model : text) (req : request) (max_tokens : N)
  | GitHubUserData (username access_token : jsval).

(** The part of a chat completion the service reads. *)
Record response := { message_content : text; total_tokens : nat }.

Record github_data := {
  gh_profile : value;
  gh_repositories : list value;
  gh_pinned_repositories : value;
  gh_languages : list value;
  gh_stats : value;
  gh_profile_readme : value
}.

Inductive github_outcome :=
  | GitHubSuccess (data : github_data)
  | GitHubFailure (error : text).

Record instant := { epoch_ms : Z; full_year : nat }.

Inductive console_level := LevelLog | LevelWarn | LevelError.

(** A console line: its level and first argument (further arguments, which
    Node prints after it, are not kept). *)
Record console_event := { level : console_level; line : text }.

(** What [Math.random] returns, call after call, while one template runs:
    each value as [String] prints it. *)
Abbreviation draws := (nat -> text).

(** A compiled Handlebars template.  Handlebars finds the helpers when the
    template runs, and a helper may read more than its arguments: [random]
    of utils/handlebarsHelpers.js returns
    [Math.floor(Math.random() * (max - min + 1)) + min].  So what a call
    returns depends on the template data and on the values [Math.random]
    yields during the call.  The helpers themselves are registered by the
    constructor of the engine, when its module loads, and
    [registerHelpers] of utils/handlebarsHelpers.js adds [range] and
    [random] in the same way; no handler registers a helper, and the
    registry is therefore taken as given with the compiled template. *)
Abbreviation template := (draws -> list (text * jsval) -> result text).

Record world := {
  portfolios : gmap nat Portfolio;
  iterations : gmap nat PortfolioIteration;
  (** every write of an iteration row: the row and the status written *)
  iteration_log : list (nat * iteration_status);
  calls : list external_call;
  console : list console_event;
  clock_reads : nat;
  (** the template engine's two maps and the template directory *)
  compiledTemplates : gmap text template;
  templateConfigs : gmap text value;
  files : gmap (text * text) text
}.

(** The collaborators: the OpenAI client, the GitHub service and the clock
    answer as a function of how many calls were made before;
    [Math_random n] are the values [Math.random] yields to the render that
    reads the clock as its reading number [n] (every render reads the clock
    once, before it calls the template, so that each has draws of its
    own); the last three fields are the engine's built-ins that the
    embedding does not spell out. *)
Record Env := {
  openai : nat -> text -> request -> result response;
  github : nat -> jsval -> jsval -> github_outcome;
  clock : nat -> instant;
  Math_random : nat -> draws;
  (** a property found on a built-in prototype rather than on the value *)
  builtin_prop : value -> text -> jsval;
  (** [String(x)] of the number a token denotes *)
  number_to_string : text -> text;
  (** [x > 0] *)
  gt_zero : value -> bool
}.

Definition with_portfolios (f : gmap nat Portfolio -> gmap nat Portfolio) (w : world) : world :=
  {| portfolios := f (portfolios w); iterations := iterations w;
     iteration_log := iteration_log w; calls := calls w; console := console w;
     clock_reads := clock_reads w; compiledTemplates := compiledTemplates w;
     templateConfigs := templateConfigs w; files := files w |}.

Definition with_iteration (id : nat) (it : PortfolioIteration) (w : world) : world :=
  {| portfolios := portfolios w; iterations := <[id := it]> (iterations w);
     iteration_log := iteration_log w ++ [(id, iteration_state it)];
     calls := calls w; console := console w;
     clock_reads := clock_reads w; compiledTemplates := compiledTemplates w;
     templateConfigs := templateConfigs w; files := files w |}.

Definition with_call (c : external_call) (w : world) : world :=
  {| portfolios := portfolios w; iterations := iterations w;
     iteration_log := iteration_log w; calls := calls w ++ [c];
     console := console w;
     clock_reads := clock_reads w; compiledTemplates := compiledTemplates w;
     templateConfigs := templateConfigs w; files := files w |}.

Definition with_console (e : console_event) (w : world) : world :=
  {| portfolios := portfolios w; iterations := iterations w;
     iteration_log := iteration_log w; calls := calls w;
     console := console w ++ [e];
     clock_reads := clock_reads w; compiledTemplates := compiledTemplates w;
     templateConfigs := templateConfigs w; files := files w |}.

Definition with_clock_read (w : world) : world :=
  {| portfolios := portfolios w; iterations := iterations w;
     iteration_log := iteration_log w; calls := calls w; console := console w;
     clock_reads := S (clock_reads w); compiledTemplates := compiledTemplates w;
     templateConfigs := templateConfigs w; files := files w |}.

(** ** The monad of a request: state, and exceptions that keep the state *)

Definition M (A : Type) : Type := world -> result A * world.

#[global] Instance M_ret : MRet M := fun A a w => (Ok a, w).

#[global] Instance M_bind : MBind M := fun A B f m w =>
  match m w with
  | (Ok a, w') => f a w'
  | (Throw e, w') => (Throw e, w')
  end.

Definition throw {A : Type} (e : error) : M A := fun w => (Throw e, w).

Definition lift {A : Type} (r : result A) : M A := fun w => (r, w).

(** [try { m } catch (e) { h e }] *)
Definition try_catch {A : Type} (m : M A) (h : error -> M A) : M A := fun w =>
  match m w with
  | (Ok a, w') => (Ok a, w')
  | (Throw e, w') => h e w'
  end.

Definition get_world : M world := fun w => (Ok w, w).

Definition modify (f : world -> world) : M unit := fun w => (Ok tt, f w).

Definition console_log (msg : text) : M unit :=
  modify (with_console {| level := LevelLog; line := msg |}).

Definition console_warn (msg : text) : M unit :=
  modify (with_console {| level := LevelWarn; line := msg |}).

Definition console_error (msg : text) : M unit :=
  modify (with_console {| level := LevelError; line := msg |}).

#[global] Instance result_ret : MRet result := fun A a => Ok a.

#[global] Instance result_bind : MBind result := fun A B f r =>
  match r with
  | Ok a => f a
  | Throw e => Throw e
  end.

(** [JSON.parse] as the code calls it: a [SyntaxError] when the text is not
    JSON. *)
Definition JSON_parse_or_throw (s : text) : result value :=
  match JSON_parse s with
  | Some v => Ok v
  | None => Throw (Error (txt "Unexpected token in JSON"))
  end.

(** [v[k]] for a key that arrives in a request. *)
Definition member_dyn (E : Env) (v : value) (k : text) : result jsval :=
  match v with
  | VNull =>
      Throw (TypeError (txt "Cannot read properties of null (reading '" ++ k ++ txt "')"))
  | _ =>
      match prop_lookup k (own_props v) with
      | Some x => Ok (JVal x)
      | None =>
          match v with
          | VArr items =>
              if bool_decide (k = txt "length")
              then Ok (JVal (VNum (decimal (length items))))
              else Ok (builtin_prop E v k)
          | VStr s =>
              if bool_decide (k = txt "length")
              then Ok (JVal (VNum (decimal (length s))))
              else Ok (builtin_prop E v k)
          | _ => Ok (builtin_prop E v k)
          end
      end
  end.

(** ** services/aiService.js *)

Module aiService.

Record ai_result := {
  success : bool;
  ai_content : value;
  tokensUsed : nat;
  model : text
}.

Definition primary : text := txt "gpt-4".
Definition fallback : text := txt "gpt-3.5-turbo".
Definition cheap : text := txt "gpt-3.5-turbo".

(** The basic structure returned when no JSON can be recovered. *)
Definition basic_structure : value :=
  VObj [ (txt "hero",
           VObj [(txt "name", VStr []); (txt "title", VStr []); (txt "bio", VStr [])]);
         (txt "about",
           VObj [(txt "description", VStr []); (txt "skills", VArr []);
                 (txt "interests", VArr [])]);
         (txt "projects", VArr []);
         (txt "contact", VObj [(txt "email", VStr [])]) ].

Definition basic_resume : value :=
  VObj [ (txt "personal", VObj []); (txt "experience", VArr []);
         (txt "education", VArr []); (txt "skills", VArr []);
         (txt "projects", VArr []) ].

(** The capture group of the fenced-block pattern: three backquotes,
    [json] and a line feed, then as little text as possible up to a line
    feed and three backquotes. *)
Definition json_block (content : text) : option text :=
  match find_sub ([96; 96; 96] ++ txt "json" ++ [10]) content with
  | Some (_, after) =>
      match find_sub ([10; 96; 96; 96]) after with
      | Some (body, _) => Some body
      | None => None
      end
  | None => None
  end.

Definition _parsePortfolioContent (content : text) : M value :=
  try_catch (lift (JSON_parse_or_throw content)) (fun error =>
    let jsonMatch := json_block content in
    recovered ←
      match jsonMatch with
      | Some body =>
          try_catch (v ← lift (JSON_parse_or_throw body); mret (Some v))
            (fun e =>
               console_error (txt "Failed to parse JSON from code block:");;
               mret None)
      | None => mret None
      end;
    match recovered with
    | Some v => mret v
    | None => mret basic_structure
    end).

Definition _parseSectionContent (content section : text) : value :=
  match JSON_parse_or_throw content with
  | Ok parsed => parsed
  | Throw _ => VObj [(section, VStr content)]
  end.

Definition _parseResumeData (content : text) : value :=
  match JSON_parse_or_throw content with
  | Ok parsed => parsed
  | Throw _ => basic_resume
  end.

(** Building the generation prompt reads [data.text] of a resume source
    and [data.description] of a prompt source. *)
Definition prompt_reads (s : source) : result unit :=
  if bool_decide (source_type s = txt "github") then Ok tt
  else if bool_decide (source_type s = txt "resume") then
    _ ← member (source_data s) (txt "text"); Ok tt
  else if bool_decide (source_type s = txt "prompt") then
    _ ← member (source_data s) (txt "description"); Ok tt
  else Ok tt.

Fixpoint for_each {A : Type} (f : A -> result unit) (l : list A) : result unit :=
  match l with
  | [] => Ok tt
  | x :: l' => _ ← f x; for_each f l'
  end.

Definition _buildPortfolioGenerationPrompt (sources : list source)
    (preferences : list (text * value)) : result request :=
  _ ← for_each prompt_reads sources;
  Ok (PortfolioGeneration sources preferences).

Section WithEnv.
Context (E : Env).

(** [this.openai.chat.completions.create({model, messages, ...})] *)
Definition create (model : text) (req : request) (max_tokens : N) : M response :=
  fun w =>
    (openai E (length (calls w)) model req,
     with_call (ChatCompletion model req max_tokens) w).

Definition _buildSectionEnhancementPrompt (currentContent : value)
    (section userPrompt : text) (context : list (text * value)) : result request :=
  current ← member_dyn E currentContent section;
  Ok (SectionEnhancement current section userPrompt context).

Definition _generateWithFallback (sources : list source)
    (preferences : list (text * value)) : M ai_result :=
  try_catch
    (prompt ← lift (_buildPortfolioGenerationPrompt sources preferences);
     response ← create fallback prompt 3000;
     parsedContent ← _parsePortfolioContent (message_content response);
     mret {| success := true; ai_content := parsedContent;
             tokensUsed := total_tokens response; model := fallback |})
    (fun error =>
       console_error (txt "Fallback generation error:");;
       throw error).

Definition generatePortfolio (sources : list source)
    (preferences : list (text * value)) : M ai_result :=
  try_catch
    (prompt ← lift (_buildPortfolioGenerationPrompt sources preferences);
     response ← create primary prompt 4000;
     parsedContent ← _parsePortfolioContent (message_content response);
     mret {| success := true; ai_content := parsedContent;
             tokensUsed := total_tokens response; model := primary |})
    (fun error =>
       console_error (txt "Portfolio generation error:");;
       if bool_decide (code error = Some (txt "model_overloaded"))
       then _generateWithFallback sources preferences
       else throw error).

Definition enhanceSection (currentContent : value) (section userPrompt : text)
    (context : list (text * value)) : M ai_result :=
  try_catch
    (enhancementPrompt ←
       lift (_buildSectionEnhancementPrompt currentContent section userPrompt context);
     response ← create cheap enhancementPrompt 2000;
     let parsedContent := _parseSectionContent (message_content response) section in
     mret {| success := true; ai_content := parsedContent;
             tokensUsed := total_tokens response; model := cheap |})
    (fun error =>
       console_error (txt "Section enhancement error:");;
       throw error).

Record resume_result := { resume_success : bool; resume_data : value }.

Definition parseResumeContent (resumeText : value) : M resume_result :=
  try_catch
    (response ← create cheap (ResumeParsing resumeText) 3000;
     let parsedData := _parseResumeData (message_content response) in
     mret {| resume_success := true; resume_data := parsedData |})
    (fun error =>
       console_error (txt "Resume parsing error:");;
       throw error).
End WithEnv.

End aiService.

(** ** Validators of the column definitions *)

Definition is_high_surrogate (c : N) : bool := (55296 <=? c) && (c <=? 56319).
Definition is_low_surrogate (c : N) : bool := (56320 <=? c) && (c <=? 57343).

(** The length the [len] validator measures: code units, less one for each
    surrogate pair and each presentation selector. *)
Fixpoint validator_length (s : text) : nat :=
  match s with
  | [] => O
  | c :: s' =>
      if (c =? 65039) || (c =? 65038) then validator_length s'
      else
        match s' with
        | d :: s'' =>
            if is_high_surrogate c && is_low_surrogate d
            then S (validator_length s'')
            else S (validator_length s')
        | [] => 1%nat
        end
  end.

Definition len_between (lo hi : nat) (s : text) : bool :=
  (lo <=? validator_length s)%nat && (validator_length s <=? hi)%nat.

Definition is_alnum (c : N) : bool :=
  is_digit c || ((65 <=? c) && (c <=? 90)) || ((97 <=? c) && (c <=? 122)).

(** [/^[a-zA-Z0-9_-]+$/] *)
Definition slug_pattern (s : text) : bool :=
  negb (bool_decide (s = []))
  && forallb (fun c => is_alnum c || (c =? 95) || (c =? 45)) s.

(** ** models/Portfolio.js *)

Module Portfolio_model.

Definition findByPk (id : nat) : M (option Portfolio) :=
  fun w => (Ok (portfolios w !! id), w).

Definition findByUserAndSlug (userId slug_ : text) : M (option (nat * Portfolio)) :=
  fun w =>
    (Ok (snd <$> list_find
                   (fun row : nat * Portfolio =>
                      user_id row.2 = userId /\ slug row.2 = slug_)
                   (map_to_list (portfolios w))),
     w).

(** [String.prototype.toLowerCase].  Only the results that survive the
    next replacement matter: the ASCII capitals, the Kelvin sign and the
    dotted capital I are the code units whose lower case contains an
    ASCII letter; every other code unit above 127 lower-cases to code
    units above 127 and is kept as it is here. *)
Definition lower_unit (c : N) : text :=
  if (65 <=? c) && (c <=? 90) then [c + 32]
  else if c =? 8490 then [107]
  else if c =? 304 then [105; 775]
  else [c].

Definition toLowerCase (s : text) : text := flat_map lower_unit s.

(** The class [\s] of a regular expression. *)
Definition is_space (c : N) : bool :=
  ((9 <=? c) && (c <=? 13)) || (c =? 32) || (c =? 160) || (c =? 5760)
  || ((8192 <=? c) && (c <=? 8202)) || (c =? 8232) || (c =? 8233)
  || (c =? 8239) || (c =? 8287) || (c =? 12288) || (c =? 65279).

(** [.replace(/[^a-zA-Z0-9\s]/g, '')] *)
Definition strip_other (s : text) : text :=
  filter (fun c => is_alnum c || is_space c) s.

(** [.replace(/\s+/g, '-')] *)
Fixpoint hyphenate (s : text) : text :=
  match s with
  | [] => []
  | c :: s' =>
      if is_space c then
        match s' with
        | d :: _ => if is_space d then hyphenate s' else 45 :: hyphenate s'
        | [] => [45]
        end
      else c :: hyphenate s'
  end.

Definition baseSlug (title_ : text) : text :=
  take 50 (hyphenate (strip_other (toLowerCase title_))).

Definition numbered (base : text) (counter : nat) : text :=
  base ++ [45] ++ decimal counter.

(** The [while] loop of [generateSlug].  [fuel] bounds its rounds; the
    candidate at hand is returned should the fuel run out. *)
Fixpoint slug_loop (fuel : nat) (userId base slug_ : text) (counter : nat)
  : M text :=
  match fuel with
  | O => mret slug_
  | S fuel' =>
      taken ← findByUserAndSlug userId slug_;
      match taken with
      | Some _ => slug_loop fuel' userId base (numbered base counter) (S counter)
      | None => mret slug_
      end
  end.

(** [Portfolio.generateSlug].  One more round than there are rows always
    reaches a free slug, so the fuel never runs out ([generateSlug_spec]
    below). *)
Definition generateSlug (userId title_ : text) : M text :=
  w ← get_world;
  slug_loop (S (size (portfolios w))) userId (baseSlug title_) (baseSlug title_) 1.

Definition getDefaultContent : value :=
  VObj [ (txt "hero",
           VObj [(txt "name", VStr []); (txt "title", VStr []); (txt "bio", VStr []);
                 (txt "image", VStr []);
                 (txt "social_links",
                   VObj [(txt "github", VStr []); (txt "linkedin", VStr []);
                         (txt "email", VStr [])])]);
         (txt "about",
           VObj [(txt "description", VStr []); (txt "skills", VArr []);
                 (txt "interests", VArr [])]);
         (txt "projects", VArr []);
         (txt "experience", VArr []);
         (txt "education", VArr []);
         (txt "contact",
           VObj [(txt "email", VStr []); (txt "phone", VStr []);
                 (txt "location", VStr []); (txt "social_links", VObj [])]) ].

(** The attributes [Portfolio.create] is given in this code base. *)
Record attributes := {
  new_user_id : text;
  new_title : text;
  new_slug : text;
  new_template_id : text;
  new_content : value;
  new_status : portfolio_status
}.

(** The setter of [content]: [JSON.stringify(value || {})]. *)
Definition set_content (v : value) : value :=
  if truthy v then v else VObj [].

Definition build (a : attributes) : Portfolio :=
  {| user_id := new_user_id a; title := new_title a; slug := new_slug a;
     status := new_status a; template_id := new_template_id a;
     content := set_content (new_content a);
     generated_html := None; generated_css := None; generated_js := None;
     view_count := 0; is_public := false; published_at := None |}.

(** [Portfolio.create]: the validators of [title] and [slug], then the
    unique index on [(user_id, slug)], then the insert. *)
Definition create (a : attributes) : M (nat * Portfolio) :=
  if negb (len_between 1 255 (new_title a)) then
    throw (Error (txt "Validation error: Validation len on title failed"))
  else if negb (len_between 1 255 (new_slug a)) then
    throw (Error (txt "Validation error: Validation len on slug failed"))
  else if negb (slug_pattern (new_slug a)) then
    throw (Error (txt "Validation error: Validation is on slug failed"))
  else
    clash ← findByUserAndSlug (new_user_id a) (new_slug a);
    match clash with
    | Some _ => throw (Error (txt "Validation error"))
    | None =>
        w ← get_world;
        let id := fresh (dom (portfolios w)) in
        modify (with_portfolios (insert id (build a)));;
        mret (id, build a)
    end.

Definition with_content (c : value) (p : Portfolio) : Portfolio :=
  {| user_id := user_id p; title := title p; slug := slug p; status := status p;
     template_id := template_id p; content := c;
     generated_html := generated_html p; generated_css := generated_css p;
     generated_js := generated_js p; view_count := view_count p;
     is_public := is_public p; published_at := published_at p |}.

Definition with_generated (html css js : option text) (p : Portfolio) : Portfolio :=
  {| user_id := user_id p; title := title p; slug := slug p; status := status p;
     template_id := template_id p; content := content p;
     generated_html := html; generated_css := css;
     generated_js := js; view_count := view_count p;
     is_public := is_public p; published_at := published_at p |}.

(** [instance.save()] *)
Definition save (id : nat) (p : Portfolio) : M unit :=
  modify (with_portfolios (insert id p)).

(** [updateContent]: [this.content = { ...this.content, ...newContent }]
    and a save.  The instance is returned as it stands afterwards. *)
Definition updateContent (id : nat) (this : Portfolio)
    (newContent : list (text * jsval)) : M Portfolio :=
  let this' :=
    with_content (VObj (persist_props (assign (spread (content this)) newContent)))
      this in
  save id this';;
  mret this'.

Definition nonempty (s : text) : bool := negb (bool_decide (s = [])).

(** [setGeneratedFiles(html, css, js)] *)
Definition setGeneratedFiles (id : nat) (this : Portfolio) (html css js : text)
  : M Portfolio :=
  let this' :=
    with_generated (Some html)
      (if nonempty css then Some css else generated_css this)
      (if nonempty js then Some js else generated_js this) this in
  save id this';;
  mret this'.

End Portfolio_model.

(** ** models/PortfolioIteration.js *)

Module PortfolioIteration_model.

(** The attributes passed to [PortfolioIteration.create]. *)
Record attributes := {
  new_portfolio_id : option nat;
  new_prompt : text;
  new_iteration_type : iteration_type;
  new_status : iteration_status;
  new_previous_content : option value
}.

Definition build (a : attributes) : PortfolioIteration :=
  {| portfolio_id := new_portfolio_id a; prompt := new_prompt a;
     changes_made := VObj [];
     previous_content :=
       option_map Portfolio_model.set_content (new_previous_content a);
     iteration_kind := new_iteration_type a;
     iteration_state := new_status a;
     ai_model_used := txt "gpt-4"; tokens_used := 0;
     processing_time_ms := 0%Z; error_message := None |}.

(** [PortfolioIteration.create]: [portfolio_id] is declared
    [allowNull: false], so a row without it fails validation before any
    insert. *)
Definition create (a : attributes) : M (nat * PortfolioIteration) :=
  match new_portfolio_id a with
  | None =>
      throw (Error (txt "notNull Violation: PortfolioIteration.portfolio_id cannot be null"))
  | Some _ =>
      w ← get_world;
      let id := fresh (dom (iterations w)) in
      modify (with_iteration id (build a));;
      mret (id, build a)
  end.

Definition markCompleted (id : nat) (this : PortfolioIteration)
    (changesMade : value) (tokensUsed : nat) (processingTime : Z) : M unit :=
  modify (with_iteration id
    {| portfolio_id := portfolio_id this; prompt := prompt this;
       changes_made := Portfolio_model.set_content changesMade;
       previous_content := previous_content this;
       iteration_kind := iteration_kind this;
       iteration_state := completed;
       ai_model_used := ai_model_used this; tokens_used := tokensUsed;
       processing_time_ms := processingTime;
       error_message := error_message this |}).

Definition markFailed (id : nat) (this : PortfolioIteration) (errorMessage : text)
  : M unit :=
  modify (with_iteration id
    {| portfolio_id := portfolio_id this; prompt := prompt this;
       changes_made := changes_made this;
       previous_content := previous_content this;
       iteration_kind := iteration_kind this;
       iteration_state := failed;
       ai_model_used := ai_model_used this; tokens_used := tokens_used this;
       processing_time_ms := processing_time_ms this;
       error_message := Some errorMessage |}).

End PortfolioIteration_model.

(** ** Coercions and the clock *)

(** [String(v)], as a template literal applies it. *)
Fixpoint to_string (E : Env) (v : value) : text :=
  match v with
  | VNull => txt "null"
  | VBool true => txt "true"
  | VBool false => txt "false"
  | VNum n => number_to_string E n
  | VStr s => s
  | VArr items =>
      (fix join (l : list value) : text :=
         match l with
         | [] => []
         | x :: l' =>
             (match x with VNull => [] | _ => to_string E x end)
             ++ match l' with [] => [] | _ :: _ => 44 :: join l' end
         end) items
  | VObj _ => txt "[object Object]"
  end.

Definition jto_string (E : Env) (j : jsval) : text :=
  match j with
  | JUndefined => txt "undefined"
  | JBuiltin _ => txt "[object Object]"
  | JVal v => to_string E v
  end.

Definition read_clock (E : Env) : M instant :=
  fun w => (Ok (clock E (clock_reads w)), with_clock_read w).

(** [Date.now()] *)
Definition Date_now (E : Env) : M Z := t ← read_clock E; mret (epoch_ms t).

(** [e.message || fallback] *)
Definition message_or (e : error) (fallback : text) : text :=
  if bool_decide (message e = []) then fallback else message e.

Definition join_types (sources : list source) : text :=
  (fix join (l : list source) : text :=
     match l with
     | [] => []
     | s :: l' =>
         source_type s ++ match l' with [] => [] | _ :: _ => txt ", " ++ join l' end
     end) sources.

(** ** services/portfolioGenerator.js *)

Module portfolioGenerator.

Definition defaultTemplate : text := txt "modern-dev".

Inductive generation_result :=
  | GenerationSuccess (id : nat) (portfolio : Portfolio) (sources_processed : nat)
      (tokens : nat) (processing_time : Z) (ai_model : text)
  | GenerationFailure (error : text).

Inductive enhancement_result :=
  | EnhancementSuccess (portfolio : Portfolio) (changed_section prompt_ : text)
      (tokens : nat) (processing_time : Z)
  | EnhancementFailure (error : text).

Definition _processPromptSource (s : source) : M source :=
  console_log (txt "Processing prompt source");;
  description ← lift (member (source_data s) (txt "description"));
  prompt_ ← lift (member (source_data s) (txt "prompt"));
  preferences ← lift (member (source_data s) (txt "preferences"));
  mret {| source_type := txt "prompt";
          source_data :=
            VObj (persist_props
                    [ (txt "description", js_or description prompt_);
                      (txt "preferences", js_or preferences (JVal (VObj []))) ]) |}.

Definition _processLinkedInSource (s : source) : M source :=
  console_log (txt "Processing LinkedIn source");;
  mret {| source_type := txt "linkedin"; source_data := source_data s |}.

(** [content.hero?.name || 'Portfolio'] and its companions. *)
Definition _generatePortfolioTitle (E : Env) (content_ : value) : result text :=
  hero ← member content_ (txt "hero");
  let name := jto_string E (js_or (opt_member hero (txt "name")) (JVal (VStr (txt "Portfolio")))) in
  let title_ := js_or (opt_member hero (txt "title")) (JVal (VStr [])) in
  if jtruthy title_
  then Ok (name ++ txt " - " ++ jto_string E title_)
  else Ok (name ++ txt "'s Portfolio").

Section WithEnv.
Context (E : Env).

Definition getComprehensiveUserData (username access_token : jsval) : M github_outcome :=
  fun w =>
    (Ok (github E (length (calls w)) username access_token),
     with_call (GitHubUserData username access_token) w).

Definition _processGitHubSource (s : source) : M source :=
  username ← lift (member (source_data s) (txt "username"));
  console_log (txt "Processing GitHub source:");;
  access_token ← lift (member (source_data s) (txt "access_token"));
  githubData ← getComprehensiveUserData username access_token;
  match githubData with
  | GitHubFailure err => throw (Error (txt "Failed to fetch GitHub data: " ++ err))
  | GitHubSuccess d =>
      mret {| source_type := txt "github";
              source_data :=
                VObj [ (txt "profile", gh_profile d);
                       (txt "top_repositories", VArr (take 6 (gh_repositories d)));
                       (txt "pinned_repositories", gh_pinned_repositories d);
                       (txt "languages", VArr (take 8 (gh_languages d)));
                       (txt "stats", gh_stats d);
                       (txt "profile_readme", gh_profile_readme d) ] |}
  end.

Definition _processResumeSource (s : source) : M source :=
  console_log (txt "Processing resume source");;
  text_ ← lift (member (source_data s) (txt "text"));
  resumeText ←
    (if jtruthy text_ then mret text_
     else lift (member (source_data s) (txt "content")));
  match resumeText with
  | JVal v =>
      if truthy v then
        parseResult ← aiService.parseResumeContent E v;
        if negb (aiService.resume_success parseResult)
        then throw (Error (txt "Failed to parse resume content"))
        else mret {| source_type := txt "resume";
                     source_data := aiService.resume_data parseResult |}
      else throw (Error (txt "No resume text provided"))
  | _ => throw (Error (txt "No resume text provided"))
  end.

(** The body of the loop of [_processSources], inside its [try]. *)
Definition process_one (s : source) : M source :=
  if bool_decide (source_type s = txt "github") then _processGitHubSource s
  else if bool_decide (source_type s = txt "resume") then _processResumeSource s
  else if bool_decide (source_type s = txt "prompt") then _processPromptSource s
  else if bool_decide (source_type s = txt "linkedin") then _processLinkedInSource s
  else
    console_warn (txt "Unknown source type: " ++ source_type s);;
    mret {| source_type := source_type s; source_data := source_data s |}.

Fixpoint _processSources (sources : list source) : M (list source) :=
  match sources with
  | [] => mret []
  | s :: rest =>
      processed ←
        try_catch (p ← process_one s; mret (Some p))
          (fun error =>
             console_error (txt "Error processing " ++ source_type s ++ txt " source:");;
             mret None);
      others ← _processSources rest;
      mret (match processed with
            | Some p => p :: others
            | None => others
            end)
  end.

(** [preferences.template_id || this.defaultTemplate], as the [STRING]
    column takes it: a string, or a number printed as one. *)
Definition chosen_template (preferences : list (text * value)) : result text :=
  match prop_lookup (txt "template_id") preferences with
  | Some v =>
      if truthy v then
        match v with
        | VStr s => Ok s
        | VNum n => Ok (number_to_string E n)
        | VBool _ => Throw (Error (txt "true is not a valid string"))
        | _ =>
            Throw (Error (txt "string violation: template_id cannot be an array or an object"))
        end
      else Ok defaultTemplate
  | None => Ok defaultTemplate
  end.

Definition generatePortfolio (userId : text) (sources : list source)
    (preferences : list (text * value)) : M generation_result :=
  startTime ← Date_now E;
  try_catch
    ('(iid, iteration) ← PortfolioIteration_model.create
       {| PortfolioIteration_model.new_portfolio_id := None;
          PortfolioIteration_model.new_prompt :=
            txt "Generate portfolio from sources: " ++ join_types sources;
          PortfolioIteration_model.new_iteration_type := type_generate;
          PortfolioIteration_model.new_status := pending;
          PortfolioIteration_model.new_previous_content := None |};
     try_catch
       (console_log (txt "Starting portfolio generation with sources:");;
        processedSources ← _processSources sources;
        aiResult ← aiService.generatePortfolio E processedSources preferences;
        if negb (aiService.success aiResult)
        then throw (Error (txt "AI generation failed"))
        else
          title_ ← lift (_generatePortfolioTitle E (aiService.ai_content aiResult));
          slug_ ← Portfolio_model.generateSlug userId title_;
          template_ ← lift (chosen_template preferences);
          '(pid, portfolio) ← Portfolio_model.create
            {| Portfolio_model.new_user_id := userId;
               Portfolio_model.new_title := title_;
               Portfolio_model.new_slug := slug_;
               Portfolio_model.new_template_id := template_;
               Portfolio_model.new_content := aiService.ai_content aiResult;
               Portfolio_model.new_status := draft |};
          endTime ← Date_now E;
          let processingTime := (endTime - startTime)%Z in
          PortfolioIteration_model.markCompleted iid
            {| portfolio_id := Some pid; prompt := prompt iteration;
               changes_made := changes_made iteration;
               previous_content := previous_content iteration;
               iteration_kind := iteration_kind iteration;
               iteration_state := iteration_state iteration;
               ai_model_used := ai_model_used iteration;
               tokens_used := tokens_used iteration;
               processing_time_ms := processing_time_ms iteration;
               error_message := error_message iteration |}
            (VObj [ (txt "generated", VBool true);
                    (txt "sources", VArr (map (fun s => VStr (source_type s)) sources)) ])
            (aiService.tokensUsed aiResult) processingTime;;
          mret (GenerationSuccess pid portfolio (length processedSources)
                  (aiService.tokensUsed aiResult) processingTime
                  (aiService.model aiResult)))
       (fun error =>
          console_error (txt "Portfolio generation error:");;
          PortfolioIteration_model.markFailed iid iteration (message error);;
          mret (GenerationFailure (message_or error (txt "Portfolio generation failed")))))
    (fun error =>
       (* [iteration] is still [null] here *)
       console_error (txt "Portfolio generation error:");;
       mret (GenerationFailure (message_or error (txt "Portfolio generation failed")))).

(** [if (section)]: a section that is given and not the empty string. *)
Definition given_section (section : option text) : option text :=
  match section with
  | Some s => if bool_decide (s = []) then None else Some s
  | None => None
  end.

Definition section_label (section : option text) : text :=
  match given_section section with
  | Some s => s
  | None => txt "entire_portfolio"
  end.

Definition enhancePortfolio (portfolioId : nat) (prompt_ : text)
    (section : option text) : M enhancement_result :=
  startTime ← Date_now E;
  try_catch
    (found ← Portfolio_model.findByPk portfolioId;
     match found with
     | None => throw (Error (txt "Portfolio not found"))
     | Some portfolio =>
         '(iid, iteration) ← PortfolioIteration_model.create
           {| PortfolioIteration_model.new_portfolio_id := Some portfolioId;
              PortfolioIteration_model.new_prompt := prompt_;
              PortfolioIteration_model.new_iteration_type := type_enhance;
              PortfolioIteration_model.new_status := pending;
              PortfolioIteration_model.new_previous_content :=
                Some (content portfolio) |};
         try_catch
           (console_log (txt "Enhancing portfolio " ++ decimal portfolioId
                           ++ txt " with prompt: " ++ prompt_);;
            '(enhancedContent, tokensUsed) ←
              match given_section section with
              | Some s =>
                  aiResult ← aiService.enhanceSection E (content portfolio) s prompt_
                               [(txt "portfolio_id", VStr (decimal portfolioId))];
                  if negb (aiService.success aiResult)
                  then throw (Error (txt "AI enhancement failed"))
                  else
                    picked ← lift (member_dyn E (aiService.ai_content aiResult) s);
                    mret (prop_set s
                            (js_or picked (JVal (aiService.ai_content aiResult)))
                            (spread (content portfolio)),
                          aiService.tokensUsed aiResult)
              | None =>
                  let sources :=
                    [ {| source_type := txt "prompt";
                         source_data := VObj [(txt "description", VStr prompt_)] |} ] in
                  aiResult ← aiService.generatePortfolio E sources
                               [(txt "existing_content", content portfolio)];
                  if negb (aiService.success aiResult)
                  then throw (Error (txt "AI enhancement failed"))
                  else
                    mret (spread_onto (spread (content portfolio))
                            (aiService.ai_content aiResult),
                          aiService.tokensUsed aiResult)
              end;
            portfolio' ← Portfolio_model.updateContent portfolioId portfolio enhancedContent;
            endTime ← Date_now E;
            let processingTime := (endTime - startTime)%Z in
            PortfolioIteration_model.markCompleted iid iteration
              (VObj [ (txt "enhanced", VBool true);
                      (txt "section", VStr (section_label section)) ])
              tokensUsed processingTime;;
            mret (EnhancementSuccess portfolio' (section_label section) prompt_
                    tokensUsed processingTime))
           (fun error =>
              console_error (txt "Portfolio enhancement error:");;
              PortfolioIteration_model.markFailed iid iteration (message error);;
              mret (EnhancementFailure
                      (message_or error (txt "Portfolio enhancement failed"))))
     end)
    (fun error =>
       (* [iteration] is still [null] here *)
       console_error (txt "Portfolio enhancement error:");;
       mret (EnhancementFailure (message_or error (txt "Portfolio enhancement failed")))).

End WithEnv.

End portfolioGenerator.

(** ** services/templateEngine.js *)

Module templateEngine.

Inductive html_result :=
  | HtmlSuccess (html css js template_ : text)
  | HtmlFailure (error : text).

Definition defaultContent : value :=
  VObj [ (txt "hero",
           VObj [(txt "name", VStr []); (txt "title", VStr []); (txt "bio", VStr []);
                 (txt "image", VStr []); (txt "social_links", VObj [])]);
         (txt "about",
           VObj [(txt "description", VStr []); (txt "skills", VArr []);
                 (txt "interests", VArr [])]);
         (txt "projects", VArr []);
         (txt "experience", VArr []);
         (txt "education", VArr []);
         (txt "contact",
           VObj [(txt "email", VStr []); (txt "phone", VStr []);
                 (txt "location", VStr []); (txt "social_links", VObj [])]) ].

Definition jlookup (name : text) (data : list (text * jsval)) : jsval :=
  match prop_lookup name data with
  | Some j => j
  | None => JUndefined
  end.

Definition _createCompleteHTML (E : Env) (bodyHTML css js : text)
    (templateData : list (text * jsval)) : text :=
  let hero := jlookup (txt "hero") templateData in
  let page_title :=
    if jtruthy (opt_member hero (txt "name"))
    then jto_string E (opt_member hero (txt "name")) ++ txt " - Portfolio"
    else txt "Portfolio" in
  let description :=
    jto_string E (js_or (opt_member hero (txt "bio"))
                    (JVal (VStr (txt "Professional Portfolio")))) in
  let author :=
    jto_string E (js_or (opt_member hero (txt "name")) (JVal (VStr []))) in
  jsn "<!DOCTYPE html>
<html lang='en'>
<head>
    <meta charset='UTF-8'>
    <meta name='viewport' content='width=device-width, initial-scale=1.0'>
    <title>"
    ++ page_title
    ++ jsn "</title>
    <meta name='description' content='"
    ++ description
    ++ jsn "'>
    <meta name='author' content='"
    ++ author
    ++ jsn "'>
    
    <!-- Open Graph -->
    <meta property='og:title' content='"
    ++ page_title
    ++ jsn "'>
    <meta property='og:description' content='"
    ++ description
    ++ jsn "'>
    <meta property='og:type' content='website'>
    
    <!-- Font Awesome -->
    <link rel='stylesheet' href='https://cdnjs.cloudflare.com/ajax/libs/font-awesome/6.0.0/css/all.min.css'>
    
    <!-- Google Fonts -->
    <link rel='preconnect' href='https://fonts.googleapis.com'>
    <link rel='preconnect' href='https://fonts.gstatic.com' crossorigin>
    <link href='https://fonts.googleapis.com/css2?family=Raleway:wght@300;400;500;600;700&display=swap' rel='stylesheet'>
    
    <style>
        "
    ++ css
    ++ jsn "
    </style>
</head>
<body>
    "
    ++ bodyHTML
    ++ jsn "
    
    <script>
        "
    ++ js
    ++ jsn "
    </script>
</body>
</html>".

Section WithEnv.
Context (E : Env).

(** [p.length > 0] for a truthy [p]. *)
Definition length_positive (p : jsval) : bool :=
  match p with
  | JVal (VArr items) => negb (bool_decide (items = []))
  | JVal (VStr s) => negb (bool_decide (s = []))
  | JVal (VObj ps) =>
      match prop_lookup (txt "length") ps with
      | Some x => gt_zero E x
      | None => false
      end
  | _ => false
  end.

(** [portfolioContent.name && portfolioContent.name.length > 0] *)
Definition has_items (portfolioContent : value) (name : text) : result jsval :=
  p ← member portfolioContent name;
  Ok (js_and p (JVal (VBool (length_positive p)))).

Definition config_or_empty (config : option value) : value :=
  match config with
  | Some c => if truthy c then c else VObj []
  | None => VObj []
  end.

Definition _prepareTemplateData (portfolioContent : value) (config : option value)
  : M (list (text * jsval)) :=
  let data := spread_onto (spread defaultContent) portfolioContent in
  let data := prop_set (txt "template_config") (JVal (config_or_empty config)) data in
  now ← read_clock E;
  let data :=
    prop_set (txt "current_year") (JVal (VNum (decimal (full_year now)))) data in
  has_projects ← lift (has_items portfolioContent (txt "projects"));
  has_experience ← lift (has_items portfolioContent (txt "experience"));
  has_education ← lift (has_items portfolioContent (txt "education"));
  mret (prop_set (txt "has_education") has_education
          (prop_set (txt "has_experience") has_experience
             (prop_set (txt "has_projects") has_projects data))).

(** [_getTemplateCSS] and [_getTemplateJS]: the file of the template's
    directory as it is on disk at the time of the call, or the empty
    text. *)
Definition read_or_empty (templateId name : text) : M text :=
  w ← get_world;
  mret (default [] (files w !! (templateId, name))).

Definition _getTemplateCSS (templateId : text) : M text :=
  read_or_empty templateId (txt "style.css").

Definition _getTemplateJS (templateId : text) : M text :=
  read_or_empty templateId (txt "script.js").

Definition generateHTML (portfolioContent : value) (templateId : text)
  : M html_result :=
  try_catch
    (console_log (txt "Generating HTML with template: " ++ templateId);;
     w ← get_world;
     match compiledTemplates w !! templateId with
     | None => throw (Error (txt "Template '" ++ templateId ++ txt "' not found"))
     | Some template_ =>
         let config := templateConfigs w !! templateId in
         templateData ← _prepareTemplateData portfolioContent config;
         html ← lift (template_ (Math_random E (clock_reads w)) templateData);
         css ← _getTemplateCSS templateId;
         js ← _getTemplateJS templateId;
         let completeHTML := _createCompleteHTML E html css js templateData in
         mret (HtmlSuccess completeHTML css js templateId)
     end)
    (fun error =>
       console_error (txt "HTML generation error:");;
       mret (HtmlFailure (message_or error (txt "Failed to generate HTML")))).
End WithEnv.

End templateEngine.

(** ** The route handlers that create and show a portfolio *)

Module routes.

Inductive reply :=
  | Created (id : nat) (portfolio : Portfolio)
  | SendHtml (html : text)
  | NotFound
  | BadRequest (message_ : text)
  | InternalServerError.

(** [POST /api/portfolios] *)
Definition create_portfolio (userId title_ : text) (template_id_ : option text)
    (content_ : option value) : M reply :=
  try_catch
    (slug_ ← Portfolio_model.generateSlug userId title_;
     '(id, portfolio) ← Portfolio_model.create
       {| Portfolio_model.new_user_id := userId;
          Portfolio_model.new_title := title_;
          Portfolio_model.new_slug := slug_;
          Portfolio_model.new_template_id :=
            match template_id_ with
            | Some t => if bool_decide (t = []) then txt "modern-dev" else t
            | None => txt "modern-dev"
            end;
          Portfolio_model.new_content :=
            match content_ with
            | Some c => if truthy c then c else Portfolio_model.getDefaultContent
            | None => Portfolio_model.getDefaultContent
            end;
          Portfolio_model.new_status := draft |};
     mret (Created id portfolio))
    (fun error =>
       console_error (txt "Portfolio creation error:");;
       mret InternalServerError).

(** [GET /api/preview/:id], once the requester is known to own the
    portfolio. *)
Definition cached (portfolio : Portfolio) : option text :=
  match generated_html portfolio with
  | Some html => if Portfolio_model.nonempty html then Some html else None
  | None => None
  end.

Definition preview (E : Env) (id : nat) : M reply :=
  found ← Portfolio_model.findByPk id;
  match found with
  | None => mret NotFound
  | Some portfolio =>
      try_catch
        (console_log (txt "Generating preview for portfolio " ++ decimal id);;
         match cached portfolio with
         | Some html => mret (SendHtml html)
         | None =>
             result ← templateEngine.generateHTML E (content portfolio)
                        (template_id portfolio);
             match result with
             | templateEngine.HtmlFailure err => mret (BadRequest err)
             | templateEngine.HtmlSuccess html css js _ =>
                 _ ← Portfolio_model.setGeneratedFiles id portfolio html css js;
                 mret (SendHtml html)
             end
         end)
        (fun error =>
           console_error (txt "Preview generation error:");;
           mret InternalServerError)
  end.

End routes.

(** * Notions used in the statements *)

(** What [JSON.stringify] writes for an in-memory property value. *)
Definition serial_of (j : jsval) : option value :=
  match j with
  | JVal v => Some v
  | JBuiltin o => o
  | JUndefined => None
  end.

(** Two states with the same rows: the tables and the log of status writes
    agree. *)
Definition same_rows (w w' : world) : Prop :=
  portfolios w' = portfolios w /\ iterations w' = iterations w
  /\ iteration_log w' = iteration_log w.

(** A computation that writes no row. *)
Definition quiet {A : Type} (m : M A) : Prop :=
  forall w r w', m w = (r, w') -> same_rows w w'.

(** Two states that differ at most in what the console shows. *)
Definition console_apart (w w' : world) : Prop :=
  portfolios w' = portfolios w /\ iterations w' = iterations w
  /\ iteration_log w' = iteration_log w /\ calls w' = calls w
  /\ clock_reads w' = clock_reads w /\ compiledTemplates w' = compiledTemplates w
  /\ templateConfigs w' = templateConfigs w /\ files w' = files w.

(** A computation whose result does not depend on the console. *)
Definition insensitive {A : Type} (m : M A) : Prop :=
  forall w w' r w1, console_apart w w' -> m w = (r, w1) ->
    exists w1', m w' = (r, w1') /\ console_apart w1 w1'.

(** What a render leaves as it was: everything but the console and the
    count of clock reads. *)
Definition render_frame (w w' : world) : Prop :=
  portfolios w' = portfolios w /\ iterations w' = iterations w
  /\ iteration_log w' = iteration_log w /\ calls w' = calls w
  /\ compiledTemplates w' = compiledTemplates w
  /\ templateConfigs w' = templateConfigs w /\ files w' = files w.

(** The document [_parsePortfolioContent] settles on: the text as JSON, else
    the fenced block as JSON, else the basic structure. *)
Definition recovered (content_ : text) : value :=
  match JSON_parse content_ with
  | Some v => v
  | None =>
      match aiService.json_block content_ ≫= JSON_parse with
      | Some v => v
      | None => aiService.basic_structure
      end
  end.

(** The six top-level keys of the content schema. *)
Definition schema_keys : list text :=
  [txt "hero"; txt "about"; txt "projects"; txt "experience"; txt "education";
   txt "contact"].

Definition has_key (v : value) (k : text) : bool :=
  bool_decide (is_Some (prop_lookup k (own_props v))).

Definition has_schema_keys (v : value) : bool := forallb (has_key v) schema_keys.

(** The source types [_processSources] has a case for. *)
Definition known_type (t : text) : Prop :=
  t = txt "github" \/ t = txt "resume" \/ t = txt "prompt" \/ t = txt "linkedin".

Definition unknown_warning (s : source) : console_event :=
  {| level := LevelWarn; line := txt "Unknown source type: " ++ source_type s |}.

(** The candidates the slug loop walks through: the base slug, then the
    base with [-1], [-2], ... *)
Definition candidate (base : text) (k : nat) : text :=
  match k with
  | O => base
  | S _ => Portfolio_model.numbered base k
  end.

(** The owner [u] holds a portfolio with slug [s]. *)
Definition taken (w : world) (u s : text) : Prop :=
  exists id p, portfolios w !! id = Some p /\ user_id p = u /\ slug p = s.

(** The scenario of the slug rule: the same owner posts the same title [n]
    times to [POST /api/portfolios]. *)
Fixpoint create_many (n : nat) (userId title_ : text) : M (list routes.reply) :=
  match n with
  | O => mret []
  | S n' =>
      r ← routes.create_portfolio userId title_ None None;
      rs ← create_many n' userId title_;
      mret (r :: rs)
  end.

Definition created_slug (r : routes.reply) : option text :=
  match r with
  | routes.Created _ p => Some (slug p)
  | _ => None
  end.

(** A code unit that the pattern of the [slug] column accepts. *)
Definition slug_unit (c : N) : bool := is_alnum c || (c =? 95) || (c =? 45).

(** A code unit of a base slug: a small ASCII letter, a digit or a hyphen. *)
Definition base_unit (c : N) : bool :=
  is_digit c || ((97 <=? c) && (c <=? 122)) || (c =? 45).

(** A small ASCII letter or a digit. *)
Definition small_or_digit (c : N) : bool :=
  is_digit c || ((97 <=? c) && (c <=? 122)).

(** No two hyphens stand side by side. *)
Fixpoint hyphens_apart (s : text) : bool :=
  match s with
  | c :: s' =>
      match s' with
      | d :: _ => negb ((c =? 45) && (d =? 45)) && hyphens_apart s'
      | [] => true
      end
  | [] => true
  end.

(** A code unit of a title of which something is left in the base slug: an
    ASCII letter or digit, white space, or one of the two characters
    outside ASCII whose lower case holds an ASCII letter, the Kelvin sign
    U+212A and the dotted capital I U+0130. *)
Definition leaves_trace (c : N) : bool :=
  is_alnum c || Portfolio_model.is_space c || (c =? 8490) || (c =? 304).

(** A title of which nothing is left. *)
Definition traceless (title_ : text) : bool :=
  forallb (fun c => negb (leaves_trace c)) title_.

(** The state in which [enhancePortfolio] calls the AI service: the clock
    has been read, the pending iteration written, the first line logged. *)
Definition started (w : world) (pid : nat) (p : Portfolio) (userPrompt : text) : world :=
  with_console
    {| level := LevelLog;
       line := txt "Enhancing portfolio " ++ decimal pid ++ txt " with prompt: "
               ++ userPrompt |}
    (with_iteration (fresh (dom (iterations w)))
       (PortfolioIteration_model.build
          {| PortfolioIteration_model.new_portfolio_id := Some pid;
             PortfolioIteration_model.new_prompt := userPrompt;
             PortfolioIteration_model.new_iteration_type := type_enhance;
             PortfolioIteration_model.new_status := pending;
             PortfolioIteration_model.new_previous_content := Some (content p) |})
       (with_clock_read w)).

(** The one source of an enhancement of the whole document. *)
Definition whole_document_sources (userPrompt : text) : list source :=
  [ {| source_type := txt "prompt";
       source_data := VObj [(txt "description", VStr userPrompt)] |} ].

(** [enhanced] is the object an enhancement hands to [updateContent], and
    [tokens] what the AI service reported for it. *)
Definition enhanced_by (E : Env) (pid : nat) (p : Portfolio) (section : option text)
    (userPrompt : text) (wa : world) (enhanced : list (text * jsval)) (tokens : nat)
  : Prop :=
  match portfolioGenerator.given_section section with
  | Some s =>
      exists a wb picked,
        aiService.enhanceSection E (content p) s userPrompt
          [(txt "portfolio_id", VStr (decimal pid))] wa = (Ok a, wb)
        /\ member_dyn E (aiService.ai_content a) s = Ok picked
        /\ enhanced = prop_set s (js_or picked (JVal (aiService.ai_content a)))
                        (spread (content p))
        /\ tokens = aiService.tokensUsed a
  | None =>
      exists a wb,
        aiService.generatePortfolio E (whole_document_sources userPrompt)
          [(txt "existing_content", content p)] wa = (Ok a, wb)
        /\ enhanced = spread_onto (spread (content p)) (aiService.ai_content a)
        /\ tokens = aiService.tokensUsed a
  end.

(** The row after [updateContent]. *)
Definition merged (p : Portfolio) (enhanced : list (text * jsval)) : Portfolio :=
  Portfolio_model.with_content
    (VObj (persist_props (assign (spread (content p)) enhanced))) p.

(** How many iteration rows a run added that are in a final state. *)
Definition new_terminal_iterations (w w' : world) : nat :=
  size (filter (fun row : nat * PortfolioIteration =>
                  iterations w !! row.1 = None /\ iteration_state row.2 ≠ pending)
          (iterations w')).

(** * Example data *)

Module Examples.

Definition old_document : value :=
  VObj [ (txt "hero", VObj [(txt "name", VStr (txt "Ada"))]);
         (txt "contact", VObj [(txt "email", VStr (txt "a@x.com"))]);
         (txt "projects", VArr []) ].

(** A stored portfolio whose preview has been rendered and cached. *)
Definition stored : Portfolio :=
  {| user_id := txt "user-1"; title := txt "Ada"; slug := txt "ada";
     status := draft; template_id := txt "modern-dev";
     content := old_document;
     generated_html := Some (txt "<old>"); generated_css := None;
     generated_js := None;
     view_count := 0; is_public := false; published_at := None |}.

(** The line of the modern-dev template that prints the year. *)
Definition footer : template := fun _ data =>
  Ok (txt "<p>&copy; "
      ++ match templateEngine.jlookup (txt "current_year") data with
         | JVal (VNum n) => n
         | _ => []
         end
      ++ txt "</p>").

Definition before : world :=
  {| portfolios := {[ 7%nat := stored ]}; iterations := ∅; iteration_log := [];
     calls := []; console := []; clock_reads := 0;
     compiledTemplates := {[ txt "modern-dev" := footer ]};
     templateConfigs := ∅;
     files := {[ (txt "modern-dev", txt "style.css") := txt "body{margin:0}" ]} |}.

Definition request_text : text := txt "Please sharpen the summary".

(** Collaborators for the runs below: the model answers its [n]-th call with
    [reply n], GitHub is unreachable, the clock stands in [year] up to the
    read numbered [turn] and in the next year from then on, and
    [Math.random] yields a quarter throughout one render and three quarters
    throughout the next.  No run below reads a built-in property or
    compares an own [length]. *)
Definition collaborators (reply : nat -> result response) (year turn : nat) : Env :=
  {| openai := fun n _ _ => reply n;
     github := fun _ _ _ => GitHubFailure (txt "offline");
     clock := fun n =>
       {| epoch_ms := Z.of_nat n;
          full_year := if (n <? turn)%nat then year else S year |};
     Math_random := fun n _ => if Nat.even n then txt "0.25" else txt "0.75";
     builtin_prop := fun _ _ => JUndefined;
     number_to_string := fun lexeme => lexeme;
     gt_zero := fun v => match v with VNum n => negb (num_is_zero n) | _ => false end |}.

Definition answers (reply : text) : nat -> result response :=
  fun _ => Ok {| message_content := reply; total_tokens := 42 |}.

Definition steady (reply : text) : Env := collaborators (answers reply) 2025 1000.

(** The first call meets an overloaded model, the later ones are answered. *)
Definition overloaded_then (reply : text) : nat -> result response :=
  fun n =>
    match n with
    | O => Throw {| code := Some (txt "model_overloaded");
                    message := txt "That model is currently overloaded" |}
    | S _ => Ok {| message_content := reply; total_tokens := 42 |}
    end.

Definition overloaded_once (reply : text) : Env :=
  collaborators (overloaded_then reply) 2025 1000.

(** An answer that has a [contact] object without [email]. *)
Definition contact_without_email : text := jsn "{'contact':{'location':'Paris'}}".

Definition new_projects : text :=
  jsn "{'projects':[{'title':'Compiler','description':'A small one'}]}".

(** [document.contact?.email] *)
Definition email_of (document : value) : jsval :=
  opt_member (opt_member (JVal document) (txt "contact")) (txt "email").

Definition document_after (w : world) : option value :=
  content <$> portfolios w !! 7%nat.

Definition whole_run :=
  portfolioGenerator.enhancePortfolio (steady contact_without_email) 7 request_text
    None before.

Definition section_run :=
  portfolioGenerator.enhancePortfolio (steady new_projects) 7 request_text
    (Some (txt "projects")) before.

Definition missing_run :=
  portfolioGenerator.enhancePortfolio (steady new_projects) 8 request_text
    None before.

Definition succeeded (r : result portfolioGenerator.enhancement_result) : bool :=
  match r with
  | Ok (portfolioGenerator.EnhancementSuccess _ _ _ _ _) => true
  | _ => false
  end.

(** The year turns between the first and the second read of the clock. *)
Definition new_year : Env := collaborators (answers []) 2025 1.

Definition first_render :=
  templateEngine.generateHTML new_year old_document (txt "modern-dev") before.

Definition second_render :=
  templateEngine.generateHTML new_year old_document (txt "modern-dev") first_render.2.

Definition same_year_render :=
  templateEngine.generateHTML (steady []) old_document (txt "modern-dev") before.

(** A template with a helper that reads [Math.random], in the manner of the
    particles of the modern-dev template. *)
Definition particle : template := fun random _ =>
  Ok (txt "<i data-left='" ++ random 0%nat ++ txt "'></i>").

Definition night_sky : world :=
  {| portfolios := portfolios before; iterations := ∅; iteration_log := [];
     calls := []; console := []; clock_reads := 0;
     compiledTemplates := {[ txt "modern-dev" := particle ]};
     templateConfigs := ∅; files := ∅ |}.

Definition first_sky :=
  templateEngine.generateHTML (steady []) old_document (txt "modern-dev") night_sky.

Definition second_sky :=
  templateEngine.generateHTML (steady []) old_document (txt "modern-dev") first_sky.2.

Definition tweet : source :=
  {| source_type := txt "twitter";
     source_data := VObj [(txt "handle", VStr (txt "ada"))] |}.

Definition described : source :=
  {| source_type := txt "prompt";
     source_data := VObj [(txt "description", VStr (txt "Backend engineer"))] |}.

End Examples.

(** * The rest of the models, the template registry and the guarded routes *)

#[global] Instance portfolio_status_eq_dec : EqDecision portfolio_status.
Proof. solve_decision. Defined.

#[global] Instance iteration_type_eq_dec : EqDecision iteration_type.
Proof. solve_decision. Defined.

(** ** models/Portfolio.js: publication and views *)

Module Portfolio_publication.

Definition with_publication (status_ : portfolio_status) (is_public_ : bool)
    (published_at_ : option Z) (p : Portfolio) : Portfolio :=
  {| user_id := user_id p; title := title p; slug := slug p; status := status_;
     template_id := template_id p; content := content p;
     generated_html := generated_html p; generated_css := generated_css p;
     generated_js := generated_js p; view_count := view_count p;
     is_public := is_public_; published_at := published_at_ |}.

Definition with_view_count (n : nat) (p : Portfolio) : Portfolio :=
  {| user_id := user_id p; title := title p; slug := slug p; status := status p;
     template_id := template_id p; content := content p;
     generated_html := generated_html p; generated_css := generated_css p;
     generated_js := generated_js p; view_count := n;
     is_public := is_public p; published_at := published_at p |}.

(** [publish]: [published_at] is [new Date()], kept as its epoch time. *)
Definition publish (E : Env) (id : nat) (this : Portfolio) : M Portfolio :=
  now ← read_clock E;
  let this' := with_publication published true (Some (epoch_ms now)) this in
  Portfolio_model.save id this';;
  mret this'.

Definition unpublish (id : nat) (this : Portfolio) : M Portfolio :=
  let this' := with_publication draft false None this in
  Portfolio_model.save id this';;
  mret this'.

Definition incrementView (id : nat) (this : Portfolio) : M Portfolio :=
  let this' := with_view_count (S (view_count this)) this in
  Portfolio_model.save id this';;
  mret this'.

(** [findPublishedBySlug]: [findOne] with [slug], [status: 'published'] and
    [is_public: true].  Which of several matching rows the database returns
    is its own choice; the embedding takes the first in key order. *)
Definition findPublishedBySlug (slug_ : text) : M (option (nat * Portfolio)) :=
  fun w =>
    (Ok (snd <$> list_find
                   (fun row : nat * Portfolio =>
                      slug row.2 = slug_ /\ status row.2 = published
                      /\ is_public row.2 = true)
                   (map_to_list (portfolios w))),
     w).

End Portfolio_publication.

(** ** models/PortfolioIteration.js: statistics *)

Module PortfolioIteration_stats.

(** [Math.round(a / n)] for integers [a] and [n > 0]: the nearest integer,
    a half rounding up.  The quotient is taken as exact, which it is for
    sums below 2^52. *)
Definition Math_round_div (a n : Z) : Z := ((2 * a + n) / (2 * n))%Z.

Record stats := {
  total : nat;
  n_completed : nat;
  n_failed : nat;
  n_pending : nat;
  total_tokens : nat;
  avg_processing_time : Z;
  n_generate : nat;
  n_enhance : nat;
  n_fix : nat;
  n_custom : nat
}.

(** [findAll({ where: { portfolio_id } })] *)
Definition findAll (portfolioId : nat) : M (list PortfolioIteration) :=
  fun w =>
    (Ok (snd <$> filter (fun row : nat * PortfolioIteration =>
                           portfolio_id row.2 = Some portfolioId)
                   (map_to_list (iterations w))),
     w).

Definition with_status (s : iteration_status) (l : list PortfolioIteration)
  : list PortfolioIteration :=
  filter (fun i => iteration_state i = s) l.

Definition with_type (t : iteration_type) (l : list PortfolioIteration)
  : list PortfolioIteration :=
  filter (fun i => iteration_kind i = t) l.

Definition getIterationStats (portfolioId : nat) : M stats :=
  iterations_ ← findAll portfolioId;
  let completedIterations := with_status completed iterations_ in
  mret {| total := length iterations_;
          n_completed := length (with_status completed iterations_);
          n_failed := length (with_status failed iterations_);
          n_pending := length (with_status pending iterations_);
          total_tokens :=
            foldl (fun sum i => (sum + tokens_used i)%nat) 0%nat iterations_;
          avg_processing_time :=
            if decide (0 < length completedIterations)%nat
            then Math_round_div
                   (foldl (fun sum i => (sum + processing_time_ms i)%Z) 0%Z
                      completedIterations)
                   (Z.of_nat (length completedIterations))
            else 0%Z;
          n_generate := length (with_type type_generate iterations_);
          n_enhance := length (with_type type_enhance iterations_);
          n_fix := length (with_type type_fix iterations_);
          n_custom := length (with_type type_custom iterations_) |}.

End PortfolioIteration_stats.

(** ** services/templateEngine.js: loading and customizing templates *)

Definition with_compiledTemplates (f : gmap text template -> gmap text template)
    (w : world) : world :=
  {| portfolios := portfolios w; iterations := iterations w;
     iteration_log := iteration_log w; calls := calls w; console := console w;
     clock_reads := clock_reads w; compiledTemplates := f (compiledTemplates w);
     templateConfigs := templateConfigs w; files := files w |}.

Definition with_templateConfigs (f : gmap text value -> gmap text value)
    (w : world) : world :=
  {| portfolios := portfolios w; iterations := iterations w;
     iteration_log := iteration_log w; calls := calls w; console := console w;
     clock_reads := clock_reads w; compiledTemplates := compiledTemplates w;
     templateConfigs := f (templateConfigs w); files := files w |}.

Definition with_iterations
    (f : gmap nat PortfolioIteration -> gmap nat PortfolioIteration)
    (w : world) : world :=
  {| portfolios := portfolios w; iterations := f (iterations w);
     iteration_log := iteration_log w; calls := calls w; console := console w;
     clock_reads := clock_reads w; compiledTemplates := compiledTemplates w;
     templateConfigs := templateConfigs w; files := files w |}.

Module templateEngine_templates.

(** [_fileExists]: whether [fs.access] succeeds on a file of a template's
    directory. *)
Definition _fileExists (templateDir name : text) : M bool :=
  w ← get_world;
  mret (bool_decide (is_Some (files w !! (templateDir, name)))).

(** [fs.readFile(file, 'utf8')] *)
Definition readFile (templateDir name : text) : M text :=
  w ← get_world;
  match files w !! (templateDir, name) with
  | Some content_ => mret content_
  | None => throw (Error (txt "ENOENT: no such file or directory"))
  end.

Section WithHandlebars.
(** [Handlebars.compile], which does not look at the template before the
    compiled function is first called. *)
Context (compile : text -> template).

Definition _loadTemplate (templateDir : text) : M unit :=
  try_catch
    (templateExists ← _fileExists templateDir (txt "template.hbs");
     if negb templateExists
     then console_warn (txt "Template file not found for " ++ templateDir)
     else
       templateContent ← readFile templateDir (txt "template.hbs");
       let compiledTemplate := compile templateContent in
       modify (with_compiledTemplates (insert templateDir compiledTemplate));;
       let config := [(txt "name", JVal (VStr templateDir))] in
       configExists ← _fileExists templateDir (txt "config.json");
       config ←
         (if (configExists : bool) then
            configContent ← readFile templateDir (txt "config.json");
            parsed ← lift (JSON_parse_or_throw configContent);
            mret (spread_onto config parsed)
          else mret config);
       modify (with_templateConfigs
                 (insert templateDir (VObj (persist_props config))));;
       console_log ([9989] ++ txt " Loaded template: " ++ templateDir))
    (fun error =>
       console_error ([10060] ++ txt " Failed to load template " ++ templateDir
                        ++ txt ":")).

End WithHandlebars.

(** [v.name] where [v] is known not to be [null] and [name] is not a name a
    built-in prototype supplies. *)
Definition field (v : value) (name : text) : jsval :=
  opt_jsval (prop_lookup name (own_props v)).

(** The own properties of a value that may be [undefined]. *)
Definition props_of (j : jsval) : list (text * value) :=
  match j with
  | JVal v => own_props v
  | _ => []
  end.

(** [{...j}] onto a target, for a value that may be [undefined]. *)
Definition spread_any (target : list (text * jsval)) (j : jsval)
  : list (text * jsval) :=
  match j with
  | JVal v => spread_onto target v
  | _ => target
  end.

(** The number a key denotes when it is an array index: a decimal numeral
    without a leading zero, at most 2^32 - 2. *)
Definition array_index (k : text) : option N :=
  match k with
  | [] => None
  | c :: rest =>
      if forallb is_digit k && (negb (c =? 48) || bool_decide (rest = []))
      then
        let n := fold_left (fun acc d => 10 * acc + (d - 48)) k 0 in
        if n <=? 4294967294 then Some n else None
      else None
  end.

Fixpoint insert_by_index (e : N * (text * value)) (l : list (N * (text * value)))
  : list (N * (text * value)) :=
  match l with
  | [] => [e]
  | e' :: l' => if e.1 <? e'.1 then e :: l else e' :: insert_by_index e l'
  end.

(** [Object.entries]: the own properties, those whose key is an array index
    first and in ascending order, then the others in the order in which
    they were added. *)
Definition Object_entries (v : value) : list (text * value) :=
  let ps := own_props v in
  (foldl (fun sorted kv =>
            match array_index kv.1 with
            | Some n => insert_by_index (n, kv) sorted
            | None => sorted
            end) [] ps).*2
  ++ filter (fun kv => array_index kv.1 = None) ps.

Section WithEnv.
Context (E : Env).

Definition color_line (entry : text * value) : text :=
  txt "  --" ++ entry.1 ++ txt ": " ++ to_string E entry.2 ++ txt ";" ++ [10].

Definition _generateCustomCSS (config : value) : text :=
  let customizations := js_or (field config (txt "customizations")) (JVal (VObj [])) in
  let customizations :=
    match customizations with JVal v => v | _ => VObj [] end in
  let colors := field customizations (txt "colors") in
  let fonts := field customizations (txt "fonts") in
  let custom_css := field customizations (txt "custom_css") in
  (match colors with
   | JVal c =>
       if truthy c
       then txt ":root {" ++ [10] ++ flat_map color_line (Object_entries c)
            ++ txt "}" ++ [10; 10]
       else []
   | _ => []
   end)
  ++ (match fonts with
      | JVal f =>
          if truthy f then
            (if jtruthy (field f (txt "primary"))
             then txt "body { font-family: '" ++ jto_string E (field f (txt "primary"))
                  ++ txt "', sans-serif; }" ++ [10]
             else [])
            ++ (if jtruthy (field f (txt "heading"))
                then txt "h1, h2, h3, h4, h5, h6 { font-family: '"
                     ++ jto_string E (field f (txt "heading"))
                     ++ txt "', sans-serif; }" ++ [10]
                else [])
          else []
      | _ => []
      end)
  ++ (if jtruthy custom_css then jto_string E custom_css else []).

Inductive customize_result :=
  | CustomizeSuccess (css : text) (config : value)
  | CustomizeFailure (error : text).

(** The merged [customizations] of [customizeTemplate]. *)
Definition merged_customizations (config : value) (customizations : jsval)
  : list (text * jsval) :=
  spread_any (spread_any [] (field config (txt "customizations"))) customizations.

Definition customizeTemplate (templateId : text) (customizations : jsval)
  : M customize_result :=
  try_catch
    (w ← get_world;
     let config := templateConfigs w !! templateId in
     match config with
     | Some config =>
         if truthy config then
           let customizedConfig :=
             VObj (persist_props
                     (prop_set (txt "customizations")
                        (JVal (VObj (persist_props
                                       (merged_customizations config customizations))))
                        (spread config))) in
           let customCSS := _generateCustomCSS customizedConfig in
           mret (CustomizeSuccess customCSS customizedConfig)
         else throw (Error (txt "Template '" ++ templateId ++ txt "' not found"))
     | None => throw (Error (txt "Template '" ++ templateId ++ txt "' not found"))
     end)
    (fun error =>
       console_error (txt "Template customization error:");;
       mret (CustomizeFailure (message_or error (txt "Failed to customize template")))).

End WithEnv.

(** *** The helpers registered with Handlebars *)

Definition startsWith (s prefix : text) : bool :=
  bool_decide (is_Some (after_prefix prefix s)).

(** [ensureHttp]: a value that is not a string has no [startsWith]. *)
Definition ensureHttp (url : jsval) : result text :=
  if negb (jtruthy url) then Ok []
  else
    match url with
    | JVal (VStr s) =>
        if startsWith s (txt "http://") || startsWith s (txt "https://")
        then Ok s
        else Ok (txt "https://" ++ s)
    | _ => Throw (TypeError (txt "url.startsWith is not a function"))
    end.

End templateEngine_templates.

(** ** What the columns of [portfolios] guarantee

    The validators of [title] and [slug], and the unique index on
    [(user_id, slug)]. *)

Definition row_valid (p : Portfolio) : Prop :=
  len_between 1 255 (title p) = true
  /\ len_between 1 255 (slug p) = true
  /\ slug_pattern (slug p) = true.

Definition table_valid (w : world) : Prop :=
  (forall id p, portfolios w !! id = Some p -> row_valid p)
  /\ (forall id1 id2 p1 p2,
        portfolios w !! id1 = Some p1 -> portfolios w !! id2 = Some p2 ->
        user_id p1 = user_id p2 -> slug p1 = slug p2 -> id1 = id2).

(** ** middleware/auth.js: the ownership check *)

Module auth.

(** What a middleware does with a request: it hands it on, here with
    [req.resource] set, or it answers it. *)
Inductive outcome :=
  | Next (resource : Portfolio)
  | Answered (status_code : nat) (error_ message_ : text).

(** [checkOwnership(Portfolio, 'id')], for the requester [req.user.id]. *)
Definition checkOwnership (requester : text) (resourceId : nat) : M outcome :=
  try_catch
    (resource ← Portfolio_model.findByPk resourceId;
     match resource with
     | None => mret (Answered 404 (txt "Not Found") (txt "Resource not found"))
     | Some resource =>
         if negb (bool_decide (user_id resource = requester))
         then mret (Answered 403 (txt "Forbidden")
                      (txt "You do not have permission to access this resource"))
         else mret (Next resource)
     end)
    (fun error =>
       console_error (txt "Ownership check error:");;
       mret (Answered 500 (txt "Internal Server Error")
               (txt "Error checking resource ownership"))).

End auth.

(** The answer of a route: a success with its payload, or an error. *)
Inductive answer (A : Type) : Type :=
  | Success (status_code : nat) (payload : A)
  | Failure (status_code : nat) (error_ message_ : text).
Arguments Success {A} status_code payload.
Arguments Failure {A} status_code error_ message_.

(** A handler behind [checkOwnership]. *)
Definition owner_only {A : Type} (requester : text) (id : nat)
    (handler : Portfolio -> M (answer A)) : M (answer A) :=
  checked ← auth.checkOwnership requester id;
  match checked with
  | auth.Next resource => handler resource
  | auth.Answered status_code error_ message_ =>
      mret (Failure status_code error_ message_)
  end.

(** ** routes/ai.js *)

Module ai_routes.



(** [POST /api/ai/enhance-section/:id], for a body whose [context] is an
    object or absent.  [section] and [prompt] are not validated: whatever
    they are, the template literals and the computed key turn them into
    strings. *)
Definition enhance_section (E : Env) (requester : text) (id : nat)
    (section prompt_ : jsval) (context : list (text * value))
  : M (answer (value * nat)) :=
  owner_only requester id (fun portfolio =>
    try_catch
      (if negb (jtruthy section) || negb (jtruthy prompt_)
       then mret (Failure 400 (txt "Missing required fields")
                    (txt "Section and prompt are required"))
       else
         let section_ := jto_string E section in
         console_log (txt "Enhancing section '" ++ section_ ++ txt "' for portfolio "
                        ++ decimal id);;
         result ← aiService.enhanceSection E (content portfolio) section_
                    (jto_string E prompt_) context;
         if negb (aiService.success result)
         then mret (Failure 400 (txt "Section Enhancement Failed")
                      (txt "Failed to enhance section"))
         else
           picked ← lift (member_dyn E (aiService.ai_content result) section_);
           let updatedContent :=
             prop_set section_ (js_or picked (JVal (aiService.ai_content result)))
               (spread (content portfolio)) in
           _ ← Portfolio_model.updateContent id portfolio updatedContent;
           mret (Success 200
                   (aiService.ai_content result, aiService.tokensUsed result)))
      (fun error =>
         console_error (txt "Section enhancement error:");;
         mret (Failure 500 (txt "Internal Server Error")
                 (txt "Failed to enhance section")))).

End ai_routes.

(** ** routes/portfolios.js *)

Module portfolio_routes.

(** [title || `${originalPortfolio.title} (Copy)`], where a title that is
    not a string has no [toLowerCase] for [generateSlug] to call. *)
Definition duplicateTitle (title_ : jsval) (originalPortfolio : Portfolio)
  : result text :=
  if jtruthy title_ then
    match title_ with
    | JVal (VStr s) => Ok s
    | _ => Throw (TypeError (txt "title.toLowerCase is not a function"))
    end
  else Ok (title originalPortfolio ++ txt " (Copy)").

(** [POST /api/portfolios/:id/duplicate] *)
Definition duplicate (requester : text) (id : nat) (title_ : jsval)
  : M (answer (nat * Portfolio)) :=
  owner_only requester id (fun originalPortfolio =>
    try_catch
      (duplicateTitle_ ← lift (duplicateTitle title_ originalPortfolio);
       slug_ ← Portfolio_model.generateSlug (user_id originalPortfolio) duplicateTitle_;
       duplicatePortfolio ← Portfolio_model.create
         {| Portfolio_model.new_user_id := user_id originalPortfolio;
            Portfolio_model.new_title := duplicateTitle_;
            Portfolio_model.new_slug := slug_;
            Portfolio_model.new_template_id := template_id originalPortfolio;
            Portfolio_model.new_content := content originalPortfolio;
            Portfolio_model.new_status := draft |};
       mret (Success 201 duplicatePortfolio))
      (fun error =>
         console_error (txt "Portfolio duplication error:");;
         mret (Failure 500 (txt "Internal Server Error")
                 (txt "Failed to duplicate portfolio")))).

(** [portfolio.destroy()]: the row goes, and with it the iterations that
    refer to it, which the association declares [onDelete: 'CASCADE']. *)
Definition destroy (id : nat) : M unit :=
  modify (with_portfolios (delete id));;
  modify (with_iterations
            (filter (fun row : nat * PortfolioIteration =>
                       portfolio_id row.2 <> Some id))).

(** [DELETE /api/portfolios/:id] *)
Definition delete_portfolio (requester : text) (id : nat) : M (answer unit) :=
  owner_only requester id (fun portfolio =>
    try_catch
      (destroy id;;
       mret (Success 200 tt))
      (fun error =>
         console_error (txt "Portfolio deletion error:");;
         mret (Failure 500 (txt "Internal Server Error")
                 (txt "Failed to delete portfolio")))).

End portfolio_routes.

(** ** routes/preview.js *)

Module preview_routes.

(** [templateEngine.generateHTML] for a template id taken from a request
    body: the registry is a [Map] with string keys, so that a value of
    another type is never found; the parameter defaults to the modern-dev
    template when it is [undefined]. *)
Definition generateHTML (E : Env) (portfolioContent : value) (templateId : jsval)
  : M templateEngine.html_result :=
  match templateId with
  | JVal (VStr s) => templateEngine.generateHTML E portfolioContent s
  | JUndefined => templateEngine.generateHTML E portfolioContent (txt "modern-dev")
  | other =>
      console_log (txt "Generating HTML with template: " ++ jto_string E other);;
      console_error (txt "HTML generation error:");;
      mret (templateEngine.HtmlFailure
              (txt "Template '" ++ jto_string E other ++ txt "' not found"))
  end.




End preview_routes.

(** ** Requests that leave the process

    A computation spends at most [n] calls when it appends at most [n]
    entries to the trace of external calls and changes no earlier entry. *)

Definition spends (n : nat) {A : Type} (m : M A) : Prop :=
  forall w r w', m w = (r, w') ->
    exists made, calls w' = calls w ++ made /\ (length made <= n)%nat.

(** The sources that [_processSources] may have to leave the process for. *)
Definition remote_sources (sources : list source) : nat :=
  length (filter (fun s => source_type s = txt "github"
                           \/ source_type s = txt "resume") sources).

(** Every result that a computation returns satisfies [P]. *)
Definition ensures {A : Type} (P : A -> Prop) (m : M A) : Prop :=
  forall w a w', m w = (Ok a, w') -> P a.

(** [source.data.text || source.data.content] of a resume source, when it is
    there and truthy. *)
Definition resume_text (s : source) : option value :=
  match source_data s with
  | VNull => None
  | data =>
      match js_or (opt_jsval (prop_lookup (txt "text") (own_props data)))
              (opt_jsval (prop_lookup (txt "content") (own_props data))) with
      | JVal v => if truthy v then Some v else None
      | _ => None
      end
  end.

(** ** utils/helpers.js *)

Module helpers.

(** [.replace(/^-+|-+$/g, '')] *)
Fixpoint drop_hyphens (s : text) : text :=
  match s with
  | c :: s' => if c =? 45 then drop_hyphens s' else s
  | [] => []
  end.

Definition trim_hyphens (s : text) : text :=
  reverse (drop_hyphens (reverse (drop_hyphens s))).

Definition slugify (text_ : text) : text :=
  take 50
    (trim_hyphens
       (Portfolio_model.hyphenate
          (Portfolio_model.strip_other (Portfolio_model.toLowerCase text_)))).

(** The replacement that [escapeMap] gives each of the six characters it
    lists: ampersand, less-than, greater-than, double and single quote,
    and slash. *)
Definition escape_unit (c : N) : text :=
  if c =? 38 then txt "&amp;"
  else if c =? 60 then txt "&lt;"
  else if c =? 62 then txt "&gt;"
  else if c =? 34 then txt "&quot;"
  else if c =? 39 then txt "&#x27;"
  else if c =? 47 then txt "&#x2F;"
  else [c].

(** [escapeHTML]: the empty string for what is not a string. *)
Definition escapeHTML (text_ : jsval) : text :=
  match text_ with
  | JVal (VStr s) => flat_map escape_unit s
  | _ => []
  end.

(** [String.prototype.trim] *)
Fixpoint trim_start (s : text) : text :=
  match s with
  | c :: s' => if Portfolio_model.is_space c then trim_start s' else s
  | [] => []
  end.

Definition trim (s : text) : text :=
  reverse (trim_start (reverse (trim_start s))).

(** [truncateText], for a string, an integer [length] and a string
    [suffix]. *)
Definition truncateText (text_ : text) (length_ : Z) (suffix : text) : text :=
  if bool_decide (text_ = []) then []
  else if (Z.of_nat (length text_) <=? length_)%Z then text_
  else trim (take (Z.to_nat (length_ - Z.of_nat (length suffix))) text_) ++ suffix.

End helpers.

(** * More example data *)

Module Scenarios.

(** A compiled template that prints its own source. *)
Definition echo (source_ : text) : template := fun _ _ => Ok source_.

(** A template directory whose [config.json] is cut short. *)
Definition disk : world :=
  {| portfolios := portfolios Examples.before; iterations := ∅;
     iteration_log := []; calls := []; console := []; clock_reads := 0;
     compiledTemplates := ∅;
     templateConfigs := ∅;
     files := {[ (txt "minimal", txt "template.hbs") := txt "<main>{{hero.name}}</main>";
                 (txt "minimal", txt "config.json") := jsn "{'name': 'Minimal'," ]} |}.

Definition resume : source :=
  {| source_type := txt "resume";
     source_data := VObj [(txt "content", VStr (txt "Ada Lovelace, analyst"))] |}.

(** An answer of the model that is prose. *)
Definition prose : response :=
  {| message_content := txt "Two compilers and a proof."; total_tokens := 42 |}.

(** What the GitHub service found, with more repositories and languages
    than the generator keeps. *)
Definition hub : github_data :=
  {| gh_profile := VObj [(txt "login", VStr (txt "ada"))];
     gh_repositories := (fun n => VStr (txt "repo-" ++ decimal n)) <$> seq 0 7;
     gh_pinned_repositories := VArr [];
     gh_languages := (fun n => VStr (txt "lang-" ++ decimal n)) <$> seq 0 9;
     gh_stats := VObj [(txt "stars", VNum (txt "3"))];
     gh_profile_readme := VNull |}.

(** The collaborators of [Examples.steady], with GitHub reachable. *)
Definition online : Env :=
  {| openai := openai (Examples.steady []);
     github := fun _ _ _ => GitHubSuccess hub;
     clock := clock (Examples.steady []);
     Math_random := Math_random (Examples.steady []);
     builtin_prop := builtin_prop (Examples.steady []);
     number_to_string := number_to_string (Examples.steady []);
     gt_zero := gt_zero (Examples.steady []) |}.

Definition octocat : source :=
  {| source_type := txt "github";
     source_data := VObj [(txt "username", VStr (txt "ada"))] |}.

End Scenarios.

(** * Lemmas *)

(** ** The fuel of the parser is enough *)

Lemma skip_ws_length s : (length (skip_ws s) <= length s)%nat.
Proof.
  induction s as [|c s IH]; [done|]. cbn [skip_ws].
  destruct (is_ws c); cbn [length]; lia.
Qed.

Lemma cons_body_shrink c r body rest (n : nat) :
  cons_body c r = Some (body, rest) ->
  (forall b, r = Some (b, rest) -> (length rest < n)%nat) ->
  (length rest < n)%nat.
Proof. destruct r as [[b r']|]; [|done]. intros [= _ <-] H. by eapply H. Qed.

Lemma lex_string_shrink n : forall s body rest,
  (length s <= n)%nat ->
  lex_string s = Some (body, rest) -> (length rest < length s)%nat.
Proof.
  induction n as [|n IH]; intros s body rest Hn H.
  - destruct s; [done | cbn in Hn; lia].
  - destruct s as [|c r]; [done|]. cbn [lex_string length] in *.
    destruct (c =? 34); [injection H as _ <-; lia|].
    destruct (c =? 92).
    + destruct r as [|e r1]; [done|]. cbn [length] in *.
      destruct (unescape e).
      * eapply cons_body_shrink; [done|]. intros b Hb.
        apply IH in Hb; lia.
      * destruct (e =? 117); [|done].
        destruct r1 as [|h1 [|h2 [|h3 [|h4 r2]]]]; try done.
        destruct (hex4 h1 h2 h3 h4); [|done]. cbn [length] in *.
        eapply cons_body_shrink; [done|]. intros b Hb.
        apply IH in Hb; lia.
    + destruct (c <? 32); [done|].
      eapply cons_body_shrink; [done|]. intros b Hb.
      apply IH in Hb; lia.
Qed.

Lemma span_digits_length s : (length (span_digits s).2 <= length s)%nat.
Proof.
  induction s as [|c s IH]; [done|]. cbn [span_digits].
  destruct (is_digit c); [|done].
  destruct (span_digits s) as [ds rest]. cbn [snd length] in *. lia.
Qed.

Lemma nonempty_digits_length s ds rest :
  nonempty_digits s = Some (ds, rest) -> (length rest <= length s)%nat.
Proof.
  unfold nonempty_digits. pose proof (span_digits_length s) as Hl.
  destruct (span_digits s) as [[|d ds'] r]; [done|].
  by intros [= _ <-].
Qed.

Lemma after_prefix_length p s rest :
  after_prefix p s = Some rest -> (length rest + length p = length s)%nat.
Proof.
  revert s. induction p as [|a p IH]; intros s H.
  - injection H as <-. cbn. lia.
  - destruct s as [|b s]; [done|]. cbn [after_prefix] in H.
    destruct (a =? b); [|done]. apply IH in H. cbn [length]. lia.
Qed.

Lemma lex_number_shrink s lexeme rest :
  lex_number s = Some (lexeme, rest) -> (length rest < length s)%nat.
Proof.
  unfold lex_number.
  assert (length (lex_minus s).2 <= length s)%nat as Hm.
  { destruct s as [|c r]; [done|]. cbn [lex_minus]. destruct (c =? 45); cbn; lia. }
  destruct (lex_minus s) as [sign s1]. cbn [snd] in Hm.
  destruct (lex_int s1) as [[int s2]|] eqn:Hint; [|done]. csimpl.
  assert (length s2 < length s1)%nat as Hi.
  { destruct s1 as [|c r]; [done|]. cbn [lex_int] in Hint.
    destruct (c =? 48); [injection Hint as _ <-; cbn; lia|].
    destruct (is_digit c) eqn:Hd; [|done]. injection Hint as Hsp.
    cbn [span_digits] in Hsp. rewrite Hd in Hsp.
    pose proof (span_digits_length r) as Hl.
    destruct (span_digits r) as [ds rest']. injection Hsp as _ <-. cbn in *. lia. }
  destruct (lex_frac s2) as [[frac s3]|] eqn:Hfrac; [|done]. csimpl.
  assert (length s3 <= length s2)%nat as Hf.
  { destruct s2 as [|c r]; [by injection Hfrac as _ <-|]. cbn [lex_frac] in Hfrac.
    destruct (c =? 46); [|by injection Hfrac as _ <-].
    destruct (nonempty_digits r) as [[ds rest']|] eqn:Hnd; [|done].
    injection Hfrac as _ <-. apply nonempty_digits_length in Hnd. cbn. lia. }
  destruct (lex_exp s3) as [[exp s4]|] eqn:Hexp; [|done]. csimpl.
  assert (length s4 <= length s3)%nat as He.
  { destruct s3 as [|c r]; [by injection Hexp as _ <-|]. cbn [lex_exp] in Hexp.
    destruct ((c =? 101) || (c =? 69)); [|by injection Hexp as _ <-].
    assert (length (lex_sign r).2 <= length r)%nat as Hs.
    { destruct r as [|d r']; [done|]. cbn [lex_sign].
      destruct ((d =? 43) || (d =? 45)); cbn; lia. }
    destruct (lex_sign r) as [sg r1]. cbn [snd] in Hs.
    destruct (nonempty_digits r1) as [[ds rest']|] eqn:Hnd; [|done].
    injection Hexp as _ <-. apply nonempty_digits_length in Hnd. cbn. lia. }
  intros [= _ <-]. lia.
Qed.

Lemma parse_scalar_shrink s v rest :
  parse_scalar s = Some (v, rest) -> (length rest < length s)%nat.
Proof.
  unfold parse_scalar. destruct s as [|c r]; [done|].
  destruct (c =? 34).
  - destruct (lex_string r) as [[body rest']|] eqn:Hs; [|done].
    intros [= _ <-]. apply (lex_string_shrink (length r)) in Hs; [cbn; lia | done].
  - destruct (after_prefix (txt "true") (c :: r)) eqn:H1.
    { intros [= _ <-]. apply after_prefix_length in H1. cbn in *. lia. }
    destruct (after_prefix (txt "false") (c :: r)) eqn:H2.
    { intros [= _ <-]. apply after_prefix_length in H2. cbn in *. lia. }
    destruct (after_prefix (txt "null") (c :: r)) eqn:H3.
    { intros [= _ <-]. apply after_prefix_length in H3. cbn in *. lia. }
    destruct (lex_number (c :: r)) as [[lexeme rest']|] eqn:Hn; [|done].
    intros [= _ <-]. by apply lex_number_shrink in Hn.
Qed.

Lemma separator_after_shrink close s :
  match separator_after close s with
  | Comma rest | Close rest => (length rest < length s)%nat
  | Neither => True
  end.
Proof.
  unfold separator_after. pose proof (skip_ws_length s) as Hl.
  destruct (skip_ws s) as [|c rest]; [done|]. cbn [length] in Hl.
  destruct (c =? 44); [lia|]. destruct (c =? close); [lia | done].
Qed.

Lemma parse_key_shrink s key r2 :
  parse_key s = Some (key, r2) -> (length r2 < length s)%nat.
Proof.
  unfold parse_key. destruct s as [|c r]; [done|].
  destruct (c =? 34); [|done].
  destruct (lex_string r) as [[k r1]|] eqn:Hs; [|done]. csimpl.
  apply (lex_string_shrink (length r)) in Hs; [|done].
  pose proof (skip_ws_length r1) as Hl.
  destruct (skip_ws r1) as [|d r2']; [done|].
  destruct (d =? 58); [|done]. intros [= _ <-]. cbn [length] in *. lia.
Qed.

Lemma parse_shrink fuel :
  (forall s v rest, parse_value fuel s = Some (v, rest) -> (length rest < length s)%nat)
  /\ (forall s acc v rest,
        parse_members fuel s acc = Some (v, rest) -> (length rest < length s)%nat)
  /\ (forall s acc v rest,
        parse_elements fuel s acc = Some (v, rest) -> (length rest < length s)%nat).
Proof.
  induction fuel as [|fuel (IHv & IHm & IHe)]; [done|]. split_and!.
  - intros s v rest. cbn [parse_value].
    pose proof (skip_ws_length s) as Hl.
    destruct (skip_ws s) as [|c r]; [done|]. cbn [length] in Hl.
    destruct (c =? 123).
    { pose proof (skip_ws_length r) as Hl'.
      destruct (skip_ws r) as [|d rest']; [done|]. cbn [length] in Hl'.
      destruct (d =? 125); [intros [= _ <-]; lia|].
      intros H%IHm. cbn [length] in H. lia. }
    destruct (c =? 91).
    { pose proof (skip_ws_length r) as Hl'.
      destruct (skip_ws r) as [|d rest']; [done|]. cbn [length] in Hl'.
      destruct (d =? 93); [intros [= _ <-]; lia|].
      intros H%IHe. cbn [length] in H. lia. }
    intros H%parse_scalar_shrink. cbn [length] in H. lia.
  - intros s acc v rest. cbn [parse_members].
    destruct (parse_key s) as [[key r2]|] eqn:Hk; [|done]. csimpl.
    apply parse_key_shrink in Hk.
    destruct (parse_value fuel r2) as [[v' r3]|] eqn:Hv; [|done]. csimpl.
    apply IHv in Hv.
    pose proof (separator_after_shrink 125 r3) as Hsep.
    destruct (separator_after 125 r3) as [r4|rest'|]; [| |done].
    + intros H%IHm. pose proof (skip_ws_length r4). lia.
    + intros [= _ <-]. lia.
  - intros s acc v rest. cbn [parse_elements].
    destruct (parse_value fuel s) as [[v' r1]|] eqn:Hv; [|done]. csimpl.
    apply IHv in Hv.
    pose proof (separator_after_shrink 93 r1) as Hsep.
    destruct (separator_after 93 r1) as [r2|rest'|]; [| |done].
    + intros H%IHe. lia.
    + intros [= _ <-]. lia.
Qed.

Lemma parse_fuel_stable fuel :
  (forall s extra, (2 * length s + 1 <= fuel)%nat ->
     parse_value (fuel + extra) s = parse_value fuel s)
  /\ (forall s acc extra, (2 * length s + 1 <= fuel)%nat ->
        parse_members (fuel + extra) s acc = parse_members fuel s acc)
  /\ (forall s acc extra, (2 * length s + 2 <= fuel)%nat ->
        parse_elements (fuel + extra) s acc = parse_elements fuel s acc).
Proof.
  induction fuel as [|fuel (IHv & IHm & IHe)]; [split_and!; intros; lia|]. split_and!.
  - intros s extra Hf. cbn [parse_value Nat.add].
    pose proof (skip_ws_length s) as Hl.
    destruct (skip_ws s) as [|c r]; [done|]. cbn [length] in Hl.
    destruct (c =? 123).
    { pose proof (skip_ws_length r) as Hl'.
      destruct (skip_ws r) as [|d rest']; [done|]. cbn [length] in Hl'.
      destruct (d =? 125); [done|]. apply IHm. cbn [length]. lia. }
    destruct (c =? 91); [|done].
    pose proof (skip_ws_length r) as Hl'.
    destruct (skip_ws r) as [|d rest']; [done|]. cbn [length] in Hl'.
    destruct (d =? 93); [done|]. apply IHe. cbn [length]. lia.
  - intros s acc extra Hf. cbn [parse_members Nat.add].
    destruct (parse_key s) as [[key r2]|] eqn:Hk; [|done]. csimpl.
    apply parse_key_shrink in Hk.
    rewrite IHv by lia.
    destruct (parse_value fuel r2) as [[v' r3]|] eqn:Hv; [|done]. csimpl.
    apply (proj1 (parse_shrink fuel)) in Hv.
    pose proof (separator_after_shrink 125 r3) as Hsep.
    destruct (separator_after 125 r3) as [r4|rest'|]; [|done|done].
    apply IHm. pose proof (skip_ws_length r4). lia.
  - intros s acc extra Hf. cbn [parse_elements Nat.add].
    rewrite IHv by lia.
    destruct (parse_value fuel s) as [[v' r1]|] eqn:Hv; [|done]. csimpl.
    apply (proj1 (parse_shrink fuel)) in Hv.
    pose proof (separator_after_shrink 93 r1) as Hsep.
    destruct (separator_after 93 r1) as [r2|rest'|]; [|done|done].
    apply IHe. lia.
Qed.

(** More fuel than [JSON_parse] gives never changes the outcome. *)
Lemma JSON_parse_fuel s extra :
  parse_value (2 * length s + 2 + extra) s = parse_value (2 * length s + 2) s.
Proof. apply (proj1 (parse_fuel_stable _)). lia. Qed.

(** ** Property lists *)

Section PropLemmas.
Context {A : Type}.
Implicit Types (ps : list (text * A)) (k : text).

Lemma prop_lookup_None k ps : prop_lookup k ps = None <-> k ∉ ps.*1.
Proof.
  induction ps as [|[k' v] ps IH]; csimpl.
  - split; [intros _; apply not_elem_of_nil | done].
  - rewrite not_elem_of_cons. destruct (prop_lookup k ps) eqn:Hl.
    + split; [done|]. intros [_ Hn]. apply IH in Hn. done.
    + case_bool_decide; subst.
      * split; [done | intros [? _]; done].
      * split; [intros _; split; [congruence | by apply IH] | done].
Qed.

Lemma prop_set_keys k (v : A) ps :
  (prop_set k v ps).*1 = if bool_decide (k ∈ ps.*1) then ps.*1 else ps.*1 ++ [k].
Proof.
  induction ps as [|[k' v'] ps IH]; [done|]. csimpl.
  destruct (decide (k' = k)) as [->|Hne].
  - rewrite !bool_decide_true; [done | left | done].
  - rewrite (bool_decide_false (k' = k)) by done. csimpl. rewrite IH.
    destruct (decide (k ∈ ps.*1)) as [Hin|Hin].
    + rewrite !bool_decide_true; [done | by right | done].
    + rewrite !bool_decide_false; [done | | done].
      rewrite not_elem_of_cons. naive_solver.
Qed.

Lemma prop_set_NoDup k (v : A) ps : NoDup ps.*1 -> NoDup (prop_set k v ps).*1.
Proof.
  intros Hnd. rewrite prop_set_keys. case_bool_decide as Hin; [done|].
  apply NoDup_app. split_and!; [done | | apply NoDup_singleton].
  intros x Hx Hx'. apply list_elem_of_singleton in Hx'. by subst.
Qed.

Lemma prop_lookup_set_ne k k' (v : A) ps :
  k' ≠ k -> prop_lookup k' (prop_set k v ps) = prop_lookup k' ps.
Proof.
  intros Hne. induction ps as [|[k1 v1] ps IH]; csimpl.
  - rewrite bool_decide_false; done.
  - case_bool_decide; subst; csimpl.
    + rewrite !bool_decide_false; done.
    + by rewrite IH.
Qed.

Lemma prop_lookup_set_eq k (v : A) ps :
  NoDup ps.*1 -> prop_lookup k (prop_set k v ps) = Some v.
Proof.
  induction ps as [|[k1 v1] ps IH]; csimpl; intros Hnd.
  - by rewrite bool_decide_true.
  - apply NoDup_cons in Hnd as [Hnotin Hnd].
    case_bool_decide; subst; csimpl.
    + apply prop_lookup_None in Hnotin. rewrite Hnotin. by rewrite bool_decide_true.
    + by rewrite IH.
Qed.

Lemma assign_cons (t s : list (text * A)) k (v : A) :
  assign t ((k, v) :: s) = assign (prop_set k v t) s.
Proof. reflexivity. Qed.

Lemma assign_NoDup (t s : list (text * A)) : NoDup t.*1 -> NoDup (assign t s).*1.
Proof.
  revert t. induction s as [|[k v] s IH]; intros t Hnd; [done|].
  rewrite assign_cons. apply IH. by apply prop_set_NoDup.
Qed.

Lemma prop_lookup_assign k (t s : list (text * A)) :
  NoDup t.*1 ->
  prop_lookup k (assign t s) =
    match prop_lookup k s with
    | Some v => Some v
    | None => prop_lookup k t
    end.
Proof.
  revert t. induction s as [|[k1 v1] s IH]; intros t Hnd; [done|].
  rewrite assign_cons, IH by by apply prop_set_NoDup.
  csimpl. destruct (prop_lookup k s); [done|].
  case_bool_decide; subst.
  - by apply prop_lookup_set_eq.
  - by apply prop_lookup_set_ne.
Qed.
End PropLemmas.

Lemma persist_props_keys ps k : k ∈ (persist_props ps).*1 -> k ∈ ps.*1.
Proof.
  induction ps as [|[k1 j] ps IH]; [done|].
  destruct j as [|[v|]|v]; csimpl; rewrite ?elem_of_cons; intuition.
Qed.

Lemma prop_lookup_cons {A : Type} k k1 (x : A) ps :
  prop_lookup k ((k1, x) :: ps) =
    match prop_lookup k ps with
    | Some y => Some y
    | None => if bool_decide (k1 = k) then Some x else None
    end.
Proof. reflexivity. Qed.

Lemma persist_props_cons k j ps :
  persist_props ((k, j) :: ps) =
    match serial_of j with
    | Some v => (k, v) :: persist_props ps
    | None => persist_props ps
    end.
Proof. by destruct j as [|[v|]|v]. Qed.

Lemma prop_lookup_persist k ps :
  NoDup ps.*1 -> prop_lookup k (persist_props ps) = prop_lookup k ps ≫= serial_of.
Proof.
  induction ps as [|[k1 j] ps IH]; intros Hnd; [done|].
  rewrite fmap_cons in Hnd. apply NoDup_cons in Hnd as [Hnotin Hnd].
  specialize (IH Hnd). rewrite persist_props_cons, prop_lookup_cons.
  destruct (decide (k1 = k)) as [->|Hne].
  - assert (prop_lookup k ps = None) as Hn by by apply prop_lookup_None.
    assert (prop_lookup k (persist_props ps) = None) as Hn'.
    { apply prop_lookup_None. intros Hin. by apply persist_props_keys in Hin. }
    rewrite Hn, bool_decide_true by done. csimpl.
    destruct (serial_of j); [|done].
    by rewrite prop_lookup_cons, Hn', bool_decide_true.
  - rewrite bool_decide_false by done.
    destruct (serial_of j).
    + rewrite prop_lookup_cons, IH, bool_decide_false by done.
      destruct (prop_lookup k ps) as [j0|]; csimpl; [by destruct (serial_of j0) | done].
    + rewrite IH.
      destruct (prop_lookup k ps) as [j0|]; csimpl; [by destruct (serial_of j0) | done].
Qed.

Lemma prop_lookup_JVal k (ps : list (text * value)) :
  prop_lookup k (map (fun kv => (kv.1, JVal kv.2)) ps) = JVal <$> prop_lookup k ps.
Proof.
  induction ps as [|[k1 v] ps IH]; csimpl; [done|].
  rewrite IH. destruct (prop_lookup k ps); csimpl; [done|]. by case_bool_decide.
Qed.

Lemma spread_NoDup v : NoDup (spread v).*1.
Proof. apply assign_NoDup. constructor. Qed.

Lemma prop_lookup_spread k v :
  prop_lookup k (spread v) = JVal <$> prop_lookup k (own_props v).
Proof.
  unfold spread. rewrite prop_lookup_assign by constructor.
  rewrite prop_lookup_JVal. by destruct (prop_lookup k (own_props v)).
Qed.

Lemma prop_lookup_spread_onto k t v :
  NoDup t.*1 ->
  prop_lookup k (spread_onto t v) =
    match prop_lookup k (own_props v) with
    | Some x => Some (JVal x)
    | None => prop_lookup k t
    end.
Proof.
  intros Hnd. unfold spread_onto. rewrite prop_lookup_assign by done.
  rewrite prop_lookup_JVal. by destruct (prop_lookup k (own_props v)).
Qed.

(** ** Computations that write no row *)

Lemma same_rows_refl w : same_rows w w.
Proof. by repeat split. Qed.

Lemma same_rows_trans w1 w2 w3 : same_rows w1 w2 -> same_rows w2 w3 -> same_rows w1 w3.
Proof. intros (?&?&?) (?&?&?). repeat split; congruence. Qed.

Lemma quiet_ret {A} (a : A) : quiet (mret a).
Proof. intros w r w' [= <- <-]. apply same_rows_refl. Qed.

Lemma quiet_throw {A} e : quiet (@throw A e).
Proof. intros w r w' [= <- <-]. apply same_rows_refl. Qed.

Lemma quiet_lift {A} (x : result A) : quiet (lift x).
Proof. intros w r w' [= <- <-]. apply same_rows_refl. Qed.

Lemma quiet_bind {A B} (m : M A) (f : A -> M B) :
  quiet m -> (forall a, quiet (f a)) -> quiet (m ≫= f).
Proof.
  intros Hm Hf w r w' H. unfold mbind, M_bind in H.
  destruct (m w) as [[a|e] w1] eqn:Hmw.
  - eapply same_rows_trans; [by eapply Hm | by eapply Hf].
  - injection H as <- <-. by eapply Hm.
Qed.

Lemma quiet_try_catch {A} (m : M A) (h : error -> M A) :
  quiet m -> (forall e, quiet (h e)) -> quiet (try_catch m h).
Proof.
  intros Hm Hh w r w' H. unfold try_catch in H.
  destruct (m w) as [[a|e] w1] eqn:Hmw.
  - injection H as <- <-. by eapply Hm.
  - eapply same_rows_trans; [by eapply Hm | by eapply Hh].
Qed.

Lemma quiet_console_log msg : quiet (console_log msg).
Proof. intros w r w' [= <- <-]. by repeat split. Qed.
Lemma quiet_console_warn msg : quiet (console_warn msg).
Proof. intros w r w' [= <- <-]. by repeat split. Qed.
Lemma quiet_console_error msg : quiet (console_error msg).
Proof. intros w r w' [= <- <-]. by repeat split. Qed.
Lemma quiet_get_world : quiet get_world.
Proof. intros w r w' [= <- <-]. by repeat split. Qed.
Lemma quiet_read_clock E : quiet (read_clock E).
Proof. intros w r w' [= <- <-]. by repeat split. Qed.
Lemma quiet_create E m q n : quiet (aiService.create E m q n).
Proof. intros w r w' [= <- <-]. by repeat split. Qed.

Create HintDb quiet.
#[local] Hint Resolve quiet_ret quiet_throw quiet_lift quiet_console_log quiet_console_warn
  quiet_console_error quiet_get_world quiet_read_clock quiet_create : quiet.

Ltac quiet_step :=
  first
    [ apply quiet_bind; [|intros ?]
    | apply quiet_try_catch; [|intros ?]
    | progress eauto with quiet
    | match goal with |- quiet (match ?x with _ => _ end) => destruct x end
    | match goal with |- quiet (if ?x then _ else _) => destruct x end
    | match goal with |- quiet (let '(_, _) := ?x in _) => destruct x end ].

Lemma quiet_parsePortfolioContent c : quiet (aiService._parsePortfolioContent c).
Proof. unfold aiService._parsePortfolioContent. repeat quiet_step. Qed.

Lemma quiet_generateWithFallback E s p : quiet (aiService._generateWithFallback E s p).
Proof.
  unfold aiService._generateWithFallback.
  repeat first [apply quiet_parsePortfolioContent | quiet_step].
Qed.

Lemma quiet_ai_generatePortfolio E s p : quiet (aiService.generatePortfolio E s p).
Proof.
  unfold aiService.generatePortfolio.
  repeat first [apply quiet_parsePortfolioContent | apply quiet_generateWithFallback | quiet_step].
Qed.

Lemma quiet_enhanceSection E c s p ctx : quiet (aiService.enhanceSection E c s p ctx).
Proof. unfold aiService.enhanceSection. repeat quiet_step. Qed.

(** ** The model response parser *)

Lemma parsePortfolioContent_run content_ w :
  exists w',
    aiService._parsePortfolioContent content_ w = (Ok (recovered content_), w')
    /\ same_rows w w' /\ calls w' = calls w /\ clock_reads w' = clock_reads w.
Proof.
  unfold aiService._parsePortfolioContent, recovered, JSON_parse_or_throw.
  cbv [try_catch lift mbind M_bind mret M_ret console_error modify].
  destruct (JSON_parse content_) as [v|]; [eexists; split; [done | by repeat split]|].
  destruct (aiService.json_block content_) as [body|]; csimpl.
  - destruct (JSON_parse body) as [v|]; eexists; (split; [done | by repeat split]).
  - eexists; (split; [done | by repeat split]).
Qed.

(** ** The source loop and the console *)

Section SourceFacts.
Import portfolioGenerator.

Lemma console_apart_refl w : console_apart w w.
Proof. by repeat split. Qed.

Lemma console_apart_with_console e w : console_apart w (with_console e w).
Proof. by repeat split. Qed.

Lemma insensitive_ret {A} (a : A) : insensitive (mret a).
Proof. intros w w' r w1 Hw [= <- <-]. by eexists. Qed.

Lemma insensitive_throw {A} e : insensitive (@throw A e).
Proof. intros w w' r w1 Hw [= <- <-]. by eexists. Qed.

Lemma insensitive_lift {A} (x : result A) : insensitive (lift x).
Proof. intros w w' r w1 Hw [= <- <-]. by eexists. Qed.

Lemma insensitive_bind {A B} (m : M A) (f : A -> M B) :
  insensitive m -> (forall a, insensitive (f a)) -> insensitive (m ≫= f).
Proof.
  intros Hm Hf w w' r w1 Hw H. unfold mbind, M_bind in *.
  destruct (m w) as [[a|e] w2] eqn:Hmw.
  - destruct (Hm _ _ _ _ Hw Hmw) as (w2' & -> & Hw2). by eapply Hf.
  - injection H as <- <-.
    destruct (Hm _ _ _ _ Hw Hmw) as (w2' & -> & Hw2). by eexists.
Qed.

Lemma insensitive_try_catch {A} (m : M A) (h : error -> M A) :
  insensitive m -> (forall e, insensitive (h e)) -> insensitive (try_catch m h).
Proof.
  intros Hm Hh w w' r w1 Hw H. unfold try_catch in *.
  destruct (m w) as [[a|e] w2] eqn:Hmw.
  - injection H as <- <-.
    destruct (Hm _ _ _ _ Hw Hmw) as (w2' & -> & Hw2). by eexists.
  - destruct (Hm _ _ _ _ Hw Hmw) as (w2' & -> & Hw2). by eapply Hh.
Qed.

Ltac insensitive_prim :=
  intros w w' r w1 (Hp&Hi&Hl&Hc&Hk&?&?&?) [= <- <-];
  unfold console_log, console_warn, console_error, modify,
    aiService.create, portfolioGenerator.getComprehensiveUserData, read_clock;
  rewrite ?Hc, ?Hk;
  eexists; split; [reflexivity | repeat split; cbn; congruence].

Lemma insensitive_console_log msg : insensitive (console_log msg).
Proof. insensitive_prim. Qed.
Lemma insensitive_console_warn msg : insensitive (console_warn msg).
Proof. insensitive_prim. Qed.
Lemma insensitive_console_error msg : insensitive (console_error msg).
Proof. insensitive_prim. Qed.
Lemma insensitive_create E m q n : insensitive (aiService.create E m q n).
Proof. insensitive_prim. Qed.
Lemma insensitive_github E u t : insensitive (portfolioGenerator.getComprehensiveUserData E u t).
Proof. insensitive_prim. Qed.

Create HintDb insensitive.
#[local] Hint Resolve insensitive_ret insensitive_throw insensitive_lift
  insensitive_console_log insensitive_console_warn insensitive_console_error
  insensitive_create insensitive_github : insensitive.

Ltac insensitive_step :=
  first
    [ apply insensitive_bind; [|intros ?]
    | apply insensitive_try_catch; [|intros ?]
    | progress eauto with insensitive
    | match goal with |- insensitive (match ?x with _ => _ end) => destruct x end
    | match goal with |- insensitive (if ?x then _ else _) => destruct x end ].

Lemma insensitive_process_one E s : insensitive (process_one E s).
Proof.
  unfold process_one, _processGitHubSource, _processResumeSource, _processPromptSource,
    _processLinkedInSource, aiService.parseResumeContent.
  repeat insensitive_step.
Qed.

Lemma insensitive_processSources E l : insensitive (_processSources E l).
Proof.
  induction l as [|s l IH]; cbn [_processSources].
  - apply insensitive_ret.
  - repeat first [apply insensitive_process_one | apply IH | insensitive_step].
Qed.

(** The loop never throws: each source is handled inside its own [try]. *)
Lemma processSources_returns E l w :
  exists out w', _processSources E l w = (Ok out, w').
Proof.
  revert w. induction l as [|s l IH]; intros w; cbn [_processSources].
  - by do 2 eexists.
  - cbv [mbind M_bind try_catch mret M_ret console_error modify].
    destruct (process_one E s w) as [[p|e] w1].
    + destruct (IH w1) as (out & w' & ->). by do 2 eexists.
    + match goal with |- context [_processSources E l ?w0] =>
        destruct (IH w0) as (out & w' & ->) end.
      by do 2 eexists.
Qed.

Lemma processSources_app E l1 l2 w out1 w1 out2 w2 :
  _processSources E l1 w = (Ok out1, w1) ->
  _processSources E l2 w1 = (Ok out2, w2) ->
  _processSources E (l1 ++ l2) w = (Ok (out1 ++ out2), w2).
Proof.
  revert w out1. induction l1 as [|s l1 IH]; intros w out1 H1 H2.
  - injection H1 as <- <-. done.
  - cbn [_processSources app] in *.
    cbv [mbind M_bind try_catch mret M_ret console_error modify] in *.
    destruct (process_one E s w) as [[p|e] w0].
    + destruct (processSources_returns E l1 w0) as (o & w' & Hrun).
      rewrite Hrun in H1. injection H1 as <- <-.
      by rewrite (IH _ _ Hrun H2).
    + match type of H1 with context [_processSources E l1 ?w0] =>
        destruct (processSources_returns E l1 w0) as (o & w' & Hrun) end.
      rewrite Hrun in H1. injection H1 as <- <-.
      by rewrite (IH _ _ Hrun H2).
Qed.

Lemma process_one_unknown E s w :
  ~ known_type (source_type s) ->
  process_one E s w
  = (Ok s, with_console {| level := LevelWarn;
                            line := txt "Unknown source type: " ++ source_type s |} w).
Proof.
  intros Hk. unfold process_one, known_type in *.
  rewrite !bool_decide_false by tauto. by destruct s.
Qed.

End SourceFacts.

(** ** Rendering *)

Section RenderFacts.
Import templateEngine.

Ltac run_render :=
  cbv [generateHTML _prepareTemplateData _getTemplateCSS _getTemplateJS read_or_empty
       try_catch lift mbind M_bind mret M_ret console_log console_error modify throw
       get_world read_clock].

Lemma generateHTML_frame E c tid w : render_frame w (generateHTML E c tid w).2.
Proof.
  run_render. cbn [compiledTemplates with_console].
  destruct (compiledTemplates w !! tid) as [t|]; [|by repeat split].
  destruct (has_items E c (txt "projects")); [|by repeat split].
  destruct (has_items E c (txt "experience")); [|by repeat split].
  destruct (has_items E c (txt "education")); [|by repeat split].
  cbn [result_bind].
  match goal with |- context [t ?r ?d] => destruct (t r d) end; by repeat split.
Qed.

Lemma generateHTML_determined E c tid w1 w2 :
  compiledTemplates w1 !! tid = compiledTemplates w2 !! tid ->
  templateConfigs w1 !! tid = templateConfigs w2 !! tid ->
  files w1 !! (tid, txt "style.css") = files w2 !! (tid, txt "style.css") ->
  files w1 !! (tid, txt "script.js") = files w2 !! (tid, txt "script.js") ->
  full_year (clock E (clock_reads w1)) = full_year (clock E (clock_reads w2)) ->
  (forall t data, compiledTemplates w1 !! tid = Some t ->
     t (Math_random E (clock_reads w1)) data
     = t (Math_random E (clock_reads w2)) data) ->
  (generateHTML E c tid w1).1 = (generateHTML E c tid w2).1.
Proof.
  intros Ht Hc Hcss Hjs Hy Hdraws. run_render.
  cbn [compiledTemplates templateConfigs with_console].
  rewrite Ht in Hdraws. rewrite Ht, Hc.
  destruct (compiledTemplates w2 !! tid) as [t|]; [|reflexivity].
  cbn beta iota. cbn [clock_reads with_console]. rewrite Hy.
  destruct (has_items E c (txt "projects")); [|reflexivity].
  destruct (has_items E c (txt "experience")); [|reflexivity].
  destruct (has_items E c (txt "education")); [|reflexivity].
  cbn [result_bind].
  rewrite (Hdraws t _ eq_refl).
  match goal with |- context [t ?r ?d] => destruct (t r d) end; [|reflexivity].
  cbn [files with_console with_clock_read fst].
  lazymatch goal with
  | |- Ok (HtmlSuccess (_createCompleteHTML _ _ ?x1 ?y1 _) _ _ _)
       = Ok (HtmlSuccess (_createCompleteHTML _ _ ?x2 ?y2 _) _ _ _) =>
      assert (x1 = x2) as -> by (f_equal; exact Hcss);
      assert (y1 = y2) as -> by (f_equal; exact Hjs)
  end.
  reflexivity.
Qed.

End RenderFacts.

(** ** Slugs *)

Section SlugFacts.
Import Portfolio_model.

(** Decimal numerals. *)

Lemma txt_inj s1 s2 : txt s1 = txt s2 -> s1 = s2.
Proof.
  unfold txt. intros H.
  rewrite <- (String.string_of_list_ascii_of_string s1), <- (String.string_of_list_ascii_of_string s2).
  f_equal. revert H. generalize (String.list_ascii_of_string s1) (String.list_ascii_of_string s2).
  induction l as [|a l IH]; intros [|b l'] H; try done.
  injection H as Hab Hl. f_equal; [|by apply IH].
  rewrite <- (Ascii.ascii_N_embedding a), <- (Ascii.ascii_N_embedding b). by rewrite Hab.
Qed.

Lemma decimal_inj n m : decimal n = decimal m -> n = m.
Proof.
  unfold decimal. intros H%txt_inj.
  apply Unsigned.to_uint_inj.
  assert (Some (Nat.to_uint n) = Some (Nat.to_uint m)) as [= ->]; [|done].
  by rewrite <- !NilEmpty.usu, H.
Qed.

Lemma uint_digits d : Forall (fun c => is_digit c = true) (txt (NilEmpty.string_of_uint d)).
Proof. induction d; constructor; done. Qed.

Lemma decimal_digits n : Forall (fun c => is_digit c = true) (decimal n).
Proof. apply uint_digits. Qed.

Lemma numbered_inj base j k : numbered base j = numbered base k -> j = k.
Proof.
  unfold numbered. intros H. apply app_inv_head in H.
  injection H as H. by apply decimal_inj.
Qed.

Lemma numbered_not_base base k : numbered base k ≠ base.
Proof.
  unfold numbered. intros H. apply (f_equal length) in H.
  rewrite length_app in H. cbn in H. lia.
Qed.

Lemma candidate_inj base j k : candidate base j = candidate base k -> j = k.
Proof.
  destruct j, k; cbn; intros H; try done.
  - symmetry in H. by apply numbered_not_base in H.
  - by apply numbered_not_base in H.
  - by apply numbered_inj in H.
Qed.

(** Looking a slug up. *)

Lemma findByUserAndSlug_run u s w :
  exists hit, findByUserAndSlug u s w = (Ok hit, w) /\ (is_Some hit <-> taken w u s).
Proof.
  unfold findByUserAndSlug. eexists. split; [done|].
  destruct (list_find _ _) as [[i [id p]]|] eqn:Hf; csimpl.
  - split; [intros _|by eauto].
    apply list_find_Some in Hf as (Hl & [Hu Hs] & _).
    apply list_elem_of_lookup_2, elem_of_map_to_list in Hl. by exists id, p.
  - split; [by intros []|]. intros (id & p & Hl & Hu & Hs).
    apply list_find_None in Hf. rewrite Forall_forall in Hf.
    apply elem_of_map_to_list in Hl. by destruct (Hf _ Hl).
Qed.

Lemma taken_dec w u s : taken w u s \/ ~ taken w u s.
Proof.
  destruct (findByUserAndSlug_run u s w) as ([hit|] & _ & Hiff).
  - left. by apply Hiff.
  - right. intros Ht. apply Hiff in Ht. by destruct Ht.
Qed.

(** There are no more taken candidates than rows. *)
Lemma taken_candidates_bound w u base i :
  (forall k, (k < i)%nat -> taken w u (candidate base k)) ->
  (i <= size (portfolios w))%nat.
Proof.
  intros Hall.
  rewrite <- length_map_to_list.
  rewrite <- (length_fmap (fun row : nat * Portfolio => slug row.2)).
  replace i with (length (candidate base <$> seq 0 i)) at 1
    by (by rewrite length_fmap, length_seq).
  apply submseteq_length, NoDup_submseteq.
  - apply NoDup_fmap_2; [|apply NoDup_seq]. intros j k. apply candidate_inj.
  - intros s (k & -> & Hk)%list_elem_of_fmap. apply elem_of_seq in Hk.
    destruct (Hall k) as (id & p & Hl & _ & Hs); [lia|].
    apply list_elem_of_fmap. exists (id, p). split; [done|].
    by apply elem_of_map_to_list.
Qed.

(** The loop. *)

Lemma slug_loop_spec fuel u base j i w :
  (j <= i)%nat ->
  (forall k, (j <= k < i)%nat -> taken w u (candidate base k)) ->
  ~ taken w u (candidate base i) ->
  (i - j < fuel)%nat ->
  slug_loop fuel u base (candidate base j) (S j) w = (Ok (candidate base i), w).
Proof.
  revert j. induction fuel as [|fuel IH]; intros j Hji Htaken Hfree Hfuel; [lia|].
  cbn [slug_loop]. unfold mbind, M_bind.
  destruct (findByUserAndSlug_run u (candidate base j) w) as (hit & -> & Hiff).
  destruct hit as [row|].
  - assert (j ≠ i) as Hne.
    { intros ->. apply Hfree, Hiff. by eexists. }
    change (numbered base (S j)) with (candidate base (S j)).
    apply IH; [lia | | done | lia]. intros k Hk. apply Htaken. lia.
  - assert (j = i) as ->; [|done].
    destruct (decide (j = i)) as [|Hne]; [done|].
    assert (taken w u (candidate base j)) as Ht by (apply Htaken; lia).
    apply Hiff in Ht. by destruct Ht.
Qed.

(** Some candidate among the first [size + 1] is free. *)
Lemma least_free_candidate w u base :
  exists i, (i <= size (portfolios w))%nat
    /\ ~ taken w u (candidate base i)
    /\ forall k, (k < i)%nat -> taken w u (candidate base k).
Proof.
  assert (forall n, (forall k, (k < n)%nat -> taken w u (candidate base k))
                    \/ exists i, (i < n)%nat /\ ~ taken w u (candidate base i)
                         /\ forall k, (k < i)%nat -> taken w u (candidate base k)) as Hsearch.
  { induction n as [|n [IH|IH]].
    - left. lia.
    - destruct (taken_dec w u (candidate base n)) as [Ht|Hf].
      + left. intros k Hk. destruct (decide (k = n)) as [->|]; [done|]. apply IH. lia.
      + right. exists n. split_and!; [lia | done | done].
    - right. destruct IH as (i & ? & ? & ?). exists i. split_and!; [lia | done | done]. }
  destruct (Hsearch (S (size (portfolios w)))) as [Hall|(i & Hi & Hfree & Hbelow)].
  - apply taken_candidates_bound in Hall. lia.
  - exists i. split_and!; [lia | done | done].
Qed.

(** [generateSlug] returns the first candidate that the owner does not
    hold, and leaves the state as it was. *)
Lemma generateSlug_spec u t w :
  exists i,
    generateSlug u t w = (Ok (candidate (baseSlug t) i), w)
    /\ ~ taken w u (candidate (baseSlug t) i)
    /\ forall k, (k < i)%nat -> taken w u (candidate (baseSlug t) k).
Proof.
  destruct (least_free_candidate w u (baseSlug t)) as (i & Hi & Hfree & Hbelow).
  exists i. split_and!; [|done|done].
  unfold generateSlug. cbv [mbind M_bind get_world].
  apply (slug_loop_spec _ u (baseSlug t) 0 i w); [lia | | done | lia].
  intros k Hk. apply Hbelow. lia.
Qed.

(** The characters of a slug. *)

Lemma slug_unit_ascii c : slug_unit c = true -> c < 128.
Proof.
  unfold slug_unit, is_alnum, is_digit.
  rewrite !orb_true_iff, !andb_true_iff, !N.leb_le, !N.eqb_eq. lia.
Qed.

Lemma validator_length_ascii s :
  Forall (fun c => c < 128) s -> validator_length s = length s.
Proof.
  induction 1 as [|c s Hc Hs IH]; [done|].
  cbn [validator_length length].
  replace ((c =? 65039) || (c =? 65038)) with false
    by (symmetry; apply orb_false_intro; apply N.eqb_neq; lia).
  destruct s as [|d s']; [done|].
  replace (is_high_surrogate c) with false
    by (symmetry; unfold is_high_surrogate; apply andb_false_intro1, N.leb_gt; lia).
  cbn [andb]. by rewrite IH.
Qed.

Lemma hyphenate_units s :
  Forall (fun c => is_alnum c || is_space c = true) s ->
  Forall (fun c => slug_unit c = true) (hyphenate s).
Proof.
  induction 1 as [|c s Hc Hs IH]; [constructor|].
  cbn [hyphenate]. destruct (is_space c) eqn:Hsp.
  - destruct s as [|d s']; [by repeat constructor|].
    destruct (is_space d); [done|]. by constructor.
  - constructor; [|done]. unfold slug_unit. rewrite orb_false_r in Hc. by rewrite Hc.
Qed.

Lemma baseSlug_units t : Forall (fun c => slug_unit c = true) (baseSlug t).
Proof.
  unfold baseSlug. apply Forall_take, hyphenate_units.
  unfold strip_other. apply Forall_forall. intros c Hc.
  apply list_elem_of_filter in Hc as [Hc _]. by apply Is_true_true in Hc.
Qed.

Lemma baseSlug_length t : (length (baseSlug t) <= 50)%nat.
Proof. unfold baseSlug. rewrite length_take. lia. Qed.

Lemma candidate_units base k :
  Forall (fun c => slug_unit c = true) base ->
  Forall (fun c => slug_unit c = true) (candidate base k).
Proof.
  intros Hb. destruct k; [done|]. cbn [candidate]. unfold numbered.
  apply Forall_app. split; [done|]. constructor; [done|].
  eapply Forall_impl; [apply decimal_digits|].
  intros c Hc. unfold slug_unit, is_alnum. by rewrite Hc.
Qed.

Lemma candidate_nonempty base k : base ≠ [] -> candidate base k ≠ [].
Proof.
  intros Hb. destruct k; [done|]. cbn [candidate]. unfold numbered.
  intros H. apply app_eq_nil in H as [? _]. done.
Qed.

Lemma candidate_valid t k :
  baseSlug t ≠ [] ->
  (length (candidate (baseSlug t) k) <= 255)%nat ->
  len_between 1 255 (candidate (baseSlug t) k) = true
  /\ slug_pattern (candidate (baseSlug t) k) = true.
Proof.
  intros Hne Hlen.
  pose proof (candidate_units _ k (baseSlug_units t)) as Hu.
  pose proof (candidate_nonempty _ k Hne) as Hne'.
  split.
  - unfold len_between. rewrite validator_length_ascii.
    + destruct (candidate (baseSlug t) k); [done|]. cbn [length] in *.
      apply andb_true_intro. split; [apply Nat.leb_le; lia | by apply Nat.leb_le].
    + eapply Forall_impl; [done|]. apply slug_unit_ascii.
  - unfold slug_pattern. rewrite bool_decide_false by done. cbn [negb andb].
    apply forallb_forall. intros c Hc. rewrite Forall_forall in Hu.
    apply Hu. by apply list_elem_of_In.
Qed.

(** Creating a row. *)

Lemma taken_insert w u s p :
  taken (with_portfolios (insert (fresh (dom (portfolios w))) p) w) u s
  <-> taken w u s \/ (user_id p = u /\ slug p = s).
Proof.
  pose proof (is_fresh (dom (portfolios w))) as Hfresh%not_elem_of_dom.
  unfold taken. cbn [portfolios with_portfolios]. split.
  - intros (id & q & Hl & Hu & Hs). apply lookup_insert_Some in Hl as [[<- <-]|[Hne Hl]].
    + by right.
    + left. by exists id, q.
  - intros [(id & q & Hl & Hu & Hs)|[Hu Hs]].
    + exists id, q. split; [|done]. rewrite lookup_insert_ne; [done|]. congruence.
    + eexists _, p. split; [apply lookup_insert_eq | done].
Qed.

Lemma create_portfolio_run u t w j :
  len_between 1 255 t = true ->
  baseSlug t ≠ [] ->
  (length (candidate (baseSlug t) j) <= 255)%nat ->
  (forall k, (k < j)%nat -> taken w u (candidate (baseSlug t) k)) ->
  ~ taken w u (candidate (baseSlug t) j) ->
  exists p,
    routes.create_portfolio u t None None w
    = (Ok (routes.Created (fresh (dom (portfolios w))) p),
       with_portfolios (insert (fresh (dom (portfolios w))) p) w)
    /\ user_id p = u /\ slug p = candidate (baseSlug t) j.
Proof.
  intros Ht Hne Hlen Hbelow Hfree.
  destruct (generateSlug_spec u t w) as (i & Hgen & Hifree & Hibelow).
  assert (i = j) as ->.
  { destruct (Nat.lt_trichotomy i j) as [Hlt|[->|Hgt]]; [|done|].
    - by destruct Hifree; apply Hbelow.
    - by destruct Hfree; apply Hibelow. }
  destruct (candidate_valid t j Hne Hlen) as [Hv1 Hv2].
  unfold routes.create_portfolio, create.
  cbv [try_catch mbind M_bind]. rewrite Hgen.
  cbn [new_title new_slug new_user_id]. rewrite Ht, Hv1, Hv2. cbn [negb].
  cbv [mbind M_bind].
  destruct (findByUserAndSlug_run u (candidate (baseSlug t) j) w) as (hit & -> & Hiff).
  destruct hit as [row|].
  { destruct Hfree. apply Hiff. by eexists. }
  eexists. split; [reflexivity|]. done.
Qed.

Lemma create_many_from u t n : forall j w,
  len_between 1 255 t = true ->
  baseSlug t ≠ [] ->
  (forall k, (k < j + n)%nat -> (length (candidate (baseSlug t) k) <= 255)%nat) ->
  (forall k, (k < j)%nat -> taken w u (candidate (baseSlug t) k)) ->
  (forall k, (j <= k < j + n)%nat -> ~ taken w u (candidate (baseSlug t) k)) ->
  exists replies w',
    create_many n u t w = (Ok replies, w')
    /\ created_slug <$> replies = (fun k => Some (candidate (baseSlug t) k)) <$> seq j n.
Proof.
  induction n as [|n IH]; intros j w Ht Hne Hlen Hbelow Hfree.
  - by exists [], w.
  - destruct (create_portfolio_run u t w j Ht Hne) as (p & Hrun & Hu & Hs);
      [apply Hlen; lia | done | apply Hfree; lia |].
    cbn [create_many]. cbv [mbind M_bind]. rewrite Hrun.
    destruct (IH (S j) (with_portfolios (insert (fresh (dom (portfolios w))) p) w))
      as (rs & w' & Hrs & Hslugs); [done | done | | | |].
    + intros k Hk. apply Hlen. lia.
    + intros k Hk. apply taken_insert.
      destruct (decide (k = j)) as [->|]; [by right|]. left. apply Hbelow. lia.
    + intros k Hk [Hold|[_ Heq]]%taken_insert.
      * by apply (Hfree k); [lia|].
      * rewrite Hs in Heq. apply candidate_inj in Heq. lia.
    + fold create_many in *. rewrite Hrs. exists (routes.Created (fresh (dom (portfolios w))) p :: rs), w'.
      split; [done|]. cbn [fmap list_fmap seq created_slug]. rewrite Hs. f_equal. exact Hslugs.
Qed.

(** The shape of a base slug. *)

Lemma lower_unit_small c :
  Forall (fun d => (65 <=? d) && (d <=? 90) = false) (lower_unit c).
Proof.
  unfold lower_unit.
  destruct ((65 <=? c) && (c <=? 90)) eqn:Hcap.
  - apply andb_true_iff in Hcap as [H1%N.leb_le H2%N.leb_le].
    constructor; [|constructor].
    apply andb_false_intro2, N.leb_gt. lia.
  - destruct (c =? 8490) eqn:Hk; [by repeat constructor|].
    destruct (c =? 304) eqn:Hi; [by repeat constructor|].
    by repeat constructor.
Qed.

Lemma toLowerCase_small t :
  Forall (fun d => (65 <=? d) && (d <=? 90) = false) (toLowerCase t).
Proof.
  unfold toLowerCase. induction t as [|c t IH]; [constructor|].
  cbn [flat_map]. apply Forall_app. split; [apply lower_unit_small | exact IH].
Qed.

Lemma hyphenate_Forall (Q : N -> Prop) s :
  Q 45 ->
  Forall (fun c => is_space c = false -> Q c) s ->
  Forall Q (hyphenate s).
Proof.
  intros Hq. induction 1 as [|c s Hc Hs IH]; [constructor|].
  cbn [hyphenate]. destruct (is_space c) eqn:Hsp.
  - destruct s as [|d s']; [by repeat constructor|].
    destruct (is_space d); [done|]. by constructor.
  - constructor; [by apply Hc | done].
Qed.

Lemma baseSlug_base_units t : forallb base_unit (baseSlug t) = true.
Proof.
  apply forallb_forall. intros c Hc%list_elem_of_In. revert c Hc.
  apply Forall_forall. unfold baseSlug. apply Forall_take.
  apply hyphenate_Forall; [done|].
  unfold strip_other. apply Forall_forall. intros c Hc Hsp.
  apply list_elem_of_filter in Hc as [Hkeep%Is_true_true Hin].
  pose proof (toLowerCase_small t) as Hsmall. rewrite Forall_forall in Hsmall.
  specialize (Hsmall c Hin). cbn beta in Hsmall.
  rewrite Hsp, orb_false_r in Hkeep.
  unfold base_unit. unfold is_alnum in Hkeep. rewrite Hsmall, orb_false_r in Hkeep.
  by rewrite Hkeep.
Qed.

Lemma hyphenate_head s c rest :
  Forall (fun d => d <> 45) s ->
  hyphenate s = c :: rest -> c = 45 ->
  exists d s', s = d :: s' /\ is_space d = true.
Proof.
  induction s as [|d s IH]; intros Hs Hh Hc; [done|].
  apply Forall_cons in Hs as [Hd Hs].
  cbn [hyphenate] in Hh. destruct (is_space d) eqn:Hsp; [by eauto|].
  injection Hh as <- _. done.
Qed.

Lemma hyphens_apart_cons c d s :
  hyphens_apart (c :: d :: s)
  = negb ((c =? 45) && (d =? 45)) && hyphens_apart (d :: s).
Proof. reflexivity. Qed.

Lemma hyphenate_apart s :
  Forall (fun d => d <> 45) s -> hyphens_apart (hyphenate s) = true.
Proof.
  induction s as [|c s IH]; intros Hs; [done|].
  apply Forall_cons in Hs as [Hc Hs]. specialize (IH Hs).
  cbn [hyphenate]. destruct (is_space c) eqn:Hsp.
  - destruct s as [|d s']; [done|].
    destruct (is_space d) eqn:Hd; [exact IH|].
    cbn [hyphenate] in *. rewrite Hd in *.
    apply Forall_cons in Hs as [Hd45 _].
    change (negb ((45 =? 45) && (d =? 45)) && hyphens_apart (d :: hyphenate s') = true).
    apply andb_true_intro. split; [|exact IH].
    apply negb_true_iff, andb_false_intro2, N.eqb_neq. done.
  - destruct (hyphenate s) as [|e rest] eqn:Hh; [done|].
    rewrite hyphens_apart_cons.
    apply andb_true_intro. split; [|exact IH].
    apply negb_true_iff, andb_false_intro1, N.eqb_neq. done.
Qed.

Lemma hyphens_apart_take n s : hyphens_apart s = true -> hyphens_apart (take n s) = true.
Proof.
  revert s. induction n as [|n IH]; intros s Hs; [done|].
  destruct s as [|c s]; [done|]. cbn [take].
  destruct s as [|d s']; [by destruct n|].
  rewrite hyphens_apart_cons in Hs. apply andb_true_iff in Hs as [H1 H2].
  specialize (IH _ H2). destruct n as [|n']; [done|].
  cbn [take] in *. rewrite hyphens_apart_cons. by rewrite H1.
Qed.

Lemma baseSlug_hyphens_apart t : hyphens_apart (baseSlug t) = true.
Proof.
  unfold baseSlug. apply hyphens_apart_take, hyphenate_apart.
  unfold strip_other. apply Forall_forall. intros c Hc ->.
  by apply list_elem_of_filter in Hc as [Hkeep _].
Qed.

Lemma hyphenate_nil s : hyphenate s = [] <-> s = [].
Proof.
  split; [|by intros ->].
  induction s as [|c s IH]; [done|]. cbn [hyphenate].
  destruct (is_space c); [|done].
  destruct s as [|d s']; [done|]. destruct (is_space d); [|done].
  intros H. by apply IH in H.
Qed.

Lemma lower_unit_trace c :
  existsb (fun d => is_alnum d || is_space d) (lower_unit c) = leaves_trace c.
Proof.
  unfold lower_unit, leaves_trace.
  destruct ((65 <=? c) && (c <=? 90)) eqn:Hcap.
  - apply andb_true_iff in Hcap as [H1%N.leb_le H2%N.leb_le].
    cbn [existsb]. unfold is_alnum.
    replace ((97 <=? c + 32) && (c + 32 <=? 122)) with true
      by (symmetry; apply andb_true_intro; split; apply N.leb_le; lia).
    replace ((65 <=? c) && (c <=? 90)) with true
      by (symmetry; apply andb_true_intro; split; apply N.leb_le; lia).
    by rewrite !orb_true_r.
  - destruct (c =? 8490) eqn:Hk; [by rewrite orb_true_r|].
    destruct (c =? 304) eqn:Hi; [by rewrite orb_true_r|].
    cbn [existsb]. by rewrite !orb_false_r.
Qed.

Lemma baseSlug_nil t : baseSlug t = [] <-> traceless t = true.
Proof.
  unfold baseSlug, traceless.
  assert (forall l : text, take 50 l = [] <-> l = []) as Htake
    by (intros [|? ?]; done).
  rewrite Htake, hyphenate_nil. unfold strip_other, toLowerCase.
  induction t as [|c t IH]; [done|].
  cbn [flat_map forallb]. unfold text in *. rewrite filter_app, andb_true_iff, <- IH.
  rewrite <- lower_unit_trace.
  split.
  - intros [H1 H2]%app_eq_nil. split; [|done].
    apply negb_true_iff. apply not_true_is_false. intros Hex.
    apply existsb_exists in Hex as (d & Hd%list_elem_of_In & Hkeep).
    assert (d ∈ @nil N) as Hin; [|by apply elem_of_nil in Hin].
    rewrite <- H1. apply list_elem_of_filter. split; [by apply Is_true_true | done].
  - intros [H1%negb_true_iff H2]. rewrite H2, app_nil_r.
    induction (lower_unit c) as [|d ds IHd]; [done|].
    cbn [existsb] in H1. apply orb_false_iff in H1 as [Hd Hds].
    rewrite filter_cons_False; [by apply IHd|].
    intros Hkeep%Is_true_true. cbn beta in Hkeep. congruence.
Qed.

Lemma small_or_digit_kept c :
  small_or_digit c = true ->
  lower_unit c = [c] /\ is_alnum c = true /\ is_space c = false.
Proof.
  unfold small_or_digit, lower_unit, is_alnum, is_digit, is_space.
  rewrite !orb_true_iff, !andb_true_iff, !N.leb_le. intros H.
  assert ((65 <=? c) && (c <=? 90) = false) as ->.
  { apply andb_false_iff. rewrite !N.leb_gt. lia. }
  assert ((c =? 8490) = false) as -> by (apply N.eqb_neq; lia).
  assert ((c =? 304) = false) as -> by (apply N.eqb_neq; lia).
  split; [done|]. split.
  - lia.
  - rewrite !orb_false_iff, !andb_false_iff, !N.leb_gt, !N.eqb_neq. lia.
Qed.

Lemma baseSlug_fixed t : forallb small_or_digit t = true -> baseSlug t = take 50 t.
Proof.
  intros Ht. unfold baseSlug. f_equal.
  induction t as [|c t IH]; [done|].
  cbn [forallb] in Ht. apply andb_true_iff in Ht as [Hc Ht].
  destruct (small_or_digit_kept c Hc) as (Hlow & Hal & Hsp).
  specialize (IH Ht). unfold toLowerCase in *. cbn [flat_map]. rewrite Hlow.
  cbn [app]. unfold strip_other in *. unfold text in *.
  rewrite filter_cons_True by (by rewrite Hal).
  cbn [hyphenate]. by rewrite Hsp, IH.
Qed.

(** A title of which nothing is left. *)

Lemma create_portfolio_unsluggable u t tid c w :
  baseSlug t = [] ->
  ~ taken w u [] ->
  exists w',
    routes.create_portfolio u t tid c w = (Ok routes.InternalServerError, w')
    /\ portfolios w' = portfolios w.
Proof.
  intros Hbase Hfree.
  destruct (generateSlug_spec u t w) as (i & Hgen & _ & Hbelow).
  assert (i = 0%nat) as ->.
  { destruct i as [|i]; [done|]. destruct Hfree.
    specialize (Hbelow 0%nat). rewrite Hbase in Hbelow. apply Hbelow. lia. }
  rewrite Hbase in Hgen. cbn [candidate] in Hgen.
  unfold routes.create_portfolio, create.
  cbv [try_catch mbind M_bind]. rewrite Hgen.
  cbn [new_title new_slug].
  destruct (len_between 1 255 t); cbn [negb]; by eexists.
Qed.

Lemma create_many_unsluggable u t n : forall w,
  baseSlug t = [] ->
  ~ taken w u [] ->
  exists w',
    create_many n u t w = (Ok (replicate n routes.InternalServerError), w')
    /\ portfolios w' = portfolios w.
Proof.
  induction n as [|n IH]; intros w Hbase Hfree; [by exists w|].
  destruct (create_portfolio_unsluggable u t None None w Hbase Hfree)
    as (w1 & Hrun & Hrows).
  destruct (IH w1 Hbase) as (w' & Hrest & Hrows').
  { unfold taken. by rewrite Hrows. }
  exists w'. split; [|congruence].
  cbn [create_many replicate]. cbv [mbind M_bind mret M_ret]. rewrite Hrun.
  fold create_many. by rewrite Hrest.
Qed.

End SlugFacts.

(** ** Enhancement *)

Section EnhanceFacts.
Import portfolioGenerator.
Local Opaque aiService.enhanceSection aiService.generatePortfolio txt decimal.

Lemma given_section_Some s : s ≠ [] -> given_section (Some s) = Some s.
Proof. intros. unfold given_section. by rewrite bool_decide_false. Qed.

Ltac run_in H :=
  cbv [mbind M_bind mret M_ret try_catch Date_now read_clock Portfolio_model.findByPk
         get_world modify throw lift console_log console_error
         Portfolio_model.updateContent Portfolio_model.save
         PortfolioIteration_model.create PortfolioIteration_model.markCompleted
         PortfolioIteration_model.markFailed
         PortfolioIteration_model.new_portfolio_id] in H.

Lemma enhancePortfolio_found (E : Env) (w w' : world) (pid : nat) (p : Portfolio)
    (userPrompt : text) (section : option text) r :
  portfolios w !! pid = Some p ->
  enhancePortfolio E pid userPrompt section w = (r, w') ->
  let iid := fresh (dom (iterations w)) in
  exists it,
    iterations w' = <[iid := it]> (iterations w)
    /\ portfolio_id it = Some pid
    /\ ((exists enhanced tokens time,
           enhanced_by E pid p section userPrompt (started w pid p userPrompt)
             enhanced tokens
           /\ r = Ok (EnhancementSuccess (merged p enhanced) (section_label section)
                        userPrompt tokens time)
           /\ portfolios w' = <[pid := merged p enhanced]> (portfolios w)
           /\ iteration_state it = completed
           /\ iteration_log w' = iteration_log w ++ [(iid, pending); (iid, completed)])
        \/ (exists msg,
              r = Ok (EnhancementFailure msg)
              /\ portfolios w' = portfolios w
              /\ iteration_state it = failed
              /\ iteration_log w' = iteration_log w ++ [(iid, pending); (iid, failed)])).
Proof.
  intros Hp H iid. unfold enhancePortfolio in H.
  run_in H. cbn [portfolios with_clock_read iterations] in H. rewrite Hp in H.
  fold iid in H.
  unfold enhanced_by.
  destruct (given_section section) as [s|] eqn:Hsec.
  - match type of H with context [aiService.enhanceSection ?E ?c ?s ?u ?ctx ?w0] =>
      destruct (aiService.enhanceSection E c s u ctx w0) as [[a|e] w1] eqn:Hai end.
    + pose proof (quiet_enhanceSection _ _ _ _ _ _ _ _ Hai) as (Hq1 & Hq2 & Hq3).
      cbn in Hq1, Hq2, Hq3.
      destruct (aiService.success a); cbn [negb] in H.
      * destruct (member_dyn E (aiService.ai_content a) s) as [picked|e] eqn:Hpick.
        -- injection H as <- <-. eexists. split; [|split]; [| |left].
           ++ cbn. rewrite Hq2. by rewrite insert_insert_eq.
           ++ done.
           ++ do 3 eexists. split_and!; [by do 3 eexists | done | | done |].
              ** cbn. by rewrite Hq1.
              ** cbn. rewrite Hq3. by rewrite <- !app_assoc.
        -- injection H as <- <-. eexists. split; [|split]; [| |right].
           ++ cbn. rewrite Hq2. by rewrite insert_insert_eq.
           ++ done.
           ++ eexists. split_and!; [done | | done |].
              ** cbn. by rewrite Hq1.
              ** cbn. rewrite Hq3. by rewrite <- !app_assoc.
      * injection H as <- <-. eexists. split; [|split]; [| |right].
        -- cbn. rewrite Hq2. by rewrite insert_insert_eq.
        -- done.
        -- eexists. split_and!; [done | | done |].
           ++ cbn. by rewrite Hq1.
           ++ cbn. rewrite Hq3. by rewrite <- !app_assoc.
    + pose proof (quiet_enhanceSection _ _ _ _ _ _ _ _ Hai) as (Hq1 & Hq2 & Hq3).
      cbn in Hq1, Hq2, Hq3.
      injection H as <- <-. eexists. split; [|split]; [| |right].
      * cbn. rewrite Hq2. by rewrite insert_insert_eq.
      * done.
      * eexists. split_and!; [done | | done |].
        -- cbn. by rewrite Hq1.
        -- cbn. rewrite Hq3. by rewrite <- !app_assoc.
  - match type of H with context [aiService.generatePortfolio ?E ?s ?u ?w0] =>
      destruct (aiService.generatePortfolio E s u w0) as [[a|e] w1] eqn:Hai end.
    + pose proof (quiet_ai_generatePortfolio _ _ _ _ _ _ Hai) as (Hq1 & Hq2 & Hq3).
      cbn in Hq1, Hq2, Hq3.
      destruct (aiService.success a); cbn [negb] in H.
      * injection H as <- <-. eexists. split; [|split]; [| |left].
        -- cbn. rewrite Hq2. by rewrite insert_insert_eq.
        -- done.
        -- do 3 eexists. split_and!; [by do 2 eexists | done | | done |].
           ++ cbn. by rewrite Hq1.
           ++ cbn. rewrite Hq3. by rewrite <- !app_assoc.
      * injection H as <- <-. eexists. split; [|split]; [| |right].
        -- cbn. rewrite Hq2. by rewrite insert_insert_eq.
        -- done.
        -- eexists. split_and!; [done | | done |].
           ++ cbn. by rewrite Hq1.
           ++ cbn. rewrite Hq3. by rewrite <- !app_assoc.
    + pose proof (quiet_ai_generatePortfolio _ _ _ _ _ _ Hai) as (Hq1 & Hq2 & Hq3).
      cbn in Hq1, Hq2, Hq3.
      injection H as <- <-. eexists. split; [|split]; [| |right].
      * cbn. rewrite Hq2. by rewrite insert_insert_eq.
      * done.
      * eexists. split_and!; [done | | done |].
        -- cbn. by rewrite Hq1.
        -- cbn. rewrite Hq3. by rewrite <- !app_assoc.
Qed.

Lemma enhancePortfolio_missing (E : Env) (w : world) (pid : nat)
    (userPrompt : text) (section : option text) :
  portfolios w !! pid = None ->
  enhancePortfolio E pid userPrompt section w
  = (Ok (EnhancementFailure (txt "Portfolio not found")),
     with_console {| level := LevelError; line := txt "Portfolio enhancement error:" |}
       (with_clock_read w)).
Proof.
  intros Hp. unfold enhancePortfolio.
  cbv [mbind M_bind mret M_ret try_catch Date_now read_clock Portfolio_model.findByPk
       throw console_error modify].
  cbn [portfolios with_clock_read]. by rewrite Hp.
Qed.

Lemma merged_lookup p enhanced k :
  NoDup enhanced.*1 ->
  prop_lookup k (own_props (content (merged p enhanced)))
  = match prop_lookup k enhanced with
    | Some j => serial_of j
    | None => prop_lookup k (own_props (content p))
    end.
Proof.
  intros Hnd. cbn [merged Portfolio_model.with_content content own_props].
  rewrite prop_lookup_persist by apply assign_NoDup, spread_NoDup.
  rewrite prop_lookup_assign by apply spread_NoDup.
  destruct (prop_lookup k enhanced) as [j|]; [done|].
  rewrite prop_lookup_spread. by destruct (prop_lookup k (own_props (content p))).
Qed.

Lemma preview_cached E pid w p html :
  portfolios w !! pid = Some p -> routes.cached p = Some html ->
  (routes.preview E pid w).1 = Ok (routes.SendHtml html).
Proof.
  intros Hp Hc. unfold routes.preview.
  cbv [mbind M_bind mret M_ret try_catch Portfolio_model.findByPk console_log modify].
  by rewrite Hp, Hc.
Qed.

End EnhanceFacts.

(** * The properties of the specification *)

(** ** C1: the portfolio parse *)

(** C1, as the code has it: for every raw model-output text the portfolio
    parse never throws and returns a document.  On the direct-parse path
    and on the fenced-code-block path the document is the parsed JSON value
    as it is, with no key added; on the final fallback path it is the fixed
    basic structure, whose keys are hero, about, projects and contact. *)
Theorem parsePortfolioContent_never_throws (content_ : text) (w : world) :
  exists doc w',
    aiService._parsePortfolioContent content_ w = (Ok doc, w')
    /\ match JSON_parse content_ with
       | Some v => doc = v
       | None =>
           match aiService.json_block content_ ≫= JSON_parse with
           | Some v => doc = v
           | None =>
               doc = aiService.basic_structure
               /\ map fst (own_props doc)
                  = [txt "hero"; txt "about"; txt "projects"; txt "contact"]
           end
       end.
Proof.
  destruct (parsePortfolioContent_run content_ w) as (w' & Hrun & _).
  exists (recovered content_), w'. split; [done|].
  unfold recovered. destruct (JSON_parse content_); [done|].
  destruct (aiService.json_block content_ ≫= JSON_parse); done.
Qed.

(** C1 as stated fails: a reply that is no JSON yields the basic structure,
    which has neither experience nor education, and a reply that is the
    JSON object with the single key hero is returned with that one key. *)
Lemma parse_result_can_lack_schema_keys :
  (aiService._parsePortfolioContent (txt "Sorry, I cannot help with that.")
     Examples.before).1
    = Ok aiService.basic_structure
  /\ has_key aiService.basic_structure (txt "experience") = false
  /\ has_key aiService.basic_structure (txt "education") = false
  /\ (aiService._parsePortfolioContent (jsn "{'hero':{'name':'Ada'}}") Examples.before).1
     = Ok (VObj [(txt "hero", VObj [(txt "name", VStr (txt "Ada"))])])
  /\ has_schema_keys (VObj [(txt "hero", VObj [(txt "name", VStr (txt "Ada"))])]) = false.
Proof. by vm_compute. Qed.

(** ** C2: the cached artifact *)

(** C2, as the code has it: a successful enhance call, with or without a
    section, leaves generated_html, generated_css and generated_js of the
    portfolio as they were, and a later preview of that portfolio sends the
    cached page whenever one is stored. *)
Theorem enhancement_keeps_cached_artifact (E : Env) (w : world) (pid : nat)
    (p : Portfolio) (userPrompt : text) (section : option text) :
  portfolios w !! pid = Some p ->
  match portfolioGenerator.enhancePortfolio E pid userPrompt section w with
  | (Ok (portfolioGenerator.EnhancementSuccess p' _ _ _ _), w') =>
      portfolios w' !! pid = Some p'
      /\ generated_html p' = generated_html p
      /\ generated_css p' = generated_css p
      /\ generated_js p' = generated_js p
      /\ forall html, routes.cached p = Some html ->
           (routes.preview E pid w').1 = Ok (routes.SendHtml html)
  | _ => True
  end.
Proof.
  intros Hp.
  destruct (portfolioGenerator.enhancePortfolio E pid userPrompt section w)
    as [r w'] eqn:Hrun.
  destruct (enhancePortfolio_found E w w' pid p userPrompt section r Hp Hrun)
    as (it & _ & _ & [(enh & tok & time & _ & -> & Hps & _)|(msg & -> & _)]); [|done].
  assert (portfolios w' !! pid = Some (merged p enh)) as Hp'
    by (rewrite Hps; apply lookup_insert_eq).
  split_and!; [done | done | done | done |].
  intros html Hc. by apply (preview_cached E pid w' (merged p enh)).
Qed.

Lemma enhancement_keeps_cached_artifact_witness :
  portfolios Examples.before !! 7%nat = Some Examples.stored
  /\ match Examples.whole_run with
     | (Ok (portfolioGenerator.EnhancementSuccess p' _ _ _ _), w') =>
         portfolios w' !! 7%nat = Some p'
         /\ generated_html p' = generated_html Examples.stored
         /\ generated_css p' = generated_css Examples.stored
         /\ generated_js p' = generated_js Examples.stored
         /\ forall html, routes.cached Examples.stored = Some html ->
              (routes.preview (Examples.steady Examples.contact_without_email) 7 w').1
              = Ok (routes.SendHtml html)
     | _ => True
     end.
Proof.
  split; [by vm_compute|].
  apply (enhancement_keeps_cached_artifact
           (Examples.steady Examples.contact_without_email) Examples.before 7
           Examples.stored Examples.request_text None); by vm_compute.
Defined.

(** C2 as stated fails: the enhancement succeeds and changes the document,
    yet generated_html still holds the page cached before it, and the next
    preview sends that page. *)
Lemma cached_artifact_survives_enhancement :
  Examples.succeeded Examples.whole_run.1 = true
  /\ Examples.document_after Examples.whole_run.2
     ≠ Examples.document_after Examples.before
  /\ generated_html <$> portfolios Examples.whole_run.2 !! 7%nat
     = Some (Some (txt "<old>"))
  /\ (routes.preview (Examples.steady Examples.contact_without_email) 7
        Examples.whole_run.2).1
     = Ok (routes.SendHtml (txt "<old>")).
Proof. split_and!; by vm_compute. Qed.

(** ** C3: rendering *)

(** C3, as the code has it: for a fixed document and template id, a render
    writes no row, no registry entry and no file, and two renders give the
    same result whenever the registry entry and the config of the template
    and its style.css and script.js on disk are the same, the clock shows
    the same calendar year at both, and the template makes the same page
    of equal data with what Math.random yields during the one call and
    during the other. *)
Theorem render_determined_by_its_reads (E : Env) (c : value) (tid : text)
    (w1 w2 : world) :
  compiledTemplates w1 !! tid = compiledTemplates w2 !! tid ->
  templateConfigs w1 !! tid = templateConfigs w2 !! tid ->
  files w1 !! (tid, txt "style.css") = files w2 !! (tid, txt "style.css") ->
  files w1 !! (tid, txt "script.js") = files w2 !! (tid, txt "script.js") ->
  full_year (clock E (clock_reads w1)) = full_year (clock E (clock_reads w2)) ->
  (forall t data, compiledTemplates w1 !! tid = Some t ->
     t (Math_random E (clock_reads w1)) data
     = t (Math_random E (clock_reads w2)) data) ->
  (templateEngine.generateHTML E c tid w1).1 = (templateEngine.generateHTML E c tid w2).1
  /\ render_frame w1 (templateEngine.generateHTML E c tid w1).2.
Proof.
  intros Ht Hc Hcss Hjs Hy Hdraws. split.
  - by apply generateHTML_determined.
  - apply generateHTML_frame.
Qed.

Lemma render_determined_by_its_reads_witness :
  compiledTemplates Examples.before !! txt "modern-dev"
    = compiledTemplates Examples.same_year_render.2 !! txt "modern-dev"
  /\ templateConfigs Examples.before !! txt "modern-dev"
     = templateConfigs Examples.same_year_render.2 !! txt "modern-dev"
  /\ files Examples.before !! (txt "modern-dev", txt "style.css")
     = files Examples.same_year_render.2 !! (txt "modern-dev", txt "style.css")
  /\ files Examples.before !! (txt "modern-dev", txt "script.js")
     = files Examples.same_year_render.2 !! (txt "modern-dev", txt "script.js")
  /\ full_year (clock (Examples.steady []) (clock_reads Examples.before))
     = full_year (clock (Examples.steady []) (clock_reads Examples.same_year_render.2))
  /\ (forall t data,
        compiledTemplates Examples.before !! txt "modern-dev" = Some t ->
        t (Math_random (Examples.steady []) (clock_reads Examples.before)) data
        = t (Math_random (Examples.steady [])
               (clock_reads Examples.same_year_render.2)) data)
  /\ (templateEngine.generateHTML (Examples.steady []) Examples.old_document
        (txt "modern-dev") Examples.before).1
     = (templateEngine.generateHTML (Examples.steady []) Examples.old_document
          (txt "modern-dev") Examples.same_year_render.2).1
  /\ render_frame Examples.before
       (templateEngine.generateHTML (Examples.steady []) Examples.old_document
          (txt "modern-dev") Examples.before).2.
Proof.
  assert (forall t data,
            compiledTemplates Examples.before !! txt "modern-dev" = Some t ->
            t (Math_random (Examples.steady []) (clock_reads Examples.before)) data
            = t (Math_random (Examples.steady [])
                   (clock_reads Examples.same_year_render.2)) data) as Hdraws.
  { intros t data Ht. unfold Examples.before in Ht. cbn [compiledTemplates] in Ht.
    apply lookup_singleton_Some in Ht as [_ <-]. reflexivity. }
  refine (conj _ (conj _ (conj _ (conj _ (conj _ (conj Hdraws _))))));
    [by vm_compute | by vm_compute | by vm_compute | by vm_compute | by vm_compute |].
  apply (render_determined_by_its_reads (Examples.steady []) Examples.old_document
           (txt "modern-dev") Examples.before Examples.same_year_render.2);
    [by vm_compute | by vm_compute | by vm_compute | by vm_compute | by vm_compute
    | exact Hdraws].
Defined.

(** C3 as stated fails: the same document rendered twice through the same
    template gives two different pages when the year turns between the two
    calls, because the template data carries current_year. *)
Lemma render_changes_with_the_year :
  Examples.first_render.1 ≠ Examples.second_render.1.
Proof. vm_compute. intros H. discriminate H. Qed.

(** The last condition is needed: in one and the same year, a template whose
    helper reads Math.random gives two different pages of the same
    document. *)
Lemma render_changes_with_the_draws :
  full_year (clock (Examples.steady []) (clock_reads Examples.night_sky))
  = full_year (clock (Examples.steady []) (clock_reads Examples.first_sky.2))
  /\ Examples.first_sky.1 ≠ Examples.second_sky.1.
Proof. split; [by vm_compute|]. vm_compute. intros H. discriminate H. Qed.

(** ** C4: enhancing the whole document *)

(** C4, as the code has it: an enhance call without a section merges the
    newly generated document over the existing one at the top level only.
    A top-level key of the new document replaces the old value whole; a
    top-level key the new document lacks keeps its old value.  So
    contact.email survives when the new document has no contact key. *)
Theorem whole_document_merge (E : Env) (w : world) (pid : nat) (p : Portfolio)
    (userPrompt : text) (section : option text) :
  portfolios w !! pid = Some p ->
  portfolioGenerator.given_section section = None ->
  match portfolioGenerator.enhancePortfolio E pid userPrompt section w with
  | (Ok (portfolioGenerator.EnhancementSuccess p' _ _ _ _), w') =>
      portfolios w' !! pid = Some p'
      /\ exists a wb,
           aiService.generatePortfolio E (whole_document_sources userPrompt)
             [(txt "existing_content", content p)] (started w pid p userPrompt)
           = (Ok a, wb)
           /\ forall k,
                prop_lookup k (own_props (content p'))
                = match prop_lookup k (own_props (aiService.ai_content a)) with
                  | Some v => Some v
                  | None => prop_lookup k (own_props (content p))
                  end
  | (_, w') => portfolios w' !! pid = Some p
  end.
Proof.
  intros Hp Hsec.
  destruct (portfolioGenerator.enhancePortfolio E pid userPrompt section w)
    as [r w'] eqn:Hrun.
  destruct (enhancePortfolio_found E w w' pid p userPrompt section r Hp Hrun)
    as (it & _ & _ & [(enh & tok & time & Hby & -> & Hps & _)|(msg & -> & Hps & _)]).
  - split; [rewrite Hps; apply lookup_insert_eq|].
    unfold enhanced_by in Hby. rewrite Hsec in Hby.
    destruct Hby as (a & wb & Hai & -> & _). exists a, wb. split; [done|].
    intros k.
    rewrite merged_lookup by apply assign_NoDup, spread_NoDup.
    rewrite prop_lookup_spread_onto by apply spread_NoDup.
    destruct (prop_lookup k (own_props (aiService.ai_content a))); [done|].
    rewrite prop_lookup_spread.
    by destruct (prop_lookup k (own_props (content p))).
  - by rewrite Hps.
Qed.

Lemma whole_document_merge_witness :
  portfolios Examples.before !! 7%nat = Some Examples.stored
  /\ portfolioGenerator.given_section None = None
  /\ match Examples.whole_run with
     | (Ok (portfolioGenerator.EnhancementSuccess p' _ _ _ _), w') =>
         portfolios w' !! 7%nat = Some p'
         /\ exists a wb,
              aiService.generatePortfolio (Examples.steady Examples.contact_without_email)
                (whole_document_sources Examples.request_text)
                [(txt "existing_content", content Examples.stored)]
                (started Examples.before 7 Examples.stored Examples.request_text)
              = (Ok a, wb)
              /\ forall k,
                   prop_lookup k (own_props (content p'))
                   = match prop_lookup k (own_props (aiService.ai_content a)) with
                     | Some v => Some v
                     | None => prop_lookup k (own_props (content Examples.stored))
                     end
     | (_, w') => portfolios w' !! 7%nat = Some Examples.stored
     end.
Proof.
  split_and!; [by vm_compute | done |].
  apply (whole_document_merge (Examples.steady Examples.contact_without_email)
           Examples.before 7 Examples.stored Examples.request_text None);
    by vm_compute.
Defined.

(** C4 as stated fails: the existing document has contact.email = a@x.com,
    the newly generated document has a contact object without email, and
    the persisted document has no contact.email any more. *)
Lemma shallow_merge_drops_email :
  Examples.succeeded Examples.whole_run.1 = true
  /\ Examples.email_of Examples.old_document = JVal (VStr (txt "a@x.com"))
  /\ Examples.email_of (recovered Examples.contact_without_email) = JUndefined
  /\ Examples.email_of <$> Examples.document_after Examples.whole_run.2
     = Some JUndefined.
Proof. by vm_compute. Qed.

(** ** C5: enhancing one section *)

(** C5: an enhance call with a section name replaces nothing but that
    section's key: every other top-level key of the persisted document has
    the value it had before (and a failed call leaves the whole document as
    it was). *)
Theorem section_enhancement_frame (E : Env) (w : world) (pid : nat) (p : Portfolio)
    (userPrompt s : text) :
  portfolios w !! pid = Some p ->
  s ≠ [] ->
  match portfolioGenerator.enhancePortfolio E pid userPrompt (Some s) w with
  | (Ok (portfolioGenerator.EnhancementSuccess p' _ _ _ _), w') =>
      portfolios w' !! pid = Some p'
      /\ forall k, k ≠ s ->
           prop_lookup k (own_props (content p')) = prop_lookup k (own_props (content p))
  | (_, w') => portfolios w' !! pid = Some p
  end.
Proof.
  intros Hp Hs.
  destruct (portfolioGenerator.enhancePortfolio E pid userPrompt (Some s) w)
    as [r w'] eqn:Hrun.
  destruct (enhancePortfolio_found E w w' pid p userPrompt (Some s) r Hp Hrun)
    as (it & _ & _ & [(enh & tok & time & Hby & -> & Hps & _)|(msg & -> & Hps & _)]).
  - split; [rewrite Hps; apply lookup_insert_eq|].
    intros k Hk. unfold enhanced_by in Hby. rewrite given_section_Some in Hby by done.
    destruct Hby as (a & wb & picked & _ & _ & -> & _).
    rewrite merged_lookup by apply prop_set_NoDup, spread_NoDup.
    rewrite prop_lookup_set_ne by done. rewrite prop_lookup_spread.
    by destruct (prop_lookup k (own_props (content p))).
  - by rewrite Hps.
Qed.

Lemma section_enhancement_frame_witness :
  portfolios Examples.before !! 7%nat = Some Examples.stored
  /\ txt "projects" ≠ []
  /\ match Examples.section_run with
     | (Ok (portfolioGenerator.EnhancementSuccess p' _ _ _ _), w') =>
         portfolios w' !! 7%nat = Some p'
         /\ forall k, k ≠ txt "projects" ->
              prop_lookup k (own_props (content p'))
              = prop_lookup k (own_props (content Examples.stored))
     | (_, w') => portfolios w' !! 7%nat = Some Examples.stored
     end.
Proof.
  split_and!; [by vm_compute | by vm_compute |].
  apply (section_enhancement_frame (Examples.steady Examples.new_projects)
           Examples.before 7 Examples.stored Examples.request_text (txt "projects"));
    by vm_compute.
Defined.

(** ** C6: slugs *)

(** C6, as the code has it.  The base slug is the title lower-cased,
    stripped of every code unit that is no ASCII letter, digit or white
    space, with each run of white space turned into one hyphen, and cut to
    50 code units: it is at most 50 long, consists of small ASCII letters,
    digits and hyphens of which no two are adjacent, is the title itself
    (cut to 50) when the title consists of small letters and digits, and is
    empty exactly when nothing of the title is left.  The slug is the first
    free candidate among base, base-1, base-2, ...  An owner who holds none
    of base, ..., base-(n-1) and posts the same title n times gets exactly
    these n distinct slugs, in this order, when the base is not empty; when
    it is empty every one of the n posts is answered 500 and no row is
    written, for the validators of the slug column refuse the empty
    slug. *)
Theorem identical_titles_slug_sequence (u t : text) (n : nat) (w : world) :
  len_between 1 255 t = true ->
  (forall k, (k < n)%nat ->
     (length (candidate (Portfolio_model.baseSlug t) k) <= 255)%nat) ->
  (forall k, (k < n)%nat -> ~ taken w u (candidate (Portfolio_model.baseSlug t) k)) ->
  ((length (Portfolio_model.baseSlug t) <= 50)%nat
   /\ forallb base_unit (Portfolio_model.baseSlug t) = true
   /\ hyphens_apart (Portfolio_model.baseSlug t) = true
   /\ (forallb small_or_digit t = true -> Portfolio_model.baseSlug t = take 50 t)
   /\ (Portfolio_model.baseSlug t = [] <-> traceless t = true))
  /\ (exists i,
        Portfolio_model.generateSlug u t w
        = (Ok (candidate (Portfolio_model.baseSlug t) i), w)
        /\ ~ taken w u (candidate (Portfolio_model.baseSlug t) i)
        /\ forall k, (k < i)%nat -> taken w u (candidate (Portfolio_model.baseSlug t) k))
  /\ exists replies w',
       create_many n u t w = (Ok replies, w')
       /\ if traceless t then
            replies = replicate n routes.InternalServerError
            /\ portfolios w' = portfolios w
          else
            created_slug <$> replies
            = (fun k => Some (candidate (Portfolio_model.baseSlug t) k)) <$> seq 0 n
            /\ NoDup (created_slug <$> replies).
Proof.
  intros Ht Hlen Hfree. split_and!.
  - apply baseSlug_length.
  - apply baseSlug_base_units.
  - apply baseSlug_hyphens_apart.
  - apply baseSlug_fixed.
  - apply baseSlug_nil.
  - apply generateSlug_spec.
  - destruct (traceless t) eqn:Hless.
    + apply baseSlug_nil in Hless.
      destruct n as [|n]; [by exists [], w|].
      destruct (create_many_unsluggable u t (S n) w Hless) as (w' & Hrun & Hrows).
      { specialize (Hfree 0%nat). rewrite Hless in Hfree. apply Hfree. lia. }
      by exists (replicate (S n) routes.InternalServerError), w'.
    + assert (Portfolio_model.baseSlug t ≠ []) as Hne.
      { intros Hnil%baseSlug_nil. congruence. }
      destruct (create_many_from u t n 0 w Ht Hne) as (rs & w' & Hrun & Hslugs);
        [done | intros k Hk; lia | intros k Hk; apply Hfree; lia |].
      exists rs, w'. split_and!; [done | done |].
      rewrite Hslugs. apply NoDup_fmap_2; [|apply NoDup_seq].
      intros j k [= H]. by apply candidate_inj in H.
Qed.

Lemma identical_titles_slug_sequence_witness :
  len_between 1 255 (txt "My  Site!") = true
  /\ (forall k, (k < 3)%nat ->
        (length (candidate (Portfolio_model.baseSlug (txt "My  Site!")) k) <= 255)%nat)
  /\ (forall k, (k < 3)%nat ->
        ~ taken Examples.before (txt "user-1")
            (candidate (Portfolio_model.baseSlug (txt "My  Site!")) k))
  /\ Portfolio_model.baseSlug (txt "My  Site!") = txt "my-site"
  /\ (exists i,
        Portfolio_model.generateSlug (txt "user-1") (txt "My  Site!") Examples.before
        = (Ok (candidate (txt "my-site") i), Examples.before)
        /\ ~ taken Examples.before (txt "user-1") (candidate (txt "my-site") i)
        /\ forall k, (k < i)%nat ->
             taken Examples.before (txt "user-1") (candidate (txt "my-site") k))
  /\ exists replies w',
       create_many 3 (txt "user-1") (txt "My  Site!") Examples.before
       = (Ok replies, w')
       /\ created_slug <$> replies
          = [Some (txt "my-site"); Some (txt "my-site-1"); Some (txt "my-site-2")]
       /\ NoDup (created_slug <$> replies).
Proof.
  assert (forall k, (k < 3)%nat ->
            (length (candidate (Portfolio_model.baseSlug (txt "My  Site!")) k) <= 255)%nat)
    as Hlen.
  { intros k Hk. destruct k as [|[|[|k]]]; [vm_compute; lia .. | lia]. }
  assert (forall k, (k < 3)%nat ->
            ~ taken Examples.before (txt "user-1")
                (candidate (Portfolio_model.baseSlug (txt "My  Site!")) k)) as Hfree.
  { intros k Hk (id & p & Hl & _ & Hs).
    unfold Examples.before in Hl. cbn [portfolios] in Hl.
    apply lookup_singleton_Some in Hl as [_ <-].
    destruct k as [|[|[|k]]]; [vm_compute in Hs; discriminate Hs .. | lia]. }
  refine (conj _ (conj Hlen (conj Hfree (conj _ _)))); [by vm_compute | by vm_compute |].
  destruct (identical_titles_slug_sequence (txt "user-1") (txt "My  Site!") 3
              Examples.before) as (_ & Hslug & rs & w' & Hrun & Hrest);
    [by vm_compute | exact Hlen | exact Hfree |].
  split; [exact Hslug|].
  exists rs, w'. split; [exact Hrun|]. exact Hrest.
Defined.

(** C6 as stated fails: the title of three exclamation marks passes the
    validator of the title column, yet nothing of it is left in the base
    slug; posted twice it gives no slug at all, both posts are answered 500
    and the table is as it was. *)
Lemma title_without_slug_yields_no_portfolio :
  len_between 1 255 (txt "!!!") = true
  /\ Portfolio_model.baseSlug (txt "!!!") = []
  /\ (create_many 2 (txt "user-1") (txt "!!!") Examples.before).1
     = Ok [routes.InternalServerError; routes.InternalServerError]
  /\ created_slug
       <$> [routes.InternalServerError; routes.InternalServerError]
     ≠ (fun k => Some (candidate (Portfolio_model.baseSlug (txt "!!!")) k)) <$> seq 0 2
  /\ portfolios (create_many 2 (txt "user-1") (txt "!!!") Examples.before).2
     = portfolios Examples.before.
Proof. split_and!; by vm_compute. Qed.

(** ** C7: the life of an iteration *)

(** C7, as the code has it: an enhance call that finds its portfolio
    creates exactly one iteration row, writes it as pending and then
    exactly once more, as completed or as failed, and never again; an
    enhance call for a portfolio that does not exist creates no iteration
    row at all. *)
Theorem enhance_iteration_lifecycle (E : Env) (w : world) (pid : nat)
    (userPrompt : text) (section : option text) :
  let w' := (portfolioGenerator.enhancePortfolio E pid userPrompt section w).2 in
  match portfolios w !! pid with
  | Some _ =>
      (exists iid it st,
         iterations w !! iid = None
         /\ iterations w' = <[iid := it]> (iterations w)
         /\ iteration_state it = st
         /\ (st = completed \/ st = failed)
         /\ iteration_log w' = iteration_log w ++ [(iid, pending); (iid, st)])
      /\ new_terminal_iterations w w' = 1%nat
  | None =>
      iterations w' = iterations w
      /\ iteration_log w' = iteration_log w
      /\ new_terminal_iterations w w' = 0%nat
  end.
Proof.
  intros w'. destruct (portfolios w !! pid) as [p|] eqn:Hp.
  - destruct (portfolioGenerator.enhancePortfolio E pid userPrompt section w)
      as [r w1] eqn:Hrun.
    subst w'. cbn [snd].
    pose proof (is_fresh (dom (iterations w))) as Hfresh%not_elem_of_dom.
    destruct (enhancePortfolio_found E w w1 pid p userPrompt section r Hp Hrun)
      as (it & Hits & _ & Hcases).
    assert (exists st, iteration_state it = st /\ (st = completed \/ st = failed)
              /\ iteration_log w1 = iteration_log w
                   ++ [(fresh (dom (iterations w)), pending);
                       (fresh (dom (iterations w)), st)]) as (st & Hst & Hterm & Hlog).
    { destruct Hcases as [(?&?&?&_&_&_&?&?)|(?&_&_&?&?)]; eauto. }
    split; [by exists (fresh (dom (iterations w))), it, st|].
    unfold new_terminal_iterations. rewrite Hits.
    rewrite map_filter_insert_True.
    + rewrite map_size_insert_None.
      * f_equal. apply map_size_empty_iff, map_empty_filter_2.
        intros i x Hix [Hnone _]. cbn in Hnone. congruence.
      * apply map_lookup_filter_None. left. done.
    + split; [done|]. cbn. rewrite Hst. by destruct Hterm as [-> | ->].
  - subst w'. rewrite enhancePortfolio_missing by done. cbn [snd iterations iteration_log].
    split_and!; [done | done |].
    unfold new_terminal_iterations. cbn [iterations with_console with_clock_read].
    apply map_size_empty_iff, map_empty_filter_2.
    intros i x Hix [Hnone _]. cbn in Hnone. congruence.
Qed.

(** C7 as stated fails: an enhance call for a portfolio that is not there
    returns a failure and has produced no iteration row, terminal or not. *)
Lemma enhance_missing_portfolio_no_iteration :
  Examples.missing_run.1
    = Ok (portfolioGenerator.EnhancementFailure (txt "Portfolio not found"))
  /\ iterations Examples.missing_run.2 = ∅
  /\ new_terminal_iterations Examples.before Examples.missing_run.2 = 0%nat.
Proof. by vm_compute. Qed.

(** ** C8: the iteration of a full generation *)

(** C8 does not hold of the code: [generatePortfolio] asks for an iteration
    row without portfolio_id, the column is declared [allowNull: false], so
    the row is refused; every full-generation run ends there, with a
    failure result, no iteration row, no portfolio and no call to the
    model. *)
Theorem generatePortfolio_fails_at_iteration (E : Env) (userId : text)
    (sources : list source) (preferences : list (text * value)) (w : world) :
  let '(r, w') := portfolioGenerator.generatePortfolio E userId sources preferences w in
  r = Ok (portfolioGenerator.GenerationFailure
            (txt "notNull Violation: PortfolioIteration.portfolio_id cannot be null"))
  /\ iterations w' = iterations w
  /\ iteration_log w' = iteration_log w
  /\ portfolios w' = portfolios w
  /\ calls w' = calls w.
Proof. by repeat split. Qed.

(** ** C9: the fallback model *)

(** C9: when the call to the primary model fails with the code
    model_overloaded, the service calls the fallback model once, and the
    outcome of that one call is the outcome of the generation, whatever it
    is; when the primary call fails with any other error, no further call
    is made and that error is thrown. *)
Theorem fallback_policy (E : Env) (sources : list source)
    (preferences : list (text * value)) (w : world) (req : request) :
  aiService._buildPortfolioGenerationPrompt sources preferences = Ok req ->
  let n := length (calls w) in
  let '(r, w') := aiService.generatePortfolio E sources preferences w in
  match openai E n aiService.primary req with
  | Ok resp =>
      calls w' = calls w ++ [ChatCompletion aiService.primary req 4000]
      /\ r = Ok {| aiService.success := true;
                   aiService.ai_content := recovered (message_content resp);
                   aiService.tokensUsed := total_tokens resp;
                   aiService.model := aiService.primary |}
  | Throw e =>
      if bool_decide (code e = Some (txt "model_overloaded")) then
        calls w' = calls w ++ [ChatCompletion aiService.primary req 4000;
                               ChatCompletion aiService.fallback req 3000]
        /\ match openai E (S n) aiService.fallback req with
           | Ok resp =>
               r = Ok {| aiService.success := true;
                         aiService.ai_content := recovered (message_content resp);
                         aiService.tokensUsed := total_tokens resp;
                         aiService.model := aiService.fallback |}
           | Throw e' => r = Throw e'
           end
      else
        calls w' = calls w ++ [ChatCompletion aiService.primary req 4000]
        /\ r = Throw e
  end.
Proof.
  intros Hreq n.
  unfold aiService.generatePortfolio, aiService._generateWithFallback.
  rewrite Hreq.
  cbv [try_catch lift mbind M_bind mret M_ret console_error modify throw
       aiService.create].
  fold n.
  destruct (openai E n aiService.primary req) as [resp|e].
  - destruct (parsePortfolioContent_run (message_content resp)
                (with_call (ChatCompletion aiService.primary req 4000) w))
      as (w1 & -> & _ & Hc & _).
    split; [by rewrite Hc | done].
  - case_bool_decide as Hcode.
    + cbn [calls with_console with_call]. rewrite length_app. cbn [length].
      replace (length (calls w) + 1)%nat with (S n) by (unfold n; lia).
      destruct (openai E (S n) aiService.fallback req) as [resp|e'].
      * match goal with |- context [aiService._parsePortfolioContent ?c ?w0] =>
          destruct (parsePortfolioContent_run c w0) as (w1 & -> & _ & Hc & _) end.
        split; [|done]. rewrite Hc. cbn. by rewrite <- app_assoc.
      * split; [|done]. cbn. by rewrite <- app_assoc.
    + done.
Qed.

Lemma fallback_policy_witness :
  aiService._buildPortfolioGenerationPrompt [Examples.described] []
    = Ok (PortfolioGeneration [Examples.described] [])
  /\ let n := length (calls Examples.before) in
     let '(r, w') :=
       aiService.generatePortfolio (Examples.overloaded_once Examples.new_projects)
         [Examples.described] [] Examples.before in
     match openai (Examples.overloaded_once Examples.new_projects) n aiService.primary
             (PortfolioGeneration [Examples.described] []) with
     | Ok resp =>
         calls w' = calls Examples.before
                    ++ [ChatCompletion aiService.primary
                          (PortfolioGeneration [Examples.described] []) 4000]
         /\ r = Ok {| aiService.success := true;
                      aiService.ai_content := recovered (message_content resp);
                      aiService.tokensUsed := total_tokens resp;
                      aiService.model := aiService.primary |}
     | Throw e =>
         if bool_decide (code e = Some (txt "model_overloaded")) then
           calls w' = calls Examples.before
                      ++ [ChatCompletion aiService.primary
                            (PortfolioGeneration [Examples.described] []) 4000;
                          ChatCompletion aiService.fallback
                            (PortfolioGeneration [Examples.described] []) 3000]
           /\ match openai (Examples.overloaded_once Examples.new_projects) (S n)
                      aiService.fallback (PortfolioGeneration [Examples.described] []) with
              | Ok resp =>
                  r = Ok {| aiService.success := true;
                            aiService.ai_content := recovered (message_content resp);
                            aiService.tokensUsed := total_tokens resp;
                            aiService.model := aiService.fallback |}
              | Throw e' => r = Throw e'
              end
         else
           calls w' = calls Examples.before
                      ++ [ChatCompletion aiService.primary
                            (PortfolioGeneration [Examples.described] []) 4000]
           /\ r = Throw e
     end.
Proof.
  split; [by vm_compute|].
  apply (fallback_policy (Examples.overloaded_once Examples.new_projects)
           [Examples.described] [] Examples.before). by vm_compute.
Defined.

(** ** C10: sources of an unknown type *)

(** C10, as the code has it: a source whose type is not github, resume,
    prompt or linkedin is logged with a warning and handed on unchanged, as
    the entry with its own type and data at its place in the output; the
    entries of the sources before and after it are those of the list
    without it. *)
Theorem unknown_source_passes_through (E : Env) (before after : list source)
    (s : source) (w : world) :
  ~ known_type (source_type s) ->
  exists out1 out2 w1 w',
    portfolioGenerator._processSources E before w = (Ok out1, w1)
    /\ (portfolioGenerator._processSources E after w1).1 = Ok out2
    /\ (portfolioGenerator._processSources E (before ++ after) w).1 = Ok (out1 ++ out2)
    /\ portfolioGenerator._processSources E after (with_console (unknown_warning s) w1)
       = (Ok out2, w')
    /\ portfolioGenerator._processSources E (before ++ s :: after) w
       = (Ok (out1 ++ s :: out2), w').
Proof.
  intros Hk.
  destruct (processSources_returns E before w) as (out1 & w1 & H1).
  destruct (processSources_returns E after w1) as (out2 & w2 & H2).
  destruct (insensitive_processSources E after _ _ _ _
              (console_apart_with_console (unknown_warning s) w1) H2)
    as (w' & H2' & _).
  exists out1, out2, w1, w'. split_and!; [done | by rewrite H2 | | done |].
  - by rewrite (processSources_app _ _ _ _ _ _ _ _ H1 H2).
  - apply (processSources_app _ _ _ _ _ _ _ _ H1).
    cbn [portfolioGenerator._processSources]. cbv [mbind M_bind try_catch mret M_ret].
    rewrite process_one_unknown by done. fold (unknown_warning s).
    by rewrite H2'.
Qed.

Lemma unknown_source_passes_through_witness :
  ~ known_type (source_type Examples.tweet)
  /\ exists out1 out2 w1 w',
       portfolioGenerator._processSources (Examples.steady []) [Examples.described]
         Examples.before = (Ok out1, w1)
       /\ (portfolioGenerator._processSources (Examples.steady []) [Examples.described]
             w1).1 = Ok out2
       /\ (portfolioGenerator._processSources (Examples.steady [])
             ([Examples.described] ++ [Examples.described]) Examples.before).1
          = Ok (out1 ++ out2)
       /\ portfolioGenerator._processSources (Examples.steady []) [Examples.described]
            (with_console (unknown_warning Examples.tweet) w1) = (Ok out2, w')
       /\ portfolioGenerator._processSources (Examples.steady [])
            ([Examples.described] ++ Examples.tweet :: [Examples.described])
            Examples.before
          = (Ok (out1 ++ Examples.tweet :: out2), w').
Proof.
  assert (~ known_type (source_type Examples.tweet)) as Hunknown.
  { unfold known_type. intros [H|[H|[H|H]]]; vm_compute in H; discriminate H. }
  split; [exact Hunknown|].
  exact (unknown_source_passes_through (Examples.steady []) [Examples.described]
           [Examples.described] Examples.tweet Examples.before Hunknown).
Defined.

(** C10 as stated fails: a source of type twitter is not left out, it is
    the one entry of the output. *)
Lemma unknown_source_is_kept :
  (portfolioGenerator._processSources (Examples.steady []) [Examples.tweet]
     Examples.before).1
  = Ok [Examples.tweet].
Proof. by vm_compute. Qed.

(** * Further properties of the code *)

(** ** Publication *)

Section PublicationFacts.
Import Portfolio_publication.

Lemma findPublishedBySlug_Some s w found :
  findPublishedBySlug s w = (Ok (Some found), w) ->
  portfolios w !! found.1 = Some found.2
  /\ slug found.2 = s /\ status found.2 = published /\ is_public found.2 = true.
Proof.
  unfold findPublishedBySlug. intros H.
  destruct (list_find _ _) as [[i [id q]]|] eqn:Hf; [|done].
  injection H as <-.
  apply list_find_Some in Hf as (Hl & (Hs & Hst & Hpub) & _).
  apply list_elem_of_lookup_2, elem_of_map_to_list in Hl. done.
Qed.

Lemma findPublishedBySlug_finds s w id p :
  portfolios w !! id = Some p ->
  slug p = s -> status p = published -> is_public p = true ->
  exists found, findPublishedBySlug s w = (Ok (Some found), w).
Proof.
  intros Hl Hs Hst Hpub. unfold findPublishedBySlug.
  destruct (list_find_elem_of
              (fun row : nat * Portfolio =>
                 slug row.2 = s /\ status row.2 = published /\ is_public row.2 = true)
              (map_to_list (portfolios w)) (id, p)) as [[i row] Hf].
  - by apply elem_of_map_to_list.
  - done.
  - rewrite Hf. by eexists.
Qed.

End PublicationFacts.

(** After [publish], a look-up of the slug among the published portfolios
    finds a published, public portfolio with that slug; it is the one just
    published unless another published portfolio has the same slug (slugs
    are unique per owner only). *)
Theorem published_slug_is_found (E : Env) (id : nat) (p : Portfolio) (w : world) :
  exists p' w' found,
    Portfolio_publication.publish E id p w = (Ok p', w')
    /\ Portfolio_publication.findPublishedBySlug (slug p) w' = (Ok (Some found), w')
    /\ slug found.2 = slug p /\ status found.2 = published
    /\ is_public found.2 = true
    /\ ((forall id' q, portfolios w !! id' = Some q -> id' <> id -> slug q = slug p ->
           status q = published -> is_public q = false)
        -> found = (id, p')).
Proof.
  unfold Portfolio_publication.publish.
  cbv [mbind M_bind mret M_ret read_clock Portfolio_model.save modify].
  set (p' := Portfolio_publication.with_publication _ _ _ p).
  set (w' := with_portfolios _ _).
  assert (portfolios w' !! id = Some p') as Hl by apply lookup_insert_eq.
  destruct (findPublishedBySlug_finds (slug p) w' id p' Hl) as [found Hf]; [done..|].
  exists p', w', found. split; [done|]. split; [done|].
  destruct (findPublishedBySlug_Some _ _ _ Hf) as (Hfl & Hs & Hst & Hpub).
  split_and!; [done..|].
  intros Hothers. destruct found as [id' q]. cbn [fst snd] in *.
  destruct (decide (id' = id)) as [->|Hne].
  - rewrite Hl in Hfl. by injection Hfl as <-.
  - unfold w' in Hfl. cbn [portfolios with_portfolios with_clock_read] in Hfl.
    rewrite lookup_insert_ne in Hfl by done.
    specialize (Hothers id' q Hfl Hne Hs Hst). congruence.
Qed.

(** After [unpublish], no look-up among the published portfolios returns
    the portfolio again, whatever the slug, and what such a look-up returns
    is a row that was there before. *)
Theorem unpublished_is_never_found (id : nat) (p : Portfolio) (w : world) :
  exists p' w',
    Portfolio_publication.unpublish id p w = (Ok p', w')
    /\ status p' = draft /\ is_public p' = false /\ published_at p' = None
    /\ forall s found,
         Portfolio_publication.findPublishedBySlug s w' = (Ok (Some found), w') ->
         found.1 <> id /\ portfolios w !! found.1 = Some found.2.
Proof.
  unfold Portfolio_publication.unpublish.
  cbv [mbind M_bind mret M_ret Portfolio_model.save modify].
  do 2 eexists. split; [done|]. split_and!; [done..|].
  intros s [id' q] Hf.
  destruct (findPublishedBySlug_Some _ _ _ Hf) as (Hfl & Hs & Hst & Hpub).
  cbn [fst snd portfolios with_portfolios] in *.
  destruct (decide (id' = id)) as [->|Hne].
  - rewrite lookup_insert_eq in Hfl. injection Hfl as <-. done.
  - by rewrite lookup_insert_ne in Hfl.
Qed.

(** Publishing and then unpublishing a stored draft that was never
    published takes back what publishing did: the row is a draft again,
    not public and without a date of publication, and its owner, title,
    slug, template, content, cached files and view count are what they
    were throughout, as is every other row.  (The column updated_at, which
    is not part of the rows here, moves at each of the two saves.) *)
Theorem publish_unpublish_round_trip (E : Env) (id : nat) (p : Portfolio)
    (w : world) :
  portfolios w !! id = Some p ->
  status p = draft -> is_public p = false -> published_at p = None ->
  exists p1 w1 p2 w2,
    Portfolio_publication.publish E id p w = (Ok p1, w1)
    /\ Portfolio_publication.unpublish id p1 w1 = (Ok p2, w2)
    /\ portfolios w1 !! id = Some p1
    /\ (status p1, is_public p1, published_at p1)
       = (published, true, Some (epoch_ms (clock E (clock_reads w))))
    /\ portfolios w2 !! id = Some p2
    /\ (status p2, is_public p2, published_at p2)
       = (status p, is_public p, published_at p)
    /\ (user_id p2, title p2, slug p2, template_id p2, content p2)
       = (user_id p, title p, slug p, template_id p, content p)
    /\ (generated_html p2, generated_css p2, generated_js p2, view_count p2)
       = (generated_html p, generated_css p, generated_js p, view_count p)
    /\ forall other, other <> id -> portfolios w2 !! other = portfolios w !! other.
Proof.
  intros Hl Hst Hpub Hat.
  unfold Portfolio_publication.publish, Portfolio_publication.unpublish.
  cbv [mbind M_bind mret M_ret read_clock Portfolio_model.save modify].
  do 4 eexists. split; [done|]. split; [done|].
  cbn [portfolios with_portfolios with_clock_read].
  split_and!.
  - apply lookup_insert_eq.
  - done.
  - apply lookup_insert_eq.
  - cbn. by rewrite Hst, Hpub, Hat.
  - done.
  - done.
  - intros other Hne. by rewrite !lookup_insert_ne.
Qed.

Lemma publish_unpublish_round_trip_witness :
  exists p1 w1 p2 w2,
    Portfolio_publication.publish (Examples.steady []) 7 Examples.stored Examples.before
      = (Ok p1, w1)
    /\ Portfolio_publication.unpublish 7 p1 w1 = (Ok p2, w2)
    /\ portfolios w1 !! 7%nat = Some p1
    /\ (status p1, is_public p1, published_at p1)
       = (published, true,
          Some (epoch_ms (clock (Examples.steady []) (clock_reads Examples.before))))
    /\ portfolios w2 !! 7%nat = Some p2
    /\ (status p2, is_public p2, published_at p2)
       = (status Examples.stored, is_public Examples.stored,
          published_at Examples.stored)
    /\ (user_id p2, title p2, slug p2, template_id p2, content p2)
       = (user_id Examples.stored, title Examples.stored, slug Examples.stored,
          template_id Examples.stored, content Examples.stored)
    /\ (generated_html p2, generated_css p2, generated_js p2, view_count p2)
       = (generated_html Examples.stored, generated_css Examples.stored,
          generated_js Examples.stored, view_count Examples.stored)
    /\ forall other, other <> 7%nat ->
         portfolios w2 !! other = portfolios Examples.before !! other.
Proof.
  apply (publish_unpublish_round_trip (Examples.steady []) 7 Examples.stored
           Examples.before); [|done..].
  unfold Examples.before. cbn [portfolios]. apply lookup_singleton_eq.
Defined.

(** ** Iteration statistics *)

Section StatsFacts.
Import PortfolioIteration_stats.



Lemma sum_tokens_from (l : list PortfolioIteration) (a : nat) :
  foldl (fun sum i => (sum + tokens_used i)%nat) a l
  = (a + foldl (fun sum i => (sum + tokens_used i)%nat) 0%nat l)%nat.
Proof.
  revert a. induction l as [|i l IH]; intros a; cbn [foldl]; [lia|].
  rewrite (IH (a + _)%nat), (IH (0 + _)%nat). lia.
Qed.

Lemma sum_times_from (l : list PortfolioIteration) (a : Z) :
  foldl (fun sum i => (sum + processing_time_ms i)%Z) a l
  = (a + foldl (fun sum i => (sum + processing_time_ms i)%Z) 0%Z l)%Z.
Proof.
  revert a. induction l as [|i l IH]; intros a; cbn [foldl]; [lia|].
  rewrite (IH (a + _)%Z), (IH (0 + _)%Z). lia.
Qed.

Lemma sum_tokens_perm (l l' : list PortfolioIteration) :
  l ≡ₚ l' ->
  foldl (fun sum i => (sum + tokens_used i)%nat) 0%nat l
  = foldl (fun sum i => (sum + tokens_used i)%nat) 0%nat l'.
Proof.
  induction 1 as [|i l l' _ IH|i j l|l1 l2 l3 _ IH1 _ IH2]; cbn [foldl].
  - done.
  - rewrite (sum_tokens_from l), (sum_tokens_from l'). by rewrite IH.
  - rewrite (sum_tokens_from l (_ + _)), (sum_tokens_from l (0 + _ + _)). lia.
  - congruence.
Qed.

Lemma sum_times_perm (l l' : list PortfolioIteration) :
  l ≡ₚ l' ->
  foldl (fun sum i => (sum + processing_time_ms i)%Z) 0%Z l
  = foldl (fun sum i => (sum + processing_time_ms i)%Z) 0%Z l'.
Proof.
  induction 1 as [|i l l' _ IH|i j l|l1 l2 l3 _ IH1 _ IH2]; cbn [foldl].
  - done.
  - rewrite (sum_times_from l), (sum_times_from l'). by rewrite IH.
  - rewrite (sum_times_from l (_ + _)), (sum_times_from l (0 + _ + _)). lia.
  - congruence.
Qed.



(** The rows [findAll] reads. *)
Lemma findAll_elem pid w it :
  it ∈ (snd <$> filter (fun row : nat * PortfolioIteration =>
                          portfolio_id row.2 = Some pid)
                  (map_to_list (iterations w)))
  <-> exists id, iterations w !! id = Some it /\ portfolio_id it = Some pid.
Proof.
  rewrite list_elem_of_fmap. split.
  - intros ([id it'] & -> & [Hp Hl%elem_of_map_to_list]%list_elem_of_filter).
    by exists id.
  - intros (id & Hl & Hp). exists (id, it). split; [done|].
    apply list_elem_of_filter. split; [done|]. by apply elem_of_map_to_list.
Qed.

(** The statistics depend on the rows only, not on their order. *)
Lemma getIterationStats_perm pid pid' w w' :
  (snd <$> filter (fun row : nat * PortfolioIteration =>
                     portfolio_id row.2 = Some pid) (map_to_list (iterations w)))
  ≡ₚ (snd <$> filter (fun row : nat * PortfolioIteration =>
                        portfolio_id row.2 = Some pid') (map_to_list (iterations w'))) ->
  (getIterationStats pid w).1 = (getIterationStats pid' w').1.
Proof.
  unfold getIterationStats, findAll.
  cbv [mbind M_bind mret M_ret fst]. unfold with_status, with_type.
  generalize (snd <$> filter (fun row : nat * PortfolioIteration =>
                                portfolio_id row.2 = Some pid)
                        (map_to_list (iterations w))).
  generalize (snd <$> filter (fun row : nat * PortfolioIteration =>
                                portfolio_id row.2 = Some pid')
                        (map_to_list (iterations w'))).
  intros l' l Hperm.
  assert (forall P (HP : forall i, Decision (P i)),
            length (filter P l) = length (filter P l')) as Hlen.
  { intros P HP. apply Permutation_length. by apply filter_Permutation. }
  rewrite !Hlen, (Permutation_length Hperm), (sum_tokens_perm _ _ Hperm).
  rewrite (sum_times_perm (filter (fun i => iteration_state i = completed) l)
             (filter (fun i => iteration_state i = completed) l'))
    by (by apply filter_Permutation).
  done.
Qed.

(** A row added for a portfolio. *)
Lemma findAll_insert pid w iid it :
  iterations w !! iid = None ->
  (snd <$> filter (fun row : nat * PortfolioIteration =>
                     portfolio_id row.2 = Some pid)
             (map_to_list (<[iid := it]> (iterations w))))
  ≡ₚ (if decide (portfolio_id it = Some pid) then [it] else [])
      ++ (snd <$> filter (fun row : nat * PortfolioIteration =>
                            portfolio_id row.2 = Some pid)
                    (map_to_list (iterations w))).
Proof.
  intros Hfresh. rewrite (map_to_list_insert _ _ _ Hfresh).
  rewrite filter_cons. cbn [snd].
  by destruct (decide (portfolio_id it = Some pid)).
Qed.

End StatsFacts.



(** An enhancement of a stored portfolio shows in its statistics as exactly
    one more iteration, which is completed or failed and never left
    pending; the statistics of every other portfolio stay as they were. *)
Theorem enhancement_counts_once (E : Env) (w w' : world) (pid : nat)
    (p : Portfolio) (userPrompt : text) (section : option text)
    (r : result portfolioGenerator.enhancement_result) :
  portfolios w !! pid = Some p ->
  portfolioGenerator.enhancePortfolio E pid userPrompt section w = (r, w') ->
  exists s s',
    PortfolioIteration_stats.getIterationStats pid w = (Ok s, w)
    /\ PortfolioIteration_stats.getIterationStats pid w' = (Ok s', w')
    /\ PortfolioIteration_stats.total s' = S (PortfolioIteration_stats.total s)
    /\ PortfolioIteration_stats.n_pending s' = PortfolioIteration_stats.n_pending s
    /\ (PortfolioIteration_stats.n_completed s' + PortfolioIteration_stats.n_failed s'
        = S (PortfolioIteration_stats.n_completed s
             + PortfolioIteration_stats.n_failed s))%nat
    /\ forall other, other <> pid ->
         (PortfolioIteration_stats.getIterationStats other w').1
         = (PortfolioIteration_stats.getIterationStats other w).1.
Proof.
  intros Hp Hrun.
  destruct (enhancePortfolio_found E w w' pid p userPrompt section r Hp Hrun)
    as (it & Hits & Hpid & Hend).
  assert (iteration_state it = completed \/ iteration_state it = failed) as Hst.
  { destruct Hend as [(? & ? & ? & _ & _ & _ & Hst & _)|(? & _ & _ & Hst & _)];
      [by left | by right]. }
  pose proof (is_fresh (dom (iterations w))) as Hfresh%not_elem_of_dom.
  do 2 eexists. split; [reflexivity|]. split; [reflexivity|].
  cbn [PortfolioIteration_stats.total PortfolioIteration_stats.n_completed
       PortfolioIteration_stats.n_failed PortfolioIteration_stats.n_pending].
  unfold PortfolioIteration_stats.with_status.
  pose proof (findAll_insert pid w _ it Hfresh) as Hperm.
  rewrite <- Hits in Hperm. rewrite decide_True in Hperm by done.
  cbn [app] in Hperm.
  assert (forall P (HP : forall i, Decision (P i)),
            length (filter P (snd <$> filter
                      (fun row : nat * PortfolioIteration =>
                         portfolio_id row.2 = Some pid)
                      (map_to_list (iterations w'))))
            = length (filter P (it :: (snd <$> filter
                      (fun row : nat * PortfolioIteration =>
                         portfolio_id row.2 = Some pid)
                      (map_to_list (iterations w)))))) as Hlen.
  { intros P HP. apply Permutation_length. by apply filter_Permutation. }
  rewrite !Hlen, (Permutation_length Hperm), !filter_cons. cbn [length].
  split_and!.
  - done.
  - rewrite decide_False; [done|]. destruct Hst; congruence.
  - destruct Hst as [Hst|Hst]; rewrite Hst;
      repeat (destruct (decide _) as [|]; try congruence); cbn [length]; lia.
  - intros other Hne. apply getIterationStats_perm.
    pose proof (findAll_insert other w _ it Hfresh) as Hperm'.
    rewrite <- Hits in Hperm'. rewrite decide_False in Hperm' by congruence.
    done.
Qed.

(** ** The table of portfolios *)

Section TableFacts.
Import Portfolio_model.

Lemma create_run (a : attributes) (w : world) :
  (exists e, create a w = (Throw e, w))
  \/ (create a w
       = (Ok (fresh (dom (portfolios w)), build a),
          with_portfolios (insert (fresh (dom (portfolios w))) (build a)) w)
      /\ row_valid (build a)
      /\ ~ taken w (new_user_id a) (new_slug a)).
Proof.
  unfold create.
  destruct (len_between 1 255 (new_title a)) eqn:Ht; cbn [negb];
    [|left; by eexists].
  destruct (len_between 1 255 (new_slug a)) eqn:Hs; cbn [negb];
    [|left; by eexists].
  destruct (slug_pattern (new_slug a)) eqn:Hp; cbn [negb];
    [|left; by eexists].
  cbv [mbind M_bind].
  destruct (findByUserAndSlug_run (new_user_id a) (new_slug a) w)
    as (hit & -> & Hiff).
  destruct hit as [row|]; [left; by eexists|].
  right. split; [done|]. split; [done|].
  intros Ht'. apply Hiff in Ht'. by destruct Ht'.
Qed.

End TableFacts.

(** [Portfolio.create] keeps the table as the column definitions want it:
    every row has a title and a slug that pass their validators, and no
    owner has two rows with one slug.  A rejected row changes nothing; an
    accepted one is added under an identifier that was free. *)
Theorem create_keeps_table_valid (a : Portfolio_model.attributes) (w : world) :
  table_valid w ->
  exists r w',
    Portfolio_model.create a w = (r, w')
    /\ table_valid w'
    /\ match r with
       | Throw _ => w' = w
       | Ok (id, p) =>
           portfolios w !! id = None
           /\ portfolios w' = <[id := p]> (portfolios w)
           /\ user_id p = Portfolio_model.new_user_id a
           /\ slug p = Portfolio_model.new_slug a
       end.
Proof.
  intros [Hrows Huniq].
  destruct (create_run a w) as [[e ->]|(-> & Hvalid & Hfree)].
  { by exists (Throw e), w. }
  pose proof (is_fresh (dom (portfolios w))) as Hfresh%not_elem_of_dom.
  do 2 eexists. split; [done|]. split; [|done].
  unfold table_valid. cbn [portfolios with_portfolios]. split.
  - intros id p [[<- <-]|[_ Hl]]%lookup_insert_Some; [done|by eapply Hrows].
  - intros id1 id2 p1 p2 [[<- <-]|[Hne1 Hl1]]%lookup_insert_Some
      [[<- <-]|[Hne2 Hl2]]%lookup_insert_Some Hu Hs.
    + done.
    + destruct Hfree. exists id2, p2. by rewrite <- Hu, <- Hs.
    + destruct Hfree. exists id1, p1. by rewrite Hu, Hs.
    + by eapply Huniq.
Qed.


Lemma table_valid_before : table_valid Examples.before.
Proof.
  unfold table_valid, Examples.before. cbn [portfolios]. split.
  - intros id p [_ <-]%lookup_singleton_Some. by vm_compute.
  - intros id1 id2 p1 p2 [<- _]%lookup_singleton_Some [<- _]%lookup_singleton_Some.
    done.
Qed.

Lemma create_keeps_table_valid_witness :
  exists r w',
    Portfolio_model.create
      {| Portfolio_model.new_user_id := txt "user-1";
         Portfolio_model.new_title := txt "Ada Lovelace";
         Portfolio_model.new_slug := txt "ada-lovelace";
         Portfolio_model.new_template_id := txt "modern-dev";
         Portfolio_model.new_content := VObj [];
         Portfolio_model.new_status := draft |} Examples.before = (r, w')
    /\ table_valid w'
    /\ match r with
       | Throw _ => w' = Examples.before
       | Ok (id, p) =>
           portfolios Examples.before !! id = None
           /\ portfolios w' = <[id := p]> (portfolios Examples.before)
           /\ user_id p = txt "user-1"
           /\ slug p = txt "ada-lovelace"
       end.
Proof.
  apply (create_keeps_table_valid
           {| Portfolio_model.new_user_id := txt "user-1";
              Portfolio_model.new_title := txt "Ada Lovelace";
              Portfolio_model.new_slug := txt "ada-lovelace";
              Portfolio_model.new_template_id := txt "modern-dev";
              Portfolio_model.new_content := VObj [];
              Portfolio_model.new_status := draft |} Examples.before).
  apply table_valid_before.
Defined.


(** ** Rendering *)

Section TemplateFacts.
Import templateEngine.

Lemma has_items_Ok E c name :
  c <> VNull -> exists j, has_items E c name = Ok j.
Proof.
  intros Hc. unfold has_items, member.
  destruct c; [done|..]; cbv [mbind result_bind]; by eexists.
Qed.

Lemma schema_key_cases (P : text -> Prop) :
  P (txt "hero") -> P (txt "about") -> P (txt "projects") ->
  P (txt "experience") -> P (txt "education") -> P (txt "contact") ->
  forall k, k ∈ schema_keys -> P k.
Proof.
  intros ?????? k Hk. unfold schema_keys in Hk.
  repeat (apply elem_of_cons in Hk as [->|Hk]; [done|]).
  by apply elem_of_nil in Hk.
Qed.

Lemma prepareTemplateData_run E c config w :
  c <> VNull ->
  exists data,
    _prepareTemplateData E c config w = (Ok data, with_clock_read w)
    /\ (forall k, k ∈ schema_keys ->
          prop_lookup k data
          = match prop_lookup k (own_props c) with
            | Some v => Some (JVal v)
            | None => JVal <$> prop_lookup k (own_props defaultContent)
            end)
    /\ (forall p, member c (txt "projects") = Ok p ->
          prop_lookup (txt "has_projects") data
          = Some (js_and p (JVal (VBool (length_positive E p))))).
Proof.
  intros Hc. unfold _prepareTemplateData.
  cbv [mbind M_bind mret M_ret read_clock lift].
  destruct (has_items_Ok E c (txt "projects") Hc) as [hp Hhp].
  destruct (has_items_Ok E c (txt "experience") Hc) as [hx Hhx].
  destruct (has_items_Ok E c (txt "education") Hc) as [he Hhe].
  rewrite Hhp, Hhx, Hhe. eexists. split; [reflexivity|].
  assert (NoDup (spread_onto (spread defaultContent) c).*1) as Hnd
    by apply assign_NoDup, spread_NoDup.
  split.
  - apply schema_key_cases;
      (rewrite !prop_lookup_set_ne by done;
       rewrite prop_lookup_spread_onto by apply spread_NoDup;
       rewrite prop_lookup_spread; done).
  - intros p Hp. unfold has_items in Hhp. rewrite Hp in Hhp.
    injection Hhp as <-.
    rewrite !prop_lookup_set_ne by done.
    apply prop_lookup_set_eq. by do 2 apply prop_set_NoDup.
Qed.

End TemplateFacts.

(** The data a template is given has all six top-level keys of the content
    schema, each with the document's own value or else with the default of
    [_prepareTemplateData]; and [has_projects] tells whether the document
    has a project.  (A document that is [null] makes the preparation
    throw.) *)
Theorem template_data_has_schema_keys (E : Env) (c : value)
    (config : option value) (w : world) :
  c <> VNull ->
  exists data w',
    templateEngine._prepareTemplateData E c config w = (Ok data, w')
    /\ (forall k, k ∈ schema_keys ->
          is_Some (prop_lookup k data)
          /\ prop_lookup k data
             = match prop_lookup k (own_props c) with
               | Some v => Some (JVal v)
               | None =>
                   JVal <$> prop_lookup k (own_props templateEngine.defaultContent)
               end)
    /\ (forall items,
          prop_lookup (txt "projects") (own_props c) = Some (VArr items) ->
          prop_lookup (txt "has_projects") data
          = Some (JVal (VBool (negb (bool_decide (items = []))))))
    /\ (prop_lookup (txt "projects") (own_props c) = None ->
        prop_lookup (txt "has_projects") data = Some JUndefined).
Proof.
  intros Hc.
  destruct (prepareTemplateData_run E c config w Hc) as (data & Hrun & Hkeys & Hflag).
  exists data, (with_clock_read w). split; [done|]. split; [|split].
  - intros k Hk. rewrite (Hkeys k Hk). split; [|done].
    destruct (prop_lookup k (own_props c)); [done|].
    revert k Hk. by apply schema_key_cases.
  - intros items Hitems. rewrite (Hflag (JVal (VArr items))); [done|].
    unfold member. rewrite Hitems. by destruct c.
  - intros Hnone. rewrite (Hflag JUndefined); [done|].
    unfold member. rewrite Hnone. by destruct c.
Qed.

Lemma template_data_has_schema_keys_witness :
  exists data w',
    templateEngine._prepareTemplateData (Examples.steady []) Examples.old_document
      None Examples.before = (Ok data, w')
    /\ (forall k, k ∈ schema_keys ->
          is_Some (prop_lookup k data)
          /\ prop_lookup k data
             = match prop_lookup k (own_props Examples.old_document) with
               | Some v => Some (JVal v)
               | None =>
                   JVal <$> prop_lookup k (own_props templateEngine.defaultContent)
               end)
    /\ (forall items,
          prop_lookup (txt "projects") (own_props Examples.old_document)
          = Some (VArr items) ->
          prop_lookup (txt "has_projects") data
          = Some (JVal (VBool (negb (bool_decide (items = []))))))
    /\ (prop_lookup (txt "projects") (own_props Examples.old_document) = None ->
        prop_lookup (txt "has_projects") data = Some JUndefined).
Proof.
  apply (template_data_has_schema_keys (Examples.steady []) Examples.old_document
           None Examples.before).
  discriminate.
Defined.

Lemma generateHTML_cases (E : Env) (c : value) (tid : text) (w : world) :
  exists r w',
    templateEngine.generateHTML E c tid w = (Ok r, w')
    /\ match compiledTemplates w !! tid with
       | None =>
           r = templateEngine.HtmlFailure
                 (txt "Template '" ++ tid ++ txt "' not found")
           /\ clock_reads w' = clock_reads w
       | Some template_ =>
           match (templateEngine._prepareTemplateData E c
                    (templateConfigs w !! tid) w).1 with
           | Throw e =>
               c = VNull
               /\ r = templateEngine.HtmlFailure
                       (message_or e (txt "Failed to generate HTML"))
           | Ok data =>
               match template_ (Math_random E (clock_reads w)) data with
               | Ok body =>
                   let css := default [] (files w !! (tid, txt "style.css")) in
                   let js := default [] (files w !! (tid, txt "script.js")) in
                   r = templateEngine.HtmlSuccess
                         (templateEngine._createCompleteHTML E body css js data)
                         css js tid
               | Throw e =>
                   r = templateEngine.HtmlFailure
                         (message_or e (txt "Failed to generate HTML"))
               end
           end
       end.
Proof.
  unfold templateEngine.generateHTML.
  cbv [try_catch mbind M_bind mret M_ret console_log console_error modify
       get_world throw].
  cbn [compiledTemplates templateConfigs with_console].
  destruct (compiledTemplates w !! tid) as [template_|]; [|by do 2 eexists].
  assert (c = VNull \/ c <> VNull) as [->|Hc]
    by (destruct c; [by left|by right..]).
  { do 2 eexists. split; [reflexivity|]. done. }
  destruct (prepareTemplateData_run E c (templateConfigs w !! tid) w Hc)
    as (data & Hrun & _).
  destruct (prepareTemplateData_run E c (templateConfigs w !! tid)
              (with_console
                 {| level := LevelLog;
                    line := txt "Generating HTML with template: " ++ tid |} w) Hc)
    as (data' & Hrun' & _).
  assert (data' = data) as ->.
  { revert Hrun Hrun'. unfold templateEngine._prepareTemplateData.
    cbv [mbind M_bind mret M_ret read_clock lift].
    cbn [clock_reads with_console].
    destruct (templateEngine.has_items E c (txt "projects")); [|done].
    destruct (templateEngine.has_items E c (txt "experience")); [|done].
    destruct (templateEngine.has_items E c (txt "education")); [|done].
    congruence. }
  rewrite Hrun, Hrun'. cbn [fst].
  cbv [lift templateEngine._getTemplateCSS templateEngine._getTemplateJS
       templateEngine.read_or_empty mbind M_bind mret M_ret get_world].
  cbn [clock_reads with_console].
  destruct (template_ (Math_random E (clock_reads w)) data) as [body|e];
    do 2 eexists; (split; [reflexivity|]);
    done.
Qed.

(** [generateHTML] always returns a result object and never throws.  An
    unregistered template gives the failure that names it, before the clock
    is read.  A registered one is called with the prepared data and
    what Math.random yields to this render: what it returns is wrapped into the complete page together with the style and
    script files of the template as they are on disk (nothing when a file
    is missing), and what it throws becomes the failure message.  The
    preparation itself fails only for a document that is [null].  Whatever
    the outcome, the render adds console lines and reads the clock, and
    leaves the tables, the registries, the files and the trace of external
    calls as they were. *)
Theorem generateHTML_outcome (E : Env) (c : value) (tid : text) (w : world) :
  exists r w',
    templateEngine.generateHTML E c tid w = (Ok r, w')
    /\ render_frame w w'
    /\ match compiledTemplates w !! tid with
       | None =>
           r = templateEngine.HtmlFailure
                 (txt "Template '" ++ tid ++ txt "' not found")
           /\ clock_reads w' = clock_reads w
       | Some template_ =>
           match (templateEngine._prepareTemplateData E c
                    (templateConfigs w !! tid) w).1 with
           | Throw e =>
               c = VNull
               /\ r = templateEngine.HtmlFailure
                       (message_or e (txt "Failed to generate HTML"))
           | Ok data =>
               match template_ (Math_random E (clock_reads w)) data with
               | Ok body =>
                   let css := default [] (files w !! (tid, txt "style.css")) in
                   let js := default [] (files w !! (tid, txt "script.js")) in
                   r = templateEngine.HtmlSuccess
                         (templateEngine._createCompleteHTML E body css js data)
                         css js tid
               | Throw e =>
                   r = templateEngine.HtmlFailure
                         (message_or e (txt "Failed to generate HTML"))
               end
           end
       end.
Proof.
  destruct (generateHTML_cases E c tid w) as (r & w' & Hrun & Hcases).
  exists r, w'. split; [done|]. split; [|done].
  pose proof (generateHTML_frame E c tid w) as Hframe.
  by rewrite Hrun in Hframe.
Qed.

(** ** Loading a template *)

Section LoadFacts.
Import templateEngine_templates.
Context (compile : text -> template).

Ltac run_load :=
  unfold _loadTemplate;
  cbv [try_catch mbind M_bind mret M_ret _fileExists readFile get_world throw
       console_warn console_log console_error modify lift];
  cbn [files with_compiledTemplates with_templateConfigs with_console].

Lemma loadTemplate_missing dir w :
  files w !! (dir, txt "template.hbs") = None ->
  _loadTemplate compile dir w
  = (Ok tt, with_console {| level := LevelWarn;
                            line := txt "Template file not found for " ++ dir |} w).
Proof.
  intros Hf. run_load. rewrite Hf.
  rewrite bool_decide_false by (by intros []). done.
Qed.

Lemma loadTemplate_no_config dir w src :
  files w !! (dir, txt "template.hbs") = Some src ->
  files w !! (dir, txt "config.json") = None ->
  _loadTemplate compile dir w
  = (Ok tt,
     with_console {| level := LevelLog;
                     line := [9989] ++ txt " Loaded template: " ++ dir |}
       (with_templateConfigs (insert dir (VObj [(txt "name", VStr dir)]))
          (with_compiledTemplates (insert dir (compile src)) w))).
Proof.
  intros Hf Hc. run_load. rewrite Hf.
  rewrite bool_decide_true by done. cbn [negb]. rewrite ?Hf.
  cbn [files with_compiledTemplates]. rewrite Hc. rewrite bool_decide_false by (by intros []). done.
Qed.

Lemma loadTemplate_config dir w src cfg parsed :
  files w !! (dir, txt "template.hbs") = Some src ->
  files w !! (dir, txt "config.json") = Some cfg ->
  JSON_parse cfg = Some parsed ->
  _loadTemplate compile dir w
  = (Ok tt,
     with_console {| level := LevelLog;
                     line := [9989] ++ txt " Loaded template: " ++ dir |}
       (with_templateConfigs
          (insert dir
             (VObj (persist_props
                      (spread_onto [(txt "name", JVal (VStr dir))] parsed))))
          (with_compiledTemplates (insert dir (compile src)) w))).
Proof.
  intros Hf Hc Hp. run_load. rewrite Hf.
  rewrite bool_decide_true by done. cbn [negb]. rewrite ?Hf.
  cbn [files with_compiledTemplates]. rewrite Hc. rewrite bool_decide_true by done.
  cbn [files with_compiledTemplates]. rewrite ?Hc.
  unfold JSON_parse_or_throw. rewrite Hp. done.
Qed.

Lemma loadTemplate_bad_config dir w src cfg :
  files w !! (dir, txt "template.hbs") = Some src ->
  files w !! (dir, txt "config.json") = Some cfg ->
  JSON_parse cfg = None ->
  _loadTemplate compile dir w
  = (Ok tt,
     with_console {| level := LevelError;
                     line := [10060] ++ txt " Failed to load template " ++ dir
                             ++ txt ":" |}
       (with_compiledTemplates (insert dir (compile src)) w)).
Proof.
  intros Hf Hc Hp. run_load. rewrite Hf.
  rewrite bool_decide_true by done. cbn [negb]. rewrite ?Hf.
  cbn [files with_compiledTemplates]. rewrite Hc. rewrite bool_decide_true by done.
  cbn [files with_compiledTemplates]. rewrite ?Hc.
  unfold JSON_parse_or_throw. rewrite Hp. done.
Qed.

End LoadFacts.

(** [_loadTemplate] never throws and touches only the two registries and
    the console.  Without a [template.hbs] nothing is registered.  With one,
    its compiled form is registered under the directory name, and so is a
    config: the object with [name] the directory name when there is no
    [config.json], or else the entries of [config.json], to which [name]
    is added unless [config.json] has a [name] of its own. *)
Theorem loadTemplate_registers (compile : text -> template) (dir : text)
    (w : world) :
  exists w',
    templateEngine_templates._loadTemplate compile dir w = (Ok tt, w')
    /\ same_rows w w' /\ files w' = files w /\ calls w' = calls w
    /\ match files w !! (dir, txt "template.hbs") with
       | None =>
           compiledTemplates w' = compiledTemplates w
           /\ templateConfigs w' = templateConfigs w
       | Some src =>
           compiledTemplates w' = <[dir := compile src]> (compiledTemplates w)
           /\ match files w !! (dir, txt "config.json") with
              | None =>
                  templateConfigs w'
                  = <[dir := VObj [(txt "name", VStr dir)]]> (templateConfigs w)
              | Some cfg =>
                  forall parsed, JSON_parse cfg = Some parsed ->
                    exists config,
                      templateConfigs w' = <[dir := config]> (templateConfigs w)
                      /\ forall k,
                           prop_lookup k (own_props config)
                           = match prop_lookup k (own_props parsed) with
                             | Some v => Some v
                             | None =>
                                 if bool_decide (k = txt "name")
                                 then Some (VStr dir) else None
                             end
              end
       end.
Proof.
  destruct (files w !! (dir, txt "template.hbs")) as [src|] eqn:Hf.
  - destruct (files w !! (dir, txt "config.json")) as [cfg|] eqn:Hc.
    + destruct (JSON_parse cfg) as [parsed|] eqn:Hp.
      * eexists. split; [by eapply loadTemplate_config|].
        split_and!; [done..|]. intros ? [= <-]. eexists. split; [done|].
        intros k. cbn [own_props].
        rewrite prop_lookup_persist
          by (apply assign_NoDup, NoDup_singleton).
        rewrite prop_lookup_spread_onto by apply NoDup_singleton.
        destruct (prop_lookup k (own_props parsed)); [done|].
        csimpl. rewrite (bool_decide_ext (txt "name" = k) (k = txt "name")) by done.
        by case_bool_decide.
      * eexists. split; [by eapply loadTemplate_bad_config|].
        split_and!; [done..|]. intros ? [=].
    + eexists. split; [by eapply loadTemplate_no_config|]. by split_and!.
  - eexists. split; [by apply loadTemplate_missing|]. by split_and!.
Qed.

(** A template whose [config.json] is not JSON is registered for rendering
    all the same, since its compiled form is stored before the config is
    parsed; the failure is logged and the config registry keeps what it had
    for that name, so that a render uses the new template with the old
    config, or with none. *)
Theorem loadTemplate_malformed_config (compile : text -> template)
    (dir src cfg : text) (w : world) :
  files w !! (dir, txt "template.hbs") = Some src ->
  files w !! (dir, txt "config.json") = Some cfg ->
  JSON_parse cfg = None ->
  exists w',
    templateEngine_templates._loadTemplate compile dir w = (Ok tt, w')
    /\ compiledTemplates w' !! dir = Some (compile src)
    /\ templateConfigs w' = templateConfigs w
    /\ last (console w')
       = Some {| level := LevelError;
                 line := [10060] ++ txt " Failed to load template " ++ dir
                         ++ txt ":" |}.
Proof.
  intros Hf Hc Hp. eexists. split; [by eapply loadTemplate_bad_config|].
  cbn [compiledTemplates templateConfigs console with_console
       with_compiledTemplates].
  split_and!; [apply lookup_insert_eq | done | apply last_snoc].
Qed.

(** ** Customizing a template *)

Section CustomizeFacts.
Import templateEngine_templates.

Lemma prop_lookup_spread_any k t j :
  NoDup t.*1 ->
  prop_lookup k (spread_any t j)
  = match prop_lookup k (templateEngine_templates.props_of j) with
    | Some x => Some (JVal x)
    | None => prop_lookup k t
    end.
Proof.
  intros Hnd. destruct j as [| |v]; [done..|].
  by apply prop_lookup_spread_onto.
Qed.

Lemma spread_any_NoDup t j : NoDup t.*1 -> NoDup (spread_any t j).*1.
Proof. intros Hnd. destruct j; [done..|]. by apply assign_NoDup. Qed.

Lemma prop_lookup_merged_customizations config customizations k :
  prop_lookup k (persist_props (merged_customizations config customizations))
  = match prop_lookup k (templateEngine_templates.props_of customizations) with
    | Some v => Some v
    | None => prop_lookup k (templateEngine_templates.props_of (field config (txt "customizations")))
    end.
Proof.
  unfold merged_customizations.
  rewrite prop_lookup_persist by (apply spread_any_NoDup, spread_any_NoDup; constructor).
  rewrite prop_lookup_spread_any by (apply spread_any_NoDup; constructor).
  destruct (prop_lookup k (templateEngine_templates.props_of customizations)); [done|].
  rewrite prop_lookup_spread_any by constructor.
  by destruct (prop_lookup k (templateEngine_templates.props_of (field config (txt "customizations")))).
Qed.

End CustomizeFacts.

(** [customizeTemplate] reads the registry and writes nothing but console
    lines.  For an unregistered template it returns the failure that names
    it.  For a registered one it returns the config with its
    [customizations] replaced by a key-by-key merge, in which a key of the
    given customizations overrides the same key of the stored ones, and
    every other key of the config is as it was. *)
Theorem customizeTemplate_merges (E : Env) (templateId : text)
    (customizations : jsval) (w : world) :
  exists r w',
    templateEngine_templates.customizeTemplate E templateId customizations w
    = (Ok r, w')
    /\ console_apart w w'
    /\ match templateConfigs w !! templateId with
       | None =>
           r = templateEngine_templates.CustomizeFailure
                 (txt "Template '" ++ templateId ++ txt "' not found")
       | Some config =>
           truthy config = true ->
           exists css customized merged,
             r = templateEngine_templates.CustomizeSuccess css customized
             /\ css = templateEngine_templates._generateCustomCSS E customized
             /\ (forall k, k <> txt "customizations" ->
                   prop_lookup k (own_props customized)
                   = prop_lookup k (own_props config))
             /\ prop_lookup (txt "customizations") (own_props customized)
                = Some (VObj merged)
             /\ forall k,
                  prop_lookup k merged
                  = match prop_lookup k (templateEngine_templates.props_of customizations) with
                    | Some v => Some v
                    | None =>
                        prop_lookup k
                          (templateEngine_templates.props_of (templateEngine_templates.field config
                                       (txt "customizations")))
                    end
       end.
Proof.
  unfold templateEngine_templates.customizeTemplate.
  cbv [try_catch mbind M_bind mret M_ret get_world throw console_error modify].
  destruct (templateConfigs w !! templateId) as [config|] eqn:Hcfg.
  - destruct (truthy config) eqn:Ht.
    + do 2 eexists. split; [reflexivity|]. split; [by repeat split|].
      intros _. do 3 eexists. split; [reflexivity|]. split; [reflexivity|].
      cbn [own_props]. split; [|split].
      * intros k Hk.
        rewrite prop_lookup_persist by apply prop_set_NoDup, spread_NoDup.
        rewrite prop_lookup_set_ne by done. rewrite prop_lookup_spread.
        by destruct (prop_lookup k (own_props config)).
      * rewrite prop_lookup_persist by apply prop_set_NoDup, spread_NoDup.
        rewrite prop_lookup_set_eq by apply spread_NoDup. done.
      * apply prop_lookup_merged_customizations.
    + do 2 eexists. split; [reflexivity|]. split; [by repeat split|]. done.
  - do 2 eexists. split; [reflexivity|]. split; [by repeat split|]. done.
Qed.

(** ** Counting the requests that leave the process *)

Lemma spends_weaken {A} (m : M A) n n' : (n <= n')%nat -> spends n m -> spends n' m.
Proof.
  intros Hle Hm w r w' H. destruct (Hm w r w' H) as (made & ? & ?).
  exists made. split; [done|lia].
Qed.

Lemma spends_ret {A} (a : A) : spends 0 (mret a).
Proof. intros w r w' [= <- <-]. exists []. by rewrite app_nil_r. Qed.

Lemma spends_throw {A} e : spends 0 (@throw A e).
Proof. intros w r w' [= <- <-]. exists []. by rewrite app_nil_r. Qed.

Lemma spends_lift {A} (x : result A) : spends 0 (lift x).
Proof. intros w r w' [= <- <-]. exists []. by rewrite app_nil_r. Qed.

Lemma spends_bind {A B} (m : M A) (f : A -> M B) n1 n2 :
  spends n1 m -> (forall a, spends n2 (f a)) -> spends (n1 + n2) (m ≫= f).
Proof.
  intros Hm Hf w r w' H. unfold mbind, M_bind in H.
  destruct (m w) as [[a|e] w1] eqn:Hmw.
  - destruct (Hm _ _ _ Hmw) as (l1 & H1 & ?).
    destruct (Hf _ _ _ _ H) as (l2 & H2 & ?).
    exists (l1 ++ l2). rewrite H2, H1, app_assoc, length_app. split; [done|lia].
  - injection H as <- <-. destruct (Hm _ _ _ Hmw) as (l1 & H1 & ?).
    exists l1. split; [done|lia].
Qed.

Lemma spends_try_catch {A} (m : M A) (h : error -> M A) n1 n2 :
  spends n1 m -> (forall e, spends n2 (h e)) -> spends (n1 + n2) (try_catch m h).
Proof.
  intros Hm Hh w r w' H. unfold try_catch in H.
  destruct (m w) as [[a|e] w1] eqn:Hmw.
  - injection H as <- <-. destruct (Hm _ _ _ Hmw) as (l1 & H1 & ?).
    exists l1. split; [done|lia].
  - destruct (Hm _ _ _ Hmw) as (l1 & H1 & ?).
    destruct (Hh _ _ _ _ H) as (l2 & H2 & ?).
    exists (l1 ++ l2). rewrite H2, H1, app_assoc, length_app. split; [done|lia].
Qed.

Lemma spends_bind_first {A B} (m : M A) (f : A -> M B) n :
  spends n m -> (forall a, spends 0 (f a)) -> spends n (m ≫= f).
Proof.
  intros. eapply spends_weaken; [|by apply spends_bind]. lia.
Qed.

Lemma spends_bind_then {A B} (m : M A) (f : A -> M B) n :
  spends 0 m -> (forall a, spends n (f a)) -> spends n (m ≫= f).
Proof. intros. by apply (spends_bind m f 0 n). Qed.

Lemma spends_try_catch_body {A} (m : M A) (h : error -> M A) n :
  spends n m -> (forall e, spends 0 (h e)) -> spends n (try_catch m h).
Proof.
  intros. eapply spends_weaken; [|by apply spends_try_catch]. lia.
Qed.

Lemma spends_still {A} (m : M A) :
  (forall w r w', m w = (r, w') -> calls w' = calls w) -> spends 0 m.
Proof.
  intros Hm w r w' H. exists []. rewrite app_nil_r. split; [by eapply Hm|done].
Qed.

Lemma spends_console_log msg : spends 0 (console_log msg).
Proof. apply spends_still. by intros w r w' [= <- <-]. Qed.
Lemma spends_console_warn msg : spends 0 (console_warn msg).
Proof. apply spends_still. by intros w r w' [= <- <-]. Qed.
Lemma spends_console_error msg : spends 0 (console_error msg).
Proof. apply spends_still. by intros w r w' [= <- <-]. Qed.
Lemma spends_get_world : spends 0 get_world.
Proof. apply spends_still. by intros w r w' [= <- <-]. Qed.
Lemma spends_read_clock E : spends 0 (read_clock E).
Proof. apply spends_still. by intros w r w' [= <- <-]. Qed.
Lemma spends_modify_rows f : spends 0 (modify (with_portfolios f)).
Proof. apply spends_still. by intros w r w' [= <- <-]. Qed.
Lemma spends_modify_iteration i it : spends 0 (modify (with_iteration i it)).
Proof. apply spends_still. by intros w r w' [= <- <-]. Qed.
Lemma spends_findByPk id : spends 0 (Portfolio_model.findByPk id).
Proof. apply spends_still. by intros w r w' [= <- <-]. Qed.

Lemma spends_create E m q n : spends 1 (aiService.create E m q n).
Proof.
  intros w r w' [= <- <-]. eexists [_]. by cbn [calls with_call].
Qed.

Lemma spends_github E u t : spends 1 (portfolioGenerator.getComprehensiveUserData E u t).
Proof.
  intros w r w' [= <- <-]. eexists [_]. by cbn [calls with_call].
Qed.

Create HintDb spends.
#[local] Hint Resolve spends_ret spends_throw spends_lift spends_console_log
  spends_console_warn spends_console_error spends_get_world spends_read_clock
  spends_modify_rows spends_modify_iteration spends_findByPk : spends.

(** One step for a computation that makes no call. *)
Ltac spends_none :=
  first
    [ progress eauto with spends
    | apply spends_bind_then; [|intros ?]
    | apply spends_try_catch_body; [|intros ?]
    | match goal with |- spends _ (match ?x with _ => _ end) => destruct x end
    | match goal with |- spends _ (if ?x then _ else _) => destruct x end
    | match goal with |- spends _ (let '(_, _) := ?x in _) => destruct x end ].

(** One step for a computation that may make calls: a binding either
    starts with a step that makes none, or ends after the one that does. *)
Ltac spends_step :=
  first
    [ progress eauto with spends
    | apply spends_bind_then; [solve [repeat spends_none]|intros ?]
    | apply spends_bind_first; [|intros ?; solve [repeat spends_none]]
    | apply spends_try_catch_body; [|intros ?; solve [repeat spends_none]]
    | match goal with |- spends _ (match ?x with _ => _ end) => destruct x end
    | match goal with |- spends _ (if ?x then _ else _) => destruct x end
    | match goal with |- spends _ (let '(_, _) := ?x in _) => destruct x end ].

Lemma spends_parsePortfolioContent c : spends 0 (aiService._parsePortfolioContent c).
Proof. unfold aiService._parsePortfolioContent. repeat spends_none. Qed.

Lemma spends_generateWithFallback E s p :
  spends 1 (aiService._generateWithFallback E s p).
Proof.
  unfold aiService._generateWithFallback.
  apply spends_try_catch_body; [|intros ?; solve [repeat spends_none]].
  apply spends_bind_then; [solve [repeat spends_none]|intros ?].
  apply spends_bind_first; [apply spends_create|intros ?].
  repeat first [apply spends_parsePortfolioContent | spends_none].
Qed.

Lemma spends_ai_generatePortfolio E s p :
  spends 2 (aiService.generatePortfolio E s p).
Proof.
  unfold aiService.generatePortfolio.
  apply (spends_try_catch _ _ 1 1).
  - apply spends_bind_then; [solve [repeat spends_none]|intros ?].
    apply spends_bind_first; [apply spends_create|intros ?].
    repeat first [apply spends_parsePortfolioContent | spends_none].
  - intros e. apply spends_bind_then; [solve [repeat spends_none]|intros ?].
    destruct (bool_decide _); [apply spends_generateWithFallback|].
    eapply spends_weaken; [|apply spends_throw]. lia.
Qed.

Lemma spends_enhanceSection E c s p ctx :
  spends 1 (aiService.enhanceSection E c s p ctx).
Proof.
  unfold aiService.enhanceSection.
  apply spends_try_catch_body; [|intros ?; solve [repeat spends_none]].
  apply spends_bind_then; [solve [repeat spends_none]|intros ?].
  apply spends_bind_first; [apply spends_create|intros ?].
  repeat spends_none.
Qed.

Lemma spends_parseResumeContent E v :
  spends 1 (aiService.parseResumeContent E v).
Proof.
  unfold aiService.parseResumeContent.
  apply spends_try_catch_body; [|intros ?; solve [repeat spends_none]].
  apply spends_bind_first; [apply spends_create|intros ?].
  repeat spends_none.
Qed.

Lemma spends_throw_any {A} n e : spends n (@throw A e).
Proof. eapply spends_weaken; [|apply spends_throw]. lia. Qed.

Section BudgetFacts.
Import portfolioGenerator.

Lemma spends_process_one E s :
  spends (if bool_decide (source_type s = txt "github"
                          \/ source_type s = txt "resume") then 1 else 0)
    (process_one E s).
Proof.
  unfold process_one.
  destruct (decide (source_type s = txt "github")) as [Hg|Hg].
  { rewrite !bool_decide_true by tauto.
    unfold _processGitHubSource.
    apply spends_bind_then; [solve [repeat spends_none]|intros ?].
    apply spends_bind_then; [solve [repeat spends_none]|intros ?].
    apply spends_bind_then; [solve [repeat spends_none]|intros ?].
    apply spends_bind_first; [apply spends_github|intros ?].
    repeat spends_none. }
  rewrite (bool_decide_false (source_type s = txt "github")) by done.
  destruct (decide (source_type s = txt "resume")) as [Hr|Hr].
  { rewrite !bool_decide_true by tauto.
    unfold _processResumeSource.
    apply spends_bind_then; [solve [repeat spends_none]|intros ?].
    apply spends_bind_then; [solve [repeat spends_none]|intros ?].
    apply spends_bind_then; [solve [repeat spends_none]|intros ?].
    repeat match goal with
           | |- spends _ (match ?x with _ => _ end) => destruct x
           | |- spends _ (if ?x then _ else _) => destruct x
           end; try apply spends_throw_any.
    apply spends_bind_first; [apply spends_parseResumeContent|intros ?].
    repeat spends_none. }
  rewrite (bool_decide_false (source_type s = txt "resume")) by done.
  rewrite (bool_decide_false (_ \/ _)) by tauto.
  unfold _processPromptSource, _processLinkedInSource.
  repeat spends_none.
Qed.

Lemma spends_processSources E l : spends (remote_sources l) (_processSources E l).
Proof.
  induction l as [|s l IH]; cbn [_processSources]; [apply spends_ret|].
  unfold remote_sources in *. rewrite filter_cons.
  set (n := length (filter _ l)) in *.
  apply (spends_weaken _ ((if bool_decide (source_type s = txt "github"
                                          \/ source_type s = txt "resume")
                           then 1 else 0) + n)%nat).
  { case_bool_decide; [rewrite decide_True by done|rewrite decide_False by done];
      cbn [length]; lia. }
  apply spends_bind.
  - apply spends_try_catch_body; [|intros ?; solve [repeat spends_none]].
    apply spends_bind_first; [apply spends_process_one|intros ?; apply spends_ret].
  - intros processed. apply spends_bind_first; [done|intros ?; apply spends_ret].
Qed.

Lemma spends_enhancePortfolio E pid userPrompt section :
  spends (match given_section section with Some _ => 1 | None => 2 end)
    (enhancePortfolio E pid userPrompt section).
Proof.
  unfold enhancePortfolio.
  apply spends_bind_then; [unfold Date_now; solve [repeat spends_none]|intros ?].
  apply spends_try_catch_body; [|intros ?; solve [repeat spends_none]].
  apply spends_bind_then; [solve [repeat spends_none]|intros found].
  destruct found as [portfolio|]; [|apply spends_throw_any].
  apply spends_bind_then;
    [unfold PortfolioIteration_model.create; solve [repeat spends_none]|intros [iid it]].
  apply spends_try_catch_body;
    [|intros ?; unfold PortfolioIteration_model.markFailed; solve [repeat spends_none]].
  apply spends_bind_then; [solve [repeat spends_none]|intros ?].
  apply spends_bind_first.
  - destruct (given_section section) as [s|].
    + apply spends_bind_first; [apply spends_enhanceSection|intros ?].
      repeat spends_none.
    + apply spends_bind_first; [apply spends_ai_generatePortfolio|intros ?].
      repeat spends_none.
  - intros [enhanced tokens].
    unfold Portfolio_model.updateContent, Portfolio_model.save, Date_now,
      PortfolioIteration_model.markCompleted.
    repeat spends_none.
Qed.

Lemma enhancePortfolio_returns E pid userPrompt section w :
  exists r w', enhancePortfolio E pid userPrompt section w = (Ok r, w').
Proof.
  destruct (portfolios w !! pid) as [p|] eqn:Hp.
  - destruct (enhancePortfolio E pid userPrompt section w) as [r w'] eqn:Hrun.
    destruct (enhancePortfolio_found E w w' pid p userPrompt section r Hp Hrun)
      as (it & _ & _ & [(? & ? & ? & _ & -> & _)|(? & -> & _)]); by do 2 eexists.
  - rewrite enhancePortfolio_missing by done. by do 2 eexists.
Qed.

End BudgetFacts.

(** ** What the source loop returns *)

Lemma ensures_ret {A} (P : A -> Prop) a : P a -> ensures P (mret a).
Proof. intros HP w a' w' [= <- <-]. done. Qed.

Lemma ensures_throw {A} (P : A -> Prop) e : ensures P (throw e).
Proof. intros w a w' [=]. Qed.

Lemma ensures_bind {A B} (P : B -> Prop) (m : M A) (f : A -> M B) :
  (forall a, ensures P (f a)) -> ensures P (m ≫= f).
Proof.
  intros Hf w b w' H. unfold mbind, M_bind in H.
  destruct (m w) as [[a|e] w1]; [by eapply Hf|done].
Qed.

Ltac ensures_step :=
  first
    [ apply ensures_throw
    | apply ensures_ret
    | apply ensures_bind; intros ?
    | match goal with |- ensures _ (match ?x with _ => _ end) => destruct x end
    | match goal with |- ensures _ (if ?x then _ else _) => destruct x end ].

Section SourceLoopFacts.
Import portfolioGenerator.

#[local] Hint Resolve quiet_ret quiet_throw quiet_lift quiet_console_log
  quiet_console_warn quiet_console_error quiet_get_world quiet_read_clock
  quiet_create : quiet.

Lemma process_one_type E s :
  ensures (fun p => source_type p = source_type s) (process_one E s).
Proof.
  unfold process_one.
  case_bool_decide as Hg; [unfold _processGitHubSource; by repeat ensures_step|].
  case_bool_decide as Hr; [unfold _processResumeSource; by repeat ensures_step|].
  case_bool_decide as Hp; [unfold _processPromptSource; by repeat ensures_step|].
  case_bool_decide as Hl; [unfold _processLinkedInSource; by repeat ensures_step|].
  by repeat ensures_step.
Qed.

Lemma quiet_github E u t : quiet (getComprehensiveUserData E u t).
Proof. intros w r w' [= <- <-]. by repeat split. Qed.

Lemma quiet_process_one E s : quiet (process_one E s).
Proof.
  unfold process_one, _processGitHubSource, _processResumeSource,
    _processPromptSource, _processLinkedInSource, aiService.parseResumeContent.
  repeat first [apply quiet_github | quiet_step].
Qed.

Lemma quiet_processSources E l : quiet (_processSources E l).
Proof.
  induction l as [|s l IH]; cbn [_processSources].
  - apply quiet_ret.
  - repeat first [apply quiet_process_one | apply IH | quiet_step].
Qed.

Lemma processSources_types E l w out w' :
  _processSources E l w = (Ok out, w') ->
  sublist (source_type <$> out) (source_type <$> l).
Proof.
  revert w out. induction l as [|s l IH]; intros w out H.
  - injection H as <- <-. constructor.
  - cbn [_processSources] in H.
    cbv [mbind M_bind try_catch mret M_ret console_error modify] in H.
    destruct (process_one E s w) as [[p|e] w1] eqn:Hone.
    + destruct (processSources_returns E l w1) as (o & w2 & Hrun).
      rewrite Hrun in H. injection H as <- <-.
      rewrite !fmap_cons, (process_one_type E s _ _ _ Hone).
      apply sublist_skip. by eapply IH.
    + match type of H with context [_processSources E l ?w0] =>
        destruct (processSources_returns E l w0) as (o & w2 & Hrun) end.
      rewrite Hrun in H. injection H as <- <-.
      rewrite fmap_cons. apply sublist_cons. by eapply IH.
Qed.

End SourceLoopFacts.

(** [_processSources] never throws.  What it returns keeps the order of
    the sources and the type of each, leaving out those whose processing
    failed; it writes no row, and it leaves the process at most once for
    each github or resume source, and never for another. *)
Theorem processSources_outcome (E : Env) (sources : list source) (w : world) :
  exists out w' made,
    portfolioGenerator._processSources E sources w = (Ok out, w')
    /\ sublist (source_type <$> out) (source_type <$> sources)
    /\ same_rows w w'
    /\ calls w' = calls w ++ made
    /\ (length made <= remote_sources sources)%nat.
Proof.
  destruct (processSources_returns E sources w) as (out & w' & Hrun).
  destruct (spends_processSources E sources w _ _ Hrun) as (made & Hcalls & Hlen).
  exists out, w', made. split_and!; [done | | | done | done].
  - by eapply processSources_types.
  - by eapply quiet_processSources.
Qed.

(** [enhancePortfolio] never throws: it returns a result object, a failure
    when something went wrong.  It asks the model at most once when a
    section is named and at most twice otherwise (the second time being the
    fallback), and not at all for a portfolio that does not exist. *)
Theorem enhancePortfolio_budget (E : Env) (portfolioId : nat) (prompt_ : text)
    (section : option text) (w : world) :
  exists r w' made,
    portfolioGenerator.enhancePortfolio E portfolioId prompt_ section w = (Ok r, w')
    /\ calls w' = calls w ++ made
    /\ (length made
        <= match portfolioGenerator.given_section section with
           | Some _ => 1
           | None => 2
           end)%nat
    /\ (portfolios w !! portfolioId = None ->
        made = []
        /\ r = portfolioGenerator.EnhancementFailure (txt "Portfolio not found")).
Proof.
  destruct (enhancePortfolio_returns E portfolioId prompt_ section w)
    as (r & w' & Hrun).
  destruct (spends_enhancePortfolio E portfolioId prompt_ section w _ _ Hrun)
    as (made & Hcalls & Hlen).
  exists r, w', made. split_and!; [done..|].
  intros Hnone. rewrite enhancePortfolio_missing in Hrun by done.
  injection Hrun as <- <-. cbn [calls with_console with_clock_read] in Hcalls.
  split; [|done].
  apply (f_equal length) in Hcalls. rewrite length_app in Hcalls.
  destruct made; [done|]. cbn [length] in Hcalls. lia.
Qed.

(** ** The guarded routes *)

Section RouteFacts.

Lemma checkOwnership_run requester id w :
  auth.checkOwnership requester id w
  = (Ok match portfolios w !! id with
        | None => auth.Answered 404 (txt "Not Found") (txt "Resource not found")
        | Some resource =>
            if bool_decide (user_id resource = requester)
            then auth.Next resource
            else auth.Answered 403 (txt "Forbidden")
                   (txt "You do not have permission to access this resource")
        end, w).
Proof.
  unfold auth.checkOwnership.
  cbv [try_catch mbind M_bind mret M_ret Portfolio_model.findByPk].
  destruct (portfolios w !! id) as [resource|]; [|done].
  by destruct (bool_decide (user_id resource = requester)).
Qed.

Lemma owner_only_owner {A} requester id (handler : Portfolio -> M (answer A)) w p :
  portfolios w !! id = Some p -> user_id p = requester ->
  owner_only requester id handler w = handler p w.
Proof.
  intros Hp Hu. unfold owner_only. cbv [mbind M_bind].
  rewrite checkOwnership_run, Hp. by rewrite bool_decide_true.
Qed.

Lemma createCompleteHTML_nonempty E body css js data :
  templateEngine._createCompleteHTML E body css js data <> [].
Proof.
  unfold templateEngine._createCompleteHTML. intros H.
  apply app_eq_nil in H as [H _]. by vm_compute in H.
Qed.

Lemma generateHTML_success E c tid w html css js used w' :
  templateEngine.generateHTML E c tid w
  = (Ok (templateEngine.HtmlSuccess html css js used), w') ->
  html <> [] /\ used = tid.
Proof.
  intros H.
  destruct (generateHTML_cases E c tid w) as (r & w1 & Hrun & Hcases).
  rewrite Hrun in H. injection H as -> <-.
  destruct (compiledTemplates w !! tid) as [t|]; [|by destruct Hcases].
  destruct (templateEngine._prepareTemplateData _ _ _ _).1 as [data|e];
    [|by destruct Hcases].
  destruct (t (Math_random E (clock_reads w)) data) as [body|e]; [|done].
  injection Hcases as -> _ _ ->. split; [|done].
  apply createCompleteHTML_nonempty.
Qed.

End RouteFacts.


(** A duplicate asked for by the owner either cannot be made, with a 500
    and no row written, or is a new row of the same owner: a draft that is
    not public and has no cached page, with the template and the content of
    the original, under an identifier that was free and with a slug other
    than the original's. *)
Theorem duplicate_is_a_fresh_draft (requester : text) (id : nat) (title_ : jsval)
    (w : world) (original : Portfolio) :
  portfolios w !! id = Some original ->
  user_id original = requester ->
  exists a w',
    portfolio_routes.duplicate requester id title_ w = (Ok a, w')
    /\ match a with
       | Failure status_code _ _ =>
           status_code = 500%nat /\ portfolios w' = portfolios w
       | Success status_code (new_id, copy) =>
           status_code = 201%nat
           /\ portfolios w !! new_id = None
           /\ portfolios w' = <[new_id := copy]> (portfolios w)
           /\ user_id copy = requester
           /\ slug copy <> slug original
           /\ content copy = Portfolio_model.set_content (content original)
           /\ template_id copy = template_id original
           /\ status copy = draft /\ is_public copy = false
           /\ generated_html copy = None /\ view_count copy = 0%nat
       end.
Proof.
  intros Hp Hu. unfold portfolio_routes.duplicate.
  rewrite (owner_only_owner _ _ _ _ _ Hp Hu).
  cbv [try_catch mbind M_bind mret M_ret lift console_error modify].
  destruct (portfolio_routes.duplicateTitle title_ original) as [t|e];
    [|by do 2 eexists].
  destruct (generateSlug_spec (user_id original) t w) as (i & -> & Hfree & _).
  match goal with |- context [Portfolio_model.create ?a w] =>
    destruct (create_run a w) as [[e ->]|(-> & _ & _)] end; [by do 2 eexists|].
  do 2 eexists. split; [reflexivity|].
  pose proof (is_fresh (dom (portfolios w))) as Hfresh%not_elem_of_dom.
  split_and!; try done.
  cbn [slug Portfolio_model.build Portfolio_model.new_slug]. intros Heq.
  apply Hfree. exists id, original. by rewrite Heq.
Qed.

Lemma duplicate_is_a_fresh_draft_witness :
  exists a w',
    portfolio_routes.duplicate (txt "user-1") 7 JUndefined Examples.before = (Ok a, w')
    /\ match a with
       | Failure status_code _ _ =>
           status_code = 500%nat /\ portfolios w' = portfolios Examples.before
       | Success status_code (new_id, copy) =>
           status_code = 201%nat
           /\ portfolios Examples.before !! new_id = None
           /\ portfolios w' = <[new_id := copy]> (portfolios Examples.before)
           /\ user_id copy = txt "user-1"
           /\ slug copy <> slug Examples.stored
           /\ content copy = Portfolio_model.set_content (content Examples.stored)
           /\ template_id copy = template_id Examples.stored
           /\ status copy = draft /\ is_public copy = false
           /\ generated_html copy = None /\ view_count copy = 0%nat
       end.
Proof.
  apply (duplicate_is_a_fresh_draft (txt "user-1") 7 JUndefined Examples.before
           Examples.stored); [|reflexivity].
  unfold Examples.before. cbn [portfolios]. apply lookup_singleton_eq.
Defined.

(** Once a preview has been sent for a portfolio, every later preview of it
    sends the same page without rendering again: the page is served from
    [generated_html], whatever the clock, the templates and the files have
    become, for as long as nothing rewrites that column. *)
Theorem preview_is_stable (E : Env) (id : nat) (w w1 : world) (html : text) :
  routes.preview E id w = (Ok (routes.SendHtml html), w1) ->
  forall E', exists w2,
    routes.preview E' id w1 = (Ok (routes.SendHtml html), w2)
    /\ portfolios w2 = portfolios w1
    /\ clock_reads w2 = clock_reads w1
    /\ calls w2 = calls w1.
Proof.
  intros H E'.
  assert (exists p, portfolios w1 !! id = Some p /\ routes.cached p = Some html)
    as (p1 & Hp1 & Hc1).
  { unfold routes.preview in H.
    cbv [mbind M_bind mret M_ret try_catch Portfolio_model.findByPk console_log
         console_error modify] in H.
    destruct (portfolios w !! id) as [p|] eqn:Hp; [|done].
    destruct (routes.cached p) as [cached_|] eqn:Hc.
    { injection H as <- <-. by exists p. }
    match type of H with context [templateEngine.generateHTML E ?c ?t ?w0] =>
      destruct (templateEngine.generateHTML E c t w0) as [[[h css js used|err]|e] w0']
        eqn:Hgen end; [|done..].
    apply generateHTML_success in Hgen as [Hne _].
    cbv [Portfolio_model.setGeneratedFiles Portfolio_model.save mbind M_bind mret
         M_ret modify] in H.
    injection H as <- <-. eexists. split; [apply lookup_insert_eq|].
    unfold routes.cached, Portfolio_model.nonempty.
    cbn [generated_html Portfolio_model.with_generated].
    by rewrite bool_decide_false. }
  unfold routes.preview.
  cbv [mbind M_bind mret M_ret try_catch Portfolio_model.findByPk console_log modify].
  rewrite Hp1, Hc1. by eexists.
Qed.

Lemma preview_is_stable_witness :
  exists w2,
    routes.preview Examples.new_year 7
      (routes.preview (Examples.steady []) 7 Examples.before).2
    = (Ok (routes.SendHtml (txt "<old>")), w2)
    /\ portfolios w2
       = portfolios (routes.preview (Examples.steady []) 7 Examples.before).2
    /\ clock_reads w2
       = clock_reads (routes.preview (Examples.steady []) 7 Examples.before).2
    /\ calls w2 = calls (routes.preview (Examples.steady []) 7 Examples.before).2.
Proof.
  apply (preview_is_stable (Examples.steady []) 7 Examples.before
           (routes.preview (Examples.steady []) 7 Examples.before).2 (txt "<old>")).
  reflexivity.
Defined.


(** ** A resume source *)

Section ResumeFacts.
Import portfolioGenerator.

Lemma parseResumeContent_run E v w :
  aiService.parseResumeContent E v w
  = match openai E (length (calls w)) aiService.cheap (ResumeParsing v) with
    | Ok response =>
        (Ok {| aiService.resume_success := true;
               aiService.resume_data :=
                 aiService._parseResumeData (message_content response) |},
         with_call (ChatCompletion aiService.cheap (ResumeParsing v) 3000) w)
    | Throw e =>
        (Throw e,
         with_console {| level := LevelError; line := txt "Resume parsing error:" |}
           (with_call (ChatCompletion aiService.cheap (ResumeParsing v) 3000) w))
    end.
Proof.
  unfold aiService.parseResumeContent, aiService.create.
  cbv [try_catch mbind M_bind mret M_ret console_error modify throw].
  by destruct (openai E _ _ _).
Qed.

Lemma member_present v name :
  v <> VNull -> member v name = Ok (opt_jsval (prop_lookup name (own_props v))).
Proof. by destruct v. Qed.

Lemma resume_text_present s :
  source_data s <> VNull ->
  resume_text s
  = match js_or (opt_jsval (prop_lookup (txt "text") (own_props (source_data s))))
            (opt_jsval (prop_lookup (txt "content") (own_props (source_data s)))) with
    | JVal v => if truthy v then Some v else None
    | _ => None
    end.
Proof. unfold resume_text. by destruct (source_data s). Qed.

Lemma processResumeSource_run E s w :
  let w0 := with_console {| level := LevelLog; line := txt "Processing resume source" |} w in
  match resume_text s with
  | None => exists e, _processResumeSource E s w = (Throw e, w0)
  | Some v =>
      _processResumeSource E s w
      = match aiService.parseResumeContent E v w0 with
        | (Ok parseResult, w1) =>
            (Ok {| source_type := txt "resume";
                   source_data := aiService.resume_data parseResult |}, w1)
        | (Throw e, w1) => (Throw e, w1)
        end
  end.
Proof.
  intros w0. unfold _processResumeSource.
  assert (source_data s = VNull \/ source_data s <> VNull) as [Hnull|Hdata]
    by (destruct (source_data s); [by left|by right..]).
  { unfold resume_text. rewrite Hnull.
    cbv [mbind M_bind console_log modify lift member]. by eexists. }
  rewrite !(member_present _ _ Hdata).
  rewrite (resume_text_present _ Hdata).
  generalize (opt_jsval (prop_lookup (txt "text") (own_props (source_data s)))).
  generalize (opt_jsval (prop_lookup (txt "content") (own_props (source_data s)))).
  intros content_ text_. unfold js_or.
  cbv [mbind M_bind mret M_ret console_log modify lift throw]. fold w0.
  destruct (jtruthy text_) eqn:Ht.
  - destruct text_ as [|o|v]; [done|by eexists|].
    cbn [jtruthy] in Ht. rewrite Ht, parseResumeContent_run.
    by destruct (openai E _ _ _).
  - destruct content_ as [|o|v]; [by eexists..|].
    destruct (truthy v); [|by eexists].
    rewrite parseResumeContent_run. by destruct (openai E _ _ _).
Qed.

End ResumeFacts.

(** A resume source is turned into structured data by one request to the
    cheap model, whose text is [data.text], or [data.content] when that is
    missing or empty.  When neither is there the source is left out and the
    model is not asked.  Otherwise the answer is parsed as JSON, and an
    answer that is no JSON gives the basic resume structure; a request that
    fails leaves the source out.  In no case does the loop throw. *)
Theorem resume_source_outcome (E : Env) (s : source) (w : world) :
  source_type s = txt "resume" ->
  exists out w',
    portfolioGenerator._processSources E [s] w = (Ok out, w')
    /\ match resume_text s with
       | None => out = [] /\ calls w' = calls w
       | Some v =>
           calls w'
           = calls w ++ [ChatCompletion aiService.cheap (ResumeParsing v) 3000]
           /\ match openai E (length (calls w)) aiService.cheap (ResumeParsing v) with
              | Ok response =>
                  out = [ {| source_type := txt "resume";
                             source_data :=
                               match JSON_parse (message_content response) with
                               | Some parsed => parsed
                               | None => aiService.basic_resume
                               end |} ]
              | Throw _ => out = []
              end
       end.
Proof.
  intros Hs. cbn [portfolioGenerator._processSources].
  unfold portfolioGenerator.process_one. rewrite Hs.
  rewrite (bool_decide_false (txt "resume" = txt "github")) by (by vm_compute).
  rewrite (bool_decide_true (txt "resume" = txt "resume")) by done.
  cbv [mbind M_bind try_catch mret M_ret console_error modify].
  pose proof (processResumeSource_run E s w) as Hrun. cbv zeta in Hrun.
  destruct (resume_text s) as [v|].
  - rewrite Hrun, parseResumeContent_run. cbn [calls with_console].
    destruct (openai E _ _ _) as [response|e]; do 2 eexists;
      (split; [reflexivity|]); (split; [done|]); [|done].
    cbn [aiService.resume_data]. unfold aiService._parseResumeData, JSON_parse_or_throw.
    by destruct (JSON_parse (message_content response)).
  - destruct Hrun as [e ->]. by do 2 eexists.
Qed.

(** ** A section answer that is not JSON *)

Section RawAnswerFacts.
Import portfolioGenerator.
Local Opaque txt decimal.

Lemma enhanceSection_run E c s userPrompt ctx w current reply :
  member_dyn E c s = Ok current ->
  openai E (length (calls w)) aiService.cheap
    (SectionEnhancement current s userPrompt ctx) = Ok reply ->
  aiService.enhanceSection E c s userPrompt ctx w
  = (Ok {| aiService.success := true;
           aiService.ai_content :=
             aiService._parseSectionContent (message_content reply) s;
           aiService.tokensUsed := total_tokens reply;
           aiService.model := aiService.cheap |},
     with_call (ChatCompletion aiService.cheap
                  (SectionEnhancement current s userPrompt ctx) 2000) w).
Proof.
  intros Hcur Hreply.
  unfold aiService.enhanceSection, aiService._buildSectionEnhancementPrompt,
    aiService.create.
  cbv [try_catch mbind M_bind mret M_ret lift result_bind]. rewrite Hcur.
  by rewrite Hreply.
Qed.

Lemma raw_answer_run E w pid p userPrompt s current reply :
  portfolios w !! pid = Some p ->
  s <> [] ->
  member_dyn E (content p) s = Ok current ->
  openai E (length (calls w)) aiService.cheap
    (SectionEnhancement current s userPrompt
       [(txt "portfolio_id", VStr (decimal pid))]) = Ok reply ->
  JSON_parse (message_content reply) = None ->
  message_content reply <> [] ->
  exists time w',
    enhancePortfolio E pid userPrompt (Some s) w
    = (Ok (EnhancementSuccess
             (merged p (prop_set s (JVal (VStr (message_content reply)))
                          (spread (content p))))
             s userPrompt (total_tokens reply) time), w')
    /\ portfolios w'
       = <[pid := merged p (prop_set s (JVal (VStr (message_content reply)))
                              (spread (content p)))]> (portfolios w).
Proof.
  intros Hp Hs Hcur Hreply Hparse Hne.
  unfold enhancePortfolio, section_label. rewrite given_section_Some by done.
  cbv [mbind M_bind mret M_ret try_catch Date_now read_clock
       Portfolio_model.findByPk PortfolioIteration_model.create
       PortfolioIteration_model.new_portfolio_id get_world modify console_log].
  cbn [portfolios with_clock_read]. rewrite Hp.
  erewrite enhanceSection_run; [|done|done].
  cbn [aiService.success negb aiService.ai_content aiService.tokensUsed].
  unfold aiService._parseSectionContent, JSON_parse_or_throw. rewrite Hparse.
  cbv [lift]. unfold member_dyn. cbn [own_props prop_lookup].
  rewrite bool_decide_true by done.
  unfold js_or. cbn [jtruthy truthy]. rewrite bool_decide_false by done.
  cbn [negb].
  cbv [Portfolio_model.updateContent Portfolio_model.save mbind M_bind mret M_ret
       modify PortfolioIteration_model.markCompleted].
  do 2 eexists. split; [reflexivity|]. done.
Qed.

End RawAnswerFacts.

(** When the model answers a section enhancement with text that is not
    JSON, the text itself becomes the value of the section: the
    enhancement succeeds and the stored document has the raw answer, as a
    string, under the section's key. *)
Theorem raw_section_answer_is_stored (E : Env) (w : world) (pid : nat)
    (p : Portfolio) (userPrompt s : text) (current : jsval) (reply : response) :
  portfolios w !! pid = Some p ->
  s <> [] ->
  member_dyn E (content p) s = Ok current ->
  openai E (length (calls w)) aiService.cheap
    (SectionEnhancement current s userPrompt
       [(txt "portfolio_id", VStr (decimal pid))]) = Ok reply ->
  JSON_parse (message_content reply) = None ->
  message_content reply <> [] ->
  exists w' p' time,
    portfolioGenerator.enhancePortfolio E pid userPrompt (Some s) w
    = (Ok (portfolioGenerator.EnhancementSuccess p' s userPrompt
             (total_tokens reply) time), w')
    /\ portfolios w' !! pid = Some p'
    /\ prop_lookup s (own_props (content p')) = Some (VStr (message_content reply))
    /\ forall k, k <> s ->
         prop_lookup k (own_props (content p')) = prop_lookup k (own_props (content p)).
Proof.
  intros Hp Hs Hcur Hreply Hparse Hne.
  destruct (raw_answer_run E w pid p userPrompt s current reply Hp Hs Hcur Hreply
              Hparse Hne) as (time & w' & Hrun & Hrows).
  do 3 eexists. split; [exact Hrun|].
  split; [rewrite Hrows; apply lookup_insert_eq|].
  assert (NoDup (prop_set s (JVal (VStr (message_content reply)))
                   (spread (content p))).*1) as Hnd
    by apply prop_set_NoDup, spread_NoDup.
  split.
  - rewrite merged_lookup by done.
    by rewrite prop_lookup_set_eq by apply spread_NoDup.
  - intros k Hk. rewrite merged_lookup by done.
    rewrite prop_lookup_set_ne by done. rewrite prop_lookup_spread.
    by destruct (prop_lookup k (own_props (content p))).
Qed.

(** ** The helper that completes a link *)

Section HelperFacts.
Import templateEngine_templates.

Lemma after_prefix_app p s : after_prefix p (p ++ s) = Some s.
Proof.
  induction p as [|c p IH]; [done|]. cbn [app after_prefix].
  by rewrite N.eqb_refl.
Qed.

Lemma startsWith_app p s : startsWith (p ++ s) p = true.
Proof. unfold startsWith. rewrite after_prefix_app. by apply bool_decide_true. Qed.

End HelperFacts.

(** [ensureHttp] gives the empty string for a missing or empty link and
    throws for a value that is truthy and not a string.  For a string the
    result begins with [http://] or [https://], and completing a link twice
    is the same as completing it once. *)
Theorem ensureHttp_completes_once (url : jsval) :
  match templateEngine_templates.ensureHttp url with
  | Ok r =>
      (jtruthy url = false /\ r = []
       \/ templateEngine_templates.startsWith r (txt "http://") = true
       \/ templateEngine_templates.startsWith r (txt "https://") = true)
      /\ templateEngine_templates.ensureHttp (JVal (VStr r)) = Ok r
  | Throw _ => jtruthy url = true /\ forall s, url <> JVal (VStr s)
  end.
Proof.
  unfold templateEngine_templates.ensureHttp at 1.
  destruct (jtruthy url) eqn:Ht; cbn [negb]; [|split; [by left|done]].
  destruct url as [|o|[|b|n|s|l|ps]]; try done.
  destruct (templateEngine_templates.startsWith s (txt "http://")
            || templateEngine_templates.startsWith s (txt "https://")) eqn:Hs.
  - split.
    + apply orb_true_iff in Hs as [Hs|Hs]; [right; by left|right; by right].
    + unfold templateEngine_templates.ensureHttp. cbn [jtruthy] in *.
      rewrite Ht. cbn [negb]. by rewrite Hs.
  - split; [right; right; apply startsWith_app|].
    unfold templateEngine_templates.ensureHttp. cbn [jtruthy truthy negb].
    rewrite bool_decide_false by (by vm_compute).
    cbn [negb]. by rewrite (startsWith_app (txt "https://") s), orb_true_r.
Qed.

(** ** utils/helpers.js *)

Section StringHelperFacts.
Import helpers.

Lemma drop_hyphens_drop s : exists k, drop_hyphens s = drop k s.
Proof.
  induction s as [|c s [k IH]]; [by exists 0%nat|]. cbn [drop_hyphens].
  destruct (c =? 45); [by exists (S k)|by exists 0%nat].
Qed.

Lemma drop_hyphens_head s : head (drop_hyphens s) <> Some 45.
Proof.
  induction s as [|c s IH]; [done|]. cbn [drop_hyphens].
  destruct (c =? 45) eqn:Hc; [done|]. cbn [head]. intros [= ->]. done.
Qed.

Lemma drop_hyphens_id s : head s <> Some 45 -> drop_hyphens s = s.
Proof.
  destruct s as [|c s]; [done|]. cbn [head drop_hyphens]. intros Hc.
  destruct (c =? 45) eqn:Heq; [|done]. apply N.eqb_eq in Heq. by subst.
Qed.

Lemma trim_hyphens_take s : exists m, trim_hyphens s = take m (drop_hyphens s).
Proof.
  unfold trim_hyphens.
  destruct (drop_hyphens_drop (reverse (drop_hyphens s))) as [k ->].
  rewrite reverse_drop, reverse_involutive. by eexists.
Qed.

Lemma trim_hyphens_id s :
  head s <> Some 45 -> last s <> Some 45 -> trim_hyphens s = s.
Proof.
  intros Hh Hl. unfold trim_hyphens. rewrite (drop_hyphens_id s) by done.
  rewrite drop_hyphens_id by (by rewrite head_reverse).
  apply reverse_involutive.
Qed.

Lemma head_take_take {A} (l : list A) n m x :
  head (take n (take m l)) = Some x -> head l = Some x.
Proof. destruct l, n, m; naive_solver. Qed.

Lemma literal_safe (s : text) :
  forallb (fun d => negb ((d =? 60) || (d =? 62) || (d =? 34) || (d =? 39)
                          || (d =? 47))) s = true ->
  Forall (fun d => d <> 60 /\ d <> 62 /\ d <> 34 /\ d <> 39 /\ d <> 47) s.
Proof.
  intros H. apply Forall_forall. intros d Hd%list_elem_of_In.
  rewrite forallb_forall in H. specialize (H d Hd).
  apply negb_true_iff in H. rewrite !orb_false_iff, !N.eqb_neq in H. tauto.
Qed.

Lemma escape_unit_safe c :
  Forall (fun d => d <> 60 /\ d <> 62 /\ d <> 34 /\ d <> 39 /\ d <> 47)
    (escape_unit c).
Proof.
  unfold escape_unit.
  destruct (c =? 38) eqn:H1; [by apply literal_safe|].
  destruct (c =? 60) eqn:H2; [by apply literal_safe|].
  destruct (c =? 62) eqn:H3; [by apply literal_safe|].
  destruct (c =? 34) eqn:H4; [by apply literal_safe|].
  destruct (c =? 39) eqn:H5; [by apply literal_safe|].
  destruct (c =? 47) eqn:H6; [by apply literal_safe|].
  apply N.eqb_neq in H2, H3, H4, H5, H6. by repeat constructor.
Qed.

Lemma trim_start_length s : (length (trim_start s) <= length s)%nat.
Proof.
  induction s as [|c s IH]; [done|]. cbn [trim_start].
  destruct (Portfolio_model.is_space c); cbn [length]; lia.
Qed.

Lemma trim_length s : (length (trim s) <= length s)%nat.
Proof.
  unfold trim. rewrite length_reverse.
  etrans; [apply trim_start_length|]. rewrite length_reverse.
  apply trim_start_length.
Qed.

End StringHelperFacts.

(** [slugify] returns at most 50 characters, all of them ASCII letters,
    digits, hyphens or underscores, and never a hyphen first; what it
    returns, unless empty, passes the validators of the [slug] column.  It
    is the base slug of [Portfolio.generateSlug] whenever the hyphenated
    title neither begins nor ends with a hyphen. *)
Theorem slugify_shape (text_ : text) :
  let hyphenated :=
    Portfolio_model.hyphenate
      (Portfolio_model.strip_other (Portfolio_model.toLowerCase text_)) in
  (length (helpers.slugify text_) <= 50)%nat
  /\ Forall (fun c => slug_unit c = true) (helpers.slugify text_)
  /\ head (helpers.slugify text_) <> Some 45
  /\ (helpers.slugify text_ <> [] ->
      len_between 1 255 (helpers.slugify text_) = true
      /\ slug_pattern (helpers.slugify text_) = true)
  /\ (head hyphenated <> Some 45 -> last hyphenated <> Some 45 ->
      helpers.slugify text_ = Portfolio_model.baseSlug text_).
Proof.
  intros hyphenated. unfold helpers.slugify. fold hyphenated.
  assert (Forall (fun c => slug_unit c = true) hyphenated) as Hunits.
  { apply hyphenate_units. unfold Portfolio_model.strip_other.
    apply Forall_forall. intros c Hc.
    apply list_elem_of_filter in Hc as [Hc _]. by apply Is_true_true in Hc. }
  destruct (trim_hyphens_take hyphenated) as [m Hm].
  destruct (drop_hyphens_drop hyphenated) as [k Hk].
  assert (Forall (fun c => slug_unit c = true)
            (take 50 (helpers.trim_hyphens hyphenated))) as Hall.
  { rewrite Hm, Hk. by apply Forall_take, Forall_take, Forall_drop. }
  assert (length (take 50 (helpers.trim_hyphens hyphenated)) <= 50)%nat as Hlen
    by (rewrite length_take; lia).
  split_and!; [done | done | | |].
  - rewrite Hm. intros Hh%head_take_take. by apply drop_hyphens_head in Hh.
  - intros Hne. split.
    + unfold len_between. rewrite validator_length_ascii
        by (eapply Forall_impl; [done|apply slug_unit_ascii]).
      destruct (take 50 (helpers.trim_hyphens hyphenated)); [done|].
      cbn [length] in *. apply andb_true_intro.
      split; apply Nat.leb_le; lia.
    + unfold slug_pattern. rewrite bool_decide_false by done. cbn [negb andb].
      apply forallb_forall. intros c Hc. rewrite Forall_forall in Hall.
      apply Hall. by apply list_elem_of_In.
  - intros Hh Hl. by rewrite trim_hyphens_id.
Qed.

(** [escapeHTML] leaves none of the characters that open or close a tag or
    an attribute value: its result has no less-than or greater-than sign,
    no double or single quote and no slash.  What is not a string gives the
    empty string, and a string never gets shorter. *)
Theorem escapeHTML_is_safe (text_ : jsval) :
  Forall (fun c => c <> 60 /\ c <> 62 /\ c <> 34 /\ c <> 39 /\ c <> 47)
    (helpers.escapeHTML text_)
  /\ (forall s, text_ = JVal (VStr s) ->
        (length s <= length (helpers.escapeHTML text_))%nat)
  /\ ((forall s, text_ <> JVal (VStr s)) -> helpers.escapeHTML text_ = []).
Proof.
  split; [|split].
  - destruct text_ as [|o|[|b|n|s|l|ps]]; try by constructor.
    cbn [helpers.escapeHTML]. apply Forall_flat_map, Forall_forall.
    intros c _. apply escape_unit_safe.
  - intros s ->. cbn [helpers.escapeHTML].
    induction s as [|c s IH]; [done|]. cbn [flat_map]. rewrite length_app.
    assert (1 <= length (helpers.escape_unit c))%nat.
    { unfold helpers.escape_unit.
      repeat match goal with
             | |- context [if ?b then _ else _] => destruct b; [vm_compute; lia|]
             end.
      done. }
    cbn [length]. lia.
  - intros Hns. destruct text_ as [|o|[|b|n|s|l|ps]]; try done.
    by destruct (Hns s).
Qed.

(** [truncateText] never returns more than [length] characters when the
    suffix fits into [length]; a text within the limit is returned as it
    is, and a longer one ends with the suffix. *)
Theorem truncateText_fits (text_ : text) (length_ : Z) (suffix : text) :
  (Z.of_nat (length suffix) <= length_)%Z ->
  (Z.of_nat (length (helpers.truncateText text_ length_ suffix)) <= length_)%Z
  /\ ((Z.of_nat (length text_) <= length_)%Z ->
      helpers.truncateText text_ length_ suffix = text_)
  /\ ((length_ < Z.of_nat (length text_))%Z ->
      exists kept, helpers.truncateText text_ length_ suffix = kept ++ suffix).
Proof.
  intros Hfit. unfold helpers.truncateText.
  case_bool_decide as Hempty.
  { subst. cbn [length]. split_and!; [lia | done | lia]. }
  destruct (Z.of_nat (length text_) <=? length_)%Z eqn:Hle.
  - apply Z.leb_le in Hle. split_and!; [done | done | lia].
  - apply Z.leb_gt in Hle. split_and!; [| lia | by eexists].
    rewrite length_app.
    pose proof (trim_length (take (Z.to_nat (length_ - Z.of_nat (length suffix)))
                               text_)) as Htrim.
    rewrite length_take in Htrim. lia.
Qed.

Lemma truncateText_fits_witness :
  (Z.of_nat (length (helpers.truncateText (txt "A portfolio of compilers") 12
                       (txt "..."))) <= 12)%Z
  /\ ((Z.of_nat (length (txt "A portfolio of compilers")) <= 12)%Z ->
      helpers.truncateText (txt "A portfolio of compilers") 12 (txt "...")
      = txt "A portfolio of compilers")
  /\ ((12 < Z.of_nat (length (txt "A portfolio of compilers")))%Z ->
      exists kept,
        helpers.truncateText (txt "A portfolio of compilers") 12 (txt "...")
        = kept ++ txt "...").
Proof.
  apply (truncateText_fits (txt "A portfolio of compilers") 12 (txt "...")).
  by vm_compute.
Defined.

(** ** Deleting a portfolio *)

(** A delete asked for by the owner removes the row and, by the cascade,
    every iteration of the portfolio and no other: its statistics are then
    empty.  In a table that respects the unique index the owner no longer
    holds the slug, so that it can be given out again. *)
Theorem delete_removes_portfolio (requester : text) (id : nat) (w : world)
    (p : Portfolio) :
  portfolios w !! id = Some p ->
  user_id p = requester ->
  exists w' s,
    portfolio_routes.delete_portfolio requester id w = (Ok (Success 200 tt), w')
    /\ portfolios w' = delete id (portfolios w)
    /\ (forall iid it,
          iterations w' !! iid = Some it
          <-> iterations w !! iid = Some it /\ portfolio_id it <> Some id)
    /\ PortfolioIteration_stats.getIterationStats id w' = (Ok s, w')
    /\ PortfolioIteration_stats.total s = 0%nat
    /\ (table_valid w -> table_valid w' /\ ~ taken w' requester (slug p)).
Proof.
  intros Hp Hu. unfold portfolio_routes.delete_portfolio.
  rewrite (owner_only_owner _ _ _ _ _ Hp Hu).
  unfold portfolio_routes.destroy.
  cbv [try_catch mbind M_bind mret M_ret modify].
  do 2 eexists. split; [reflexivity|].
  cbn [portfolios iterations with_portfolios with_iterations].
  split; [done|].
  assert (forall iid it,
            filter (fun row : nat * PortfolioIteration => portfolio_id row.2 <> Some id)
              (iterations w) !! iid = Some it
            <-> iterations w !! iid = Some it /\ portfolio_id it <> Some id) as Hits.
  { intros iid it. apply map_lookup_filter_Some. }
  split; [done|]. split; [reflexivity|]. split.
  - cbn [PortfolioIteration_stats.total]. apply length_zero_iff_nil.
    apply elem_of_nil_inv. intros it Hit.
    apply findAll_elem in Hit as (iid & Hl & Hpid).
    cbn [iterations with_iterations with_portfolios] in Hl.
    apply Hits in Hl as [_ Hne]. done.
  - intros [Hrows Huniq]. unfold table_valid, taken.
    cbn [portfolios with_portfolios with_iterations]. split; [split|].
    + intros id' q [_ Hl]%lookup_delete_Some. by eapply Hrows.
    + intros id1 id2 p1 p2 [_ Hl1]%lookup_delete_Some [_ Hl2]%lookup_delete_Some.
      by apply Huniq.
    + intros (id' & q & Hl & Hq & Hs).
      apply lookup_delete_Some in Hl as [Hne Hl].
      apply Hne. eapply Huniq; [done..| |done]. congruence.
Qed.

Lemma delete_removes_portfolio_witness :
  exists w' s,
    portfolio_routes.delete_portfolio (txt "user-1") 7 Examples.section_run.2
    = (Ok (Success 200 tt), w')
    /\ portfolios w' = delete 7%nat (portfolios Examples.section_run.2)
    /\ (forall iid it,
          iterations w' !! iid = Some it
          <-> iterations Examples.section_run.2 !! iid = Some it
              /\ portfolio_id it <> Some 7%nat)
    /\ PortfolioIteration_stats.getIterationStats 7 w' = (Ok s, w')
    /\ PortfolioIteration_stats.total s = 0%nat
    /\ (table_valid Examples.section_run.2 ->
        table_valid w'
        /\ ~ taken w' (txt "user-1")
               (slug (default Examples.stored (portfolios Examples.section_run.2 !! 7%nat)))).
Proof.
  apply (delete_removes_portfolio (txt "user-1") 7 Examples.section_run.2
           (default Examples.stored (portfolios Examples.section_run.2 !! 7%nat)));
    by vm_compute.
Defined.


Lemma enhancement_counts_once_witness :
  exists s s',
    PortfolioIteration_stats.getIterationStats 7 Examples.before
    = (Ok s, Examples.before)
    /\ PortfolioIteration_stats.getIterationStats 7 Examples.section_run.2
       = (Ok s', Examples.section_run.2)
    /\ PortfolioIteration_stats.total s' = S (PortfolioIteration_stats.total s)
    /\ PortfolioIteration_stats.n_pending s' = PortfolioIteration_stats.n_pending s
    /\ (PortfolioIteration_stats.n_completed s' + PortfolioIteration_stats.n_failed s'
        = S (PortfolioIteration_stats.n_completed s
             + PortfolioIteration_stats.n_failed s))%nat
    /\ forall other, other <> 7%nat ->
         (PortfolioIteration_stats.getIterationStats other Examples.section_run.2).1
         = (PortfolioIteration_stats.getIterationStats other Examples.before).1.
Proof.
  apply (enhancement_counts_once (Examples.steady Examples.new_projects)
           Examples.before Examples.section_run.2 7 Examples.stored
           Examples.request_text (Some (txt "projects")) Examples.section_run.1).
  - unfold Examples.before. cbn [portfolios]. apply lookup_singleton_eq.
  - apply surjective_pairing.
Defined.

Lemma loadTemplate_malformed_config_witness :
  exists w',
    templateEngine_templates._loadTemplate Scenarios.echo (txt "minimal")
      Scenarios.disk = (Ok tt, w')
    /\ compiledTemplates w' !! txt "minimal"
       = Some (Scenarios.echo (txt "<main>{{hero.name}}</main>"))
    /\ templateConfigs w' = templateConfigs Scenarios.disk
    /\ last (console w')
       = Some {| level := LevelError;
                 line := [10060] ++ txt " Failed to load template "
                         ++ txt "minimal" ++ txt ":" |}.
Proof.
  apply (loadTemplate_malformed_config Scenarios.echo (txt "minimal")
           (txt "<main>{{hero.name}}</main>") (jsn "{'name': 'Minimal',")
           Scenarios.disk); by vm_compute.
Defined.


Lemma resume_source_outcome_witness :
  exists out w',
    portfolioGenerator._processSources
      (Examples.steady (jsn "{'skills':['analysis']}")) [Scenarios.resume]
      Examples.before = (Ok out, w')
    /\ match resume_text Scenarios.resume with
       | None => out = [] /\ calls w' = calls Examples.before
       | Some v =>
           calls w'
           = calls Examples.before
             ++ [ChatCompletion aiService.cheap (ResumeParsing v) 3000]
           /\ match openai (Examples.steady (jsn "{'skills':['analysis']}"))
                      (length (calls Examples.before)) aiService.cheap
                      (ResumeParsing v) with
              | Ok response =>
                  out = [ {| source_type := txt "resume";
                             source_data :=
                               match JSON_parse (message_content response) with
                               | Some parsed => parsed
                               | None => aiService.basic_resume
                               end |} ]
              | Throw _ => out = []
              end
       end.
Proof.
  apply (resume_source_outcome (Examples.steady (jsn "{'skills':['analysis']}"))
           Scenarios.resume Examples.before).
  reflexivity.
Defined.

Lemma raw_section_answer_is_stored_witness :
  exists w' p' time,
    portfolioGenerator.enhancePortfolio
      (Examples.steady (message_content Scenarios.prose)) 7 Examples.request_text
      (Some (txt "projects")) Examples.before
    = (Ok (portfolioGenerator.EnhancementSuccess p' (txt "projects")
             Examples.request_text (total_tokens Scenarios.prose) time), w')
    /\ portfolios w' !! 7%nat = Some p'
    /\ prop_lookup (txt "projects") (own_props (content p'))
       = Some (VStr (message_content Scenarios.prose))
    /\ forall k, k <> txt "projects" ->
         prop_lookup k (own_props (content p'))
         = prop_lookup k (own_props (content Examples.stored)).
Proof.
  apply (raw_section_answer_is_stored
           (Examples.steady (message_content Scenarios.prose)) Examples.before 7
           Examples.stored Examples.request_text (txt "projects")
           (JVal (VArr [])) Scenarios.prose); by vm_compute.
Defined.

(** ** A GitHub source *)

(** A github source costs one request to the GitHub service, made with the
    [username] and [access_token] of its data.  When the service reports a
    failure the source is left out; otherwise its data are the profile, the
    first six repositories, the pinned repositories, the first eight
    languages, the statistics and the profile readme that the service
    returned.  In no case does the loop throw. *)
Theorem github_source_outcome (E : Env) (s : source) (w : world) :
  source_type s = txt "github" ->
  source_data s <> VNull ->
  let username := opt_jsval (prop_lookup (txt "username") (own_props (source_data s))) in
  let access_token :=
    opt_jsval (prop_lookup (txt "access_token") (own_props (source_data s))) in
  exists out w',
    portfolioGenerator._processSources E [s] w = (Ok out, w')
    /\ calls w' = calls w ++ [GitHubUserData username access_token]
    /\ match github E (length (calls w)) username access_token with
       | GitHubFailure _ => out = []
       | GitHubSuccess d =>
           exists data repositories languages,
             out = [ {| source_type := txt "github"; source_data := data |} ]
             /\ prop_lookup (txt "top_repositories") (own_props data)
                = Some (VArr repositories)
             /\ repositories = take 6 (gh_repositories d)
             /\ (length repositories <= 6)%nat
             /\ prop_lookup (txt "languages") (own_props data)
                = Some (VArr languages)
             /\ languages = take 8 (gh_languages d)
             /\ (length languages <= 8)%nat
             /\ prop_lookup (txt "profile") (own_props data) = Some (gh_profile d)
             /\ prop_lookup (txt "stats") (own_props data) = Some (gh_stats d)
       end.
Proof.
  intros Hs Hdata username access_token.
  cbn [portfolioGenerator._processSources].
  unfold portfolioGenerator.process_one. rewrite Hs.
  rewrite (bool_decide_true (txt "github" = txt "github")) by done.
  unfold portfolioGenerator._processGitHubSource,
    portfolioGenerator.getComprehensiveUserData.
  rewrite !(member_present _ _ Hdata). fold username access_token.
  cbv [mbind M_bind try_catch mret M_ret console_log console_error modify lift
       throw].
  cbn [calls with_console].
  destruct (github E (length (calls w)) username access_token) as [d|err].
  - do 2 eexists. split; [reflexivity|]. split; [done|].
    do 3 eexists. split; [reflexivity|].
    split_and!; try done; rewrite length_take; lia.
  - by do 2 eexists.
Qed.

Lemma github_source_outcome_witness :
  let username :=
    opt_jsval (prop_lookup (txt "username") (own_props (source_data Scenarios.octocat))) in
  let access_token :=
    opt_jsval (prop_lookup (txt "access_token")
                 (own_props (source_data Scenarios.octocat))) in
  exists out w',
    portfolioGenerator._processSources Scenarios.online [Scenarios.octocat]
      Examples.before = (Ok out, w')
    /\ calls w' = calls Examples.before ++ [GitHubUserData username access_token]
    /\ match github Scenarios.online (length (calls Examples.before)) username
               access_token with
       | GitHubFailure _ => out = []
       | GitHubSuccess d =>
           exists data repositories languages,
             out = [ {| source_type := txt "github"; source_data := data |} ]
             /\ prop_lookup (txt "top_repositories") (own_props data)
                = Some (VArr repositories)
             /\ repositories = take 6 (gh_repositories d)
             /\ (length repositories <= 6)%nat
             /\ prop_lookup (txt "languages") (own_props data)
                = Some (VArr languages)
             /\ languages = take 8 (gh_languages d)
             /\ (length languages <= 8)%nat
             /\ prop_lookup (txt "profile") (own_props data) = Some (gh_profile d)
             /\ prop_lookup (txt "stats") (own_props data) = Some (gh_stats d)
       end.
Proof.
  apply (github_source_outcome Scenarios.online Scenarios.octocat Examples.before);
    done.
Defined.

Lemma enhanceSection_succeeds E c s userPrompt ctx :
  ensures (fun a => aiService.success a = true)
    (aiService.enhanceSection E c s userPrompt ctx).
Proof.
  intros w a w' H. unfold aiService.enhanceSection in H.
  cbv [try_catch mbind M_bind mret M_ret lift throw console_error modify] in H.
  destruct (aiService._buildSectionEnhancementPrompt E c s userPrompt ctx)
    as [req|e]; [|done].
  destruct (aiService.create E aiService.cheap req 2000 w) as [[reply|e] w1]; [|done].
  by injection H as <- <-.
Qed.

(** [POST /api/ai/enhance-section/:id], asked for by the owner, always
    answers; it asks the model at most once and, unlike [/iterate], records
    no iteration.  Without a section or a prompt the answer is 400 and the
    model is not asked.  Otherwise any failure, that of the model included,
    is answered 500, never 400, and leaves the row as it was.  On 200 the
    stored document has changed at the section asked for only: that key
    holds the answer's member of that name when it is truthy and the whole
    answer otherwise, and every other key holds what it held. *)
Theorem enhance_section_route_outcomes (E : Env) (requester : text) (id : nat)
    (section prompt_ : jsval) (context : list (text * value)) (w : world)
    (p : Portfolio) :
  portfolios w !! id = Some p ->
  user_id p = requester ->
  exists a w',
    ai_routes.enhance_section E requester id section prompt_ context w = (Ok a, w')
    /\ iterations w' = iterations w
    /\ iteration_log w' = iteration_log w
    /\ (exists made, calls w' = calls w ++ made /\ (length made <= 1)%nat)
    /\ match a with
       | Failure status_code _ _ =>
           portfolios w' = portfolios w
           /\ if jtruthy section && jtruthy prompt_
              then status_code = 500%nat
              else status_code = 400%nat /\ calls w' = calls w
       | Success status_code (answered, _) =>
           status_code = 200%nat
           /\ jtruthy section = true /\ jtruthy prompt_ = true
           /\ exists p' picked,
                portfolios w' = <[id := p']> (portfolios w)
                /\ p' = Portfolio_model.with_content (content p') p
                /\ member_dyn E answered (jto_string E section) = Ok picked
                /\ prop_lookup (jto_string E section) (own_props (content p'))
                   = serial_of (js_or picked (JVal answered))
                /\ forall k, k <> jto_string E section ->
                     prop_lookup k (own_props (content p'))
                     = prop_lookup k (own_props (content p))
       end.
Proof.
  intros Hp Hu. unfold ai_routes.enhance_section.
  rewrite (owner_only_owner _ _ _ _ _ Hp Hu).
  destruct (jtruthy section) eqn:Hs; cycle 1.
  { cbv [try_catch mret M_ret negb orb andb]. do 2 eexists.
    split; [reflexivity|]. rewrite ?andb_false_r.
    split_and!; [done|done| |done|done|done].
    exists []. split; [by rewrite app_nil_r | cbn; lia]. }
  destruct (jtruthy prompt_) eqn:Hq; cycle 1.
  { cbv [try_catch mret M_ret negb orb andb]. do 2 eexists.
    split; [reflexivity|]. rewrite ?andb_false_r.
    split_and!; [done|done| |done|done|done].
    exists []. split; [by rewrite app_nil_r | cbn; lia]. }
  cbn [negb orb andb].
  cbv [try_catch mbind M_bind console_log console_error modify].
  set (w0 := with_console _ w).
  destruct (aiService.enhanceSection E (content p) (jto_string E section)
              (jto_string E prompt_) context w0) as [[a0|e] w1] eqn:Hai.
  - pose proof (quiet_enhanceSection _ _ _ _ _ _ _ _ Hai) as (Hq1 & Hq2 & Hq3).
    pose proof (spends_enhanceSection _ _ _ _ _ _ _ _ Hai) as Hcalls.
    pose proof (enhanceSection_succeeds _ _ _ _ _ _ _ _ Hai) as Hok.
    cbn beta in Hok. rewrite Hok. cbn [negb].
    cbv [lift].
    destruct (member_dyn E (aiService.ai_content a0) (jto_string E section))
      as [picked|e] eqn:Hpick.
    + cbv [Portfolio_model.updateContent Portfolio_model.save mbind M_bind mret M_ret
           modify].
      do 2 eexists. split; [reflexivity|].
      split_and!; [done|done|done|done|done|done|].
      eexists (merged p _), picked. split_and!.
      * cbn. by rewrite Hq1.
      * done.
      * done.
      * rewrite merged_lookup by apply prop_set_NoDup, spread_NoDup.
        by rewrite prop_lookup_set_eq by apply spread_NoDup.
      * intros k Hk.
        rewrite merged_lookup by apply prop_set_NoDup, spread_NoDup.
        rewrite prop_lookup_set_ne by done. rewrite prop_lookup_spread.
        by destruct (prop_lookup k (own_props (content p))).
    + do 2 eexists. split; [reflexivity|].
      by split_and!.
  - pose proof (quiet_enhanceSection _ _ _ _ _ _ _ _ Hai) as (Hq1 & Hq2 & Hq3).
    pose proof (spends_enhanceSection _ _ _ _ _ _ _ _ Hai) as Hcalls.
    do 2 eexists. split; [reflexivity|]. by split_and!.
Qed.

Lemma enhance_section_route_outcomes_witness :
  exists a w',
    ai_routes.enhance_section (Examples.steady Examples.contact_without_email)
      (txt "user-1") 7 (JVal (VStr (txt "contact")))
      (JVal (VStr Examples.request_text)) [] Examples.before = (Ok a, w')
    /\ iterations w' = iterations Examples.before
    /\ iteration_log w' = iteration_log Examples.before
    /\ (exists made, calls w' = calls Examples.before ++ made
                     /\ (length made <= 1)%nat)
    /\ match a with
       | Failure status_code _ _ =>
           portfolios w' = portfolios Examples.before
           /\ if jtruthy (JVal (VStr (txt "contact")))
                 && jtruthy (JVal (VStr Examples.request_text))
              then status_code = 500%nat
              else status_code = 400%nat /\ calls w' = calls Examples.before
       | Success status_code (answered, _) =>
           status_code = 200%nat
           /\ jtruthy (JVal (VStr (txt "contact"))) = true
           /\ jtruthy (JVal (VStr Examples.request_text)) = true
           /\ exists p' picked,
                portfolios w' = <[7%nat := p']> (portfolios Examples.before)
                /\ p' = Portfolio_model.with_content (content p') Examples.stored
                /\ member_dyn (Examples.steady Examples.contact_without_email) answered
                     (jto_string (Examples.steady Examples.contact_without_email)
                        (JVal (VStr (txt "contact")))) = Ok picked
                /\ prop_lookup
                     (jto_string (Examples.steady Examples.contact_without_email)
                        (JVal (VStr (txt "contact"))))
                     (own_props (content p'))
                   = serial_of (js_or picked (JVal answered))
                /\ forall k,
                     k <> jto_string (Examples.steady Examples.contact_without_email)
                            (JVal (VStr (txt "contact"))) ->
                     prop_lookup k (own_props (content p'))
                     = prop_lookup k (own_props (content Examples.stored))
       end.
Proof.
  apply (enhance_section_route_outcomes
           (Examples.steady Examples.contact_without_email) (txt "user-1") 7
           (JVal (VStr (txt "contact"))) (JVal (VStr Examples.request_text)) []
           Examples.before Examples.stored);
    by vm_compute.
Defined.
